(** * PE Import Analyzer: a shallow embedding of [PE-Import-Analyzer.py]

    The script parses a PE file with LIEF, groups the imported functions by
    DLL, and renders a text or HTML report annotated from a static catalog.

    Modelling conventions.
    - Python [str] values are Rocq [string]s; the development covers ASCII
      text, for which [str.lower] maps [A-Z] to [a-z] and string comparison
      is bytewise lexicographic.
    - A Python [dict] is an association list in insertion order with unique
      keys ([dict_set] overwrites in place, or appends a new key at the end).
    - [list.sort] and [sorted] are stable; they are modelled by a stable
      insertion sort on the key [str.lower].
    - Exceptions are values of [exn]; a computation that can raise returns
      a [result]. The interactive part of [main] runs in a small monad that
      threads the console (pending input lines, emitted events).
    - LIEF, argparse, [html.escape], [os.path] (POSIX flavour), the file
      system and the iteration order of a set are the environment:
      [lief_result], [invocation] and [env] say what they hand to the
      script, and the two library functions are written out as the Python
      standard library defines them. *)

From Stdlib Require Import String Ascii List Bool Arith NArith Lia.
From Stdlib Require Import Sorting.Sorted Sorting.Permutation.
From Stdlib Require Import DecimalString DecimalN.
Import ListNotations.
Open Scope string_scope.

(** ** Python string primitives *)

Module Str.

(** [str.lower] on one ASCII character. *)
Definition lower_ascii (c : ascii) : ascii :=
  let n := nat_of_ascii c in
  if ((65 <=? n) && (n <=? 90))%nat then ascii_of_nat (n + 32) else c.

(** [str.lower]. *)
Fixpoint lower (s : string) : string :=
  match s with
  | EmptyString => EmptyString
  | String c r => String (lower_ascii c) (lower r)
  end.

(** [str(n)] for a non-negative integer: its decimal digits. *)
Definition of_N (n : N) : string := NilEmpty.string_of_uint (N.to_uint n).

(** Truthiness of a string: non-empty. *)
Definition truthy (s : string) : bool :=
  match s with EmptyString => false | String _ _ => true end.

(** [x or y] on strings. *)
Definition or_else (x y : string) : string := if truthy x then x else y.

(** Whitespace as seen by [str.strip] (ASCII range). *)
Definition is_space (c : ascii) : bool :=
  let n := nat_of_ascii c in
  (((9 <=? n) && (n <=? 13)) || ((28 <=? n) && (n <=? 32)))%nat.

Fixpoint lstrip (s : string) : string :=
  match s with
  | EmptyString => EmptyString
  | String c r => if is_space c then lstrip r else s
  end.

(** Strip trailing whitespace: a suffix made only of spaces collapses. *)
Fixpoint rstrip (s : string) : string :=
  match s with
  | EmptyString => EmptyString
  | String c r =>
      match rstrip r with
      | EmptyString => if is_space c then EmptyString else String c EmptyString
      | r' => String c r'
      end
  end.

(** [str.strip]. *)
Definition strip (s : string) : string := rstrip (lstrip s).

(** ["sep".join(lines)]. *)
Definition join (sep : string) (ls : list string) : string := String.concat sep ls.

End Str.

(** ** Stable sorting with a key, as [sorted(xs, key=str.lower)] *)

Section KeySort.
Variable key : string -> string.

Definition key_le (a b : string) : bool := String.leb (key a) (key b).

(** Insert [x] in front of the first element whose key is not smaller:
    [x] stays ahead of the elements of equal key that followed it. *)
Fixpoint insert_by (x : string) (l : list string) : list string :=
  match l with
  | [] => [x]
  | y :: r => if key_le x y then x :: y :: r else y :: insert_by x r
  end.

Fixpoint sorted_by (l : list string) : list string :=
  match l with
  | [] => []
  | x :: r => insert_by x (sorted_by r)
  end.
End KeySort.

(** The order a key induces. *)
Definition key_order (key : string -> string) (a b : string) : Prop :=
  key_le key a b = true.

(** [sorted(xs, key=str.lower)] and [xs.sort(key=str.lower)]. *)
Definition sorted_lower : list string -> list string := sorted_by Str.lower.

(** Case-insensitive order used by the script. *)
Definition le_lower (a b : string) : Prop :=
  String.leb (Str.lower a) (Str.lower b) = true.

(** ** Python dictionaries as insertion-ordered association lists *)

Section Dict.
Context {V : Type}.

Definition dict := list (string * V).

Definition keys (d : dict) : list string := map fst d.
Definition values (d : dict) : list V := map snd d.

(** [d.get(k)] / [d[k]]. *)
Fixpoint dict_get (k : string) (d : dict) : option V :=
  match d with
  | [] => None
  | (k', v) :: r => if String.eqb k' k then Some v else dict_get k r
  end.

(** [k in d]. *)
Definition dict_mem (k : string) (d : dict) : bool :=
  match dict_get k d with Some _ => true | None => false end.

(** [d[k] = v]: overwrite in place, or append a new key. *)
Fixpoint dict_set (k : string) (v : V) (d : dict) : dict :=
  match d with
  | [] => [(k, v)]
  | (k', v') :: r =>
      if String.eqb k' k then (k', v) :: r else (k', v') :: dict_set k v r
  end.

(** In-place update of the value stored under [k] (which is present at
    every call site of the script). *)
Fixpoint dict_update (k : string) (f : V -> V) (d : dict) : dict :=
  match d with
  | [] => []
  | (k', v) :: r =>
      if String.eqb k' k then (k', f v) :: r else (k', v) :: dict_update k f r
  end.
End Dict.

Arguments dict V : clear implicits.

(** ** What LIEF hands to the script *)

(** [lief.PE.ImportEntry]: [name] is empty for an import by ordinal. *)
Record ImportEntry := { entry_name : string; entry_ordinal : N }.

(** [lief.PE.Import]: one import descriptor. *)
Record Import := { imp_name : string; imp_entries : list ImportEntry }.

(** [lief.PE.Binary], as far as the script reads it. *)
Record Binary := { imports : list Import }.

(** The outcome of [lief.parse(file_path)]. *)
Inductive lief_result :=
| LiefNone                     (* parse returned None *)
| LiefOther                    (* an ELF or Mach-O object, not a PE one *)
| LiefPE (b : Binary)          (* a lief.PE.Binary *)
| LiefRaised (msg : string).   (* the library itself raised *)

(** ** Exceptions *)

Inductive exn_class :=
| ValueError
| EOFError
| OSError
| LiefError
| SystemExit (code : nat).   (* raised by sys.exit(code); not an Exception *)

(** An exception with the text [str(e)] gives. *)
Record exn := Exn { exn_kind : exn_class; exn_str : string }.

(** [isinstance(e, Exception)]: everything above but [SystemExit], which
    derives from [BaseException] only. *)
Definition is_exception (e : exn) : bool :=
  match exn_kind e with
  | SystemExit _ => false
  | _ => true
  end.

Inductive result (A : Type) :=
| Ok (a : A)
| Raise (e : exn).
Arguments Ok {A} a.
Arguments Raise {A} e.

(** ** Import extraction *)

Definition table := dict (list string).

(** [entry.name if entry.name else f"Ordinal_{entry.ordinal}"] *)
Definition func_of_entry (entry : ImportEntry) : string :=
  if Str.truthy (entry_name entry) then entry_name entry
  else "Ordinal_" ++ Str.of_N (entry_ordinal entry).

(** [imp.name or "UNKNOWN_DLL"] *)
Definition dll_name_of (imp : Import) : string :=
  Str.or_else (imp_name imp) "UNKNOWN_DLL".

(** Body of the outer loop for one import descriptor. *)
Definition add_import (imports_by_dll : table) (imp : Import) : table :=
  let dll_name := dll_name_of imp in
  let d :=
    if negb (dict_mem dll_name imports_by_dll)
    then dict_set dll_name [] imports_by_dll
    else imports_by_dll in
  fold_left
    (fun d entry =>
       dict_update dll_name (fun l => (l ++ [func_of_entry entry])%list) d)
    (imp_entries imp) d.

Definition collect_imports (binary : Binary) : table :=
  fold_left add_import (imports binary) [].

(** [for dll in imports_by_dll: imports_by_dll[dll].sort(key=str.lower)] *)
Definition sort_values (d : table) : table :=
  map (fun kv => (fst kv, sorted_lower (snd kv))) d.

(** [imports_by_dll[dll]] for a key taken from the dictionary itself. *)
Definition dict_at (dll : string) (d : table) : list string :=
  match dict_get dll d with Some l => l | None => [] end.

Definition extract_and_sort_imports (parsed : lief_result) : result table :=
  match parsed with
  | LiefRaised msg => Raise (Exn LiefError msg)
  | LiefNone | LiefOther => Raise (Exn ValueError "Not a valid PE file.")
  | LiefPE binary =>
      let imports_by_dll := sort_values (collect_imports binary) in
      Ok (map (fun dll => (dll, dict_at dll imports_by_dll))
              (sorted_lower (keys imports_by_dll)))
  end.

(** ** The annotation catalog *)

Definition DEFAULT_EXPLANATION : string :=
  "No explanation available. Please refer to official documentation.".

(** One value of [dll_api_explanations]: the keys ["explanation"] and
    ["apis"] of the nested dictionary. *)
Record dll_info := { explanation : string; apis : dict string }.

(** [range(a, b)] *)
Definition range (a b : nat) : list nat := seq a (b - a).

(** [extend_apis(dll_dict, target)]: pad [apis] with placeholder entries
    numbered from [len(apis) + 1] up to [target]. *)
Definition extend_apis (dll_dict : dll_info) (target : nat) : dll_info :=
  let current := length (apis dll_dict) in
  {| explanation := explanation dll_dict;
     apis :=
       fold_left
         (fun a i =>
            let key := "placeholder_" ++ Str.of_N (N.of_nat i) in
            dict_set key DEFAULT_EXPLANATION a)
         (range (current + 1) (target + 1)) (apis dll_dict) |}.

(** The [apis] literal of ["kernel32.dll"]. *)
Definition kernel32_apis : dict string := [
  ("createfile", "Creates or opens a file, device, or I/O resource and returns a handle.");
  ("readfile", "Reads data from an open file or I/O device into a buffer.");
  ("writefile", "Writes data from a buffer to an open file or I/O device.");
  ("closehandle", "Closes an open object handle and releases its resources.");
  ("virtualalloc", "Reserves or commits a region of pages in the virtual address space.");
  ("virtualfree", "Frees or decommits a region of pages in the virtual address space.");
  ("getprocaddress", "Retrieves the address of an exported function or variable from a DLL.");
  ("loadlibrary", "Loads the specified DLL into the process's address space.");
  ("createthread", "Creates a new thread within the calling process.");
  ("createprocess", "Creates a new process and its primary thread.");
  ("openprocess", "Opens an existing process with specified access rights.");
  ("terminateprocess", "Forcibly terminates a specified process and its threads.");
  ("suspendthread", "Suspends the execution of a specified thread.");
  ("resumethread", "Resumes a suspended thread.");
  ("waitforsingleobject", "Waits until a specified object is in the signaled state.");
  ("getlasterror", "Retrieves the calling thread's last error code.");
  ("getmodulehandle", "Retrieves a handle to a module that is already loaded.");
  ("getcurrentprocess", "Returns a pseudo-handle for the current process.");
  ("getcurrentthread", "Returns a pseudo-handle for the current thread.");
  ("exitprocess", "Terminates the current process and all its threads.");
  ("sleep", "Suspends the execution of the current thread for a specified time interval.");
  ("findfirstfile", "Initiates a search for files and directories matching a specified pattern.");
  ("findnextfile", "Continues a file search from a previous FindFirstFile call.");
  ("findclose", "Closes the search handle opened by FindFirstFile.");
  ("deletefile", "Deletes a file from the file system.");
  ("copyfile", "Copies an existing file to a new file.");
  ("movefile", "Moves or renames a file or directory.");
  ("createmutex", "Creates or opens a mutex object for synchronizing access to shared resources.");
  ("waitformultipleobjects", "Waits until one or more specified objects are in the signaled state.");
  ("createevent", "Creates or opens an event object for synchronization purposes.");
  ("setevent", "Sets the specified event object to the signaled state.");
  ("resetevent", "Resets the specified event object to the non-signaled state.");
  ("createfilemapping", "Creates a file mapping object for shared memory between processes.");
  ("mapviewoffile", "Maps a view of a file mapping into the address space of the calling process.");
  ("unmapviewoffile", "Unmaps a mapped view of a file from the process's address space.");
  ("getsystemtime", "Retrieves the current system date and time in UTC.");
  ("setsystemtime", "Sets the system time and date, requiring appropriate privileges.");
  ("queryperformancecounter",
   "Retrieves the current value of the high-resolution performance counter.");
  ("queryperformancefrequency",
   "Retrieves the frequency of the high-resolution performance counter.");
  ("createnamedpipe", "Creates an instance of a named pipe for inter-process communication.");
  ("connectnamedpipe", "Connects the server end of a named pipe to a client process.");
  ("disconnectnamedpipe", "Disconnects the server end of a named pipe from a client.");
  ("exitthread", "Terminates the calling thread and returns an exit code.");
  ("beep", "Generates simple tones on the speaker.");
  ("gettickcount",
   "Retrieves the number of milliseconds that have elapsed since the system was started.");
  ("globalalloc", "Allocates memory from the global heap.");
  ("globalfree", "Frees memory allocated from the global heap.");
  ("heapalloc", "Allocates a block of memory from a specified heap.");
  ("heapfree", "Frees a memory block allocated from a specified heap.");
  ("getmodulefilename",
   "Retrieves the fully qualified path for the file that contains the specified module.");
  ("getfilesize", "Retrieves the size of the specified file in bytes.");
  ("setfilepointer", "Moves the file pointer of an open file to a specified position.")
].

(** The [apis] literal of ["user32.dll"]. *)
Definition user32_apis : dict string := [
  ("createwindowex", "Creates an overlapped, pop-up, or child window with extended styles.");
  ("defwindowproc",
   "Provides default processing for window messages not handled by the window procedure.");
  ("dispatchmessage", "Dispatches a message to a window procedure.");
  ("messagebox", "Displays a modal dialog box with a message, icons, and buttons.");
  ("getmessage", "Retrieves a message from the calling thread's message queue.");
  ("translatemessage", "Translates virtual-key messages into character messages.");
  ("destroywindow", "Destroys the specified window and releases its resources.");
  ("getclientrect", "Retrieves the coordinates of a window's client area.");
  ("screentoclient", "Converts screen coordinates to client-area coordinates for a window.");
  ("clienttoscreen", "Converts client-area coordinates to screen coordinates for a window.");
  ("enablewindow", "Enables or disables input to a specified window.");
  ("setfocus", "Sets the keyboard focus to a specified window.");
  ("getfocus", "Retrieves the handle to the window that has the keyboard focus.");
  ("postmessage", "Posts a message to the message queue of a specified window.");
  ("sendmessage", "Sends a message to a window and waits for it to be processed.");
  ("setforegroundwindow", "Brings the specified window to the foreground.");
  ("showwindow", "Sets the show state (minimized, maximized, etc.) of a window.");
  ("updatewindow", "Forces a window to repaint immediately.");
  ("getwindowtext", "Retrieves the title bar text of a window.");
  ("setwindowtext", "Changes the title bar text of a window.");
  ("adjustwindowrect",
   "Calculates the required window rectangle to accommodate a desired client area, considering window styles.");
  ("adjustwindowrectex",
   "Calculates the window rectangle size including extended styles for accurate layout.");
  ("getsystemmetrics",
   "Retrieves various system metrics and configuration settings, such as screen dimensions.");
  ("setcursor", "Sets the current cursor shape to the specified cursor handle.");
  ("loadcursor", "Loads the specified cursor resource from the executable or a DLL.");
  ("setcursorpos", "Moves the cursor to the specified screen coordinates.");
  ("getcursorpos", "Retrieves the current position of the cursor on the screen.");
  ("registerclass", "Registers a window class for subsequent window creation.");
  ("unregisterclass",
   "Unregisters a previously registered window class, freeing associated resources.");
  ("setwindowpos", "Changes the size, position, and Z order of a window.");
  ("getwindow", "Retrieves a handle to a window with a specified relationship to a given window.");
  ("iswindow", "Determines whether the specified window handle identifies an existing window.");
  ("setwindowplacement", "Sets the show state and placement (position and size) of a window.");
  ("getwindowplacement",
   "Retrieves the current show state and window placement information of a window.");
  ("drawicon", "Draws an icon or cursor into the specified device context.");
  ("drawtext", "Draws formatted text in a specified rectangle using the selected font.");
  ("peekmessage",
   "Checks the message queue for a message without removing it, optionally retrieving the message.");
  ("registerhotkey",
   "Registers a system-wide hot key that can trigger specific actions when pressed.");
  ("unregisterhotkey", "Unregisters a system-wide hot key, freeing it for other uses.");
  ("getdc",
   "Retrieves a handle to a device context (DC) for the client area of a specified window.");
  ("releasedc", "Releases a device context (DC), freeing it for use by other applications.");
  ("loadicon", "Loads the specified icon resource from the executable or a DLL.");
  ("setwindowlong",
   "Changes an attribute of the specified window (e.g., style or window procedure pointer).");
  ("getwindowlong",
   "Retrieves information about the specified window, such as styles or extended attributes.");
  ("flashwindow", "Flashes the specified window to draw the user's attention.");
  ("enddialog", "Ends a modal dialog box, returning control to the main application.");
  ("getsystemmenu", "Retrieves a handle to the window menu for the specified window.");
  ("trackpopupmenu",
   "Displays a shortcut menu at the specified location and tracks the selection of items.");
  ("setlayeredwindowattributes", "Sets the opacity and transparency color key of a layered window.");
  ("drawframecontrol", "Draws a frame control of a specified type and style.")
].

(** The [apis] literal of ["advapi32.dll"]. *)
Definition advapi32_apis : dict string := [
  ("OpenSCManagerA", "Opens a handle to the Service Control Manager database (ANSI).");
  ("OpenServiceA", "Opens an existing service from the SCM database (ANSI).");
  ("RegCloseKey", "Closes a handle to a registry key.");
  ("RegOpenKeyA", "Opens a registry key (ANSI, basic access).");
  ("RegOpenKeyExA", "Opens a registry key with extended options (ANSI).");
  ("RegQueryValueExA", "Retrieves the type and data of a registry value (ANSI).");
  ("regopenkeyex", "Opens a registry key with the desired access rights.");
  ("regqueryvalueex", "Retrieves the type and data for a specified registry value.");
  ("regsetvalueex", "Sets the data for a specified registry value.");
  ("regenumkeyex", "Enumerates subkeys of an open registry key.");
  ("regenumvalue", "Enumerates the values of an open registry key.");
  ("regclosekey", "Closes a handle to a registry key.");
  ("regcreatekeyex", "Creates or opens a registry key with specified options.");
  ("regdeletekey", "Deletes a specified registry key.");
  ("regdeletevalue", "Deletes a value from a registry key.");
  ("regqueryinfokey", "Retrieves information about a registry key.");
  ("lookupprivilegevalue", "Retrieves the LUID for a specified privilege.");
  ("adjusttokenprivileges", "Enables or disables privileges in an access token.");
  ("openprocesstoken", "Opens the access token associated with a process.");
  ("duplicatehandle", "Duplicates an object handle for use in another process.");
  ("regloadkey", "Loads registry data from a file into a registry key.");
  ("regunloadkey", "Unloads registry data from a registry key.");
  ("startservice", "Starts a service.");
  ("openservice", "Opens an existing service.");
  ("queryserviceconfig", "Retrieves configuration parameters for a service.");
  ("changeserviceconfig", "Modifies the configuration parameters of a service.");
  ("impersonateloggedonuser",
   "Impersonates a logged-on user, allowing a thread to assume the user's security context.");
  ("reverttoself",
   "Terminates the impersonation of a client and reverts the thread's security context to the process.");
  ("openscmanager", "Opens a handle to the service control manager on the specified computer.");
  ("createservice", "Creates a service object and adds it to the service control manager database.");
  ("deleteservice", "Marks a service for deletion from the service control manager database.");
  ("controlservice", "Sends a control code to a service to perform a specific action.");
  ("closeservicehandle", "Closes a handle to a service control manager or service object.");
  ("queryservicestatus", "Retrieves the current status of a specified service.");
  ("queryservicestatusex", "Retrieves extended status information for a specified service.");
  ("startservicectrldispatcher",
   "Connects the main thread of a service process to the service control manager for message handling.");
  ("setservicestatus",
   "Sets the current status of a service, reporting its state to the service control manager.");
  ("getsecurityinfo",
   "Retrieves security information about a specified object, such as a registry key or service.");
  ("setsecurityinfo",
   "Sets security information for a specified object, modifying its access control list.");
  ("convertstringsecuritydescriptortosecuritydescriptor",
   "Converts a string-format security descriptor into a valid security descriptor.");
  ("gettokeninformation", "Retrieves specified information about an access token.");
  ("settokeninformation", "Sets various types of information for an access token.");
  ("auditaccountpolicychange", "Audits changes to account policies.");
  ("auditprivilegeuse", "Audits the use of privileges.");
  ("backupregistryfile", "Backs up a specified registry key to a file.");
  ("restoreregistryfile", "Restores a registry key from a backup file.");
  ("encryptfile", "Encrypts a file or directory.");
  ("decryptfile", "Decrypts a file or directory.");
  ("openbackupeventlog", "Opens a backup copy of the event log for reading.");
  ("cleareventlog", "Clears the specified event log.");
  ("regsavekeyex", "Saves the specified registry key to a file, including security settings.");
  ("regrestorekey", "Restores a registry key from a file.");
  ("regloadappkey", "Loads a registry hive from a file into a specified key.");
  ("regunloadappkey", "Unloads a previously loaded registry hive.");
  ("setnamedsecurityinfo", "Sets security information for a specified object by name.");
  ("getnamedsecurityinfo", "Retrieves security information for a specified object by name.");
  ("RegConnectRegistry", "Establishes a connection to a remote registry.");
  ("RegOpenUserClassesRoot", "Opens the user classes registry key for a specified user.");
  ("RegOverridePredefKey", "Overrides a predefined registry key with a specified key.");
  ("RegQueryMultipleValues", "Retrieves values for multiple registry keys in one call.");
  ("RegSetKeySecurity", "Sets the security of a registry key.");
  ("RegQueryKeySecurity", "Retrieves the security of a registry key.");
  ("RegSaveKey", "Saves the specified registry key and its subkeys to a file.");
  ("RegConnectRegistryEx", "Establishes an extended connection to a remote registry.");
  ("OpenSCManagerEx", "Opens a handle to the service control manager with extended access.");
  ("ChangeServiceConfig2", "Changes additional configuration parameters of a service.");
  ("QueryServiceConfig2", "Retrieves additional configuration parameters of a service.");
  ("StartServiceCtrlDispatcher",
   "Connects the main thread of a service process to the service control manager.");
  ("RegisterServiceCtrlHandlerEx",
   "Registers a service control handler that can receive extended control codes.");
  ("GetServiceKeyName", "Retrieves the service key name for a specified service.");
  ("GetServiceDisplayName", "Retrieves the display name for a specified service.");
  ("CreateBoundaryDescriptor", "Creates a boundary descriptor for security isolation.");
  ("AddSIDToBoundaryDescriptor", "Adds a SID to a boundary descriptor.");
  ("DeleteBoundaryDescriptor", "Deletes a boundary descriptor and frees associated resources.");
  ("CreateRestrictedToken", "Creates a restricted access token with reduced privileges.");
  ("IsWellKnownSid", "Determines if a SID is a well-known SID.");
  ("GetSecurityDescriptorControl", "Retrieves control bits from a security descriptor.");
  ("SetSecurityDescriptorControl", "Sets control bits in a security descriptor.");
  ("InitializeSecurityDescriptor", "Initializes a new security descriptor.");
  ("SetSecurityDescriptorDacl", "Sets the discretionary ACL (DACL) in a security descriptor.");
  ("GetSecurityDescriptorDacl", "Retrieves the discretionary ACL from a security descriptor.");
  ("SetSecurityDescriptorSacl", "Sets the system ACL (SACL) in a security descriptor.");
  ("GetSecurityDescriptorSacl", "Retrieves the system ACL from a security descriptor.");
  ("SetSecurityDescriptorOwner", "Sets the owner in a security descriptor.");
  ("GetSecurityDescriptorOwner", "Retrieves the owner from a security descriptor.");
  ("SetSecurityDescriptorGroup", "Sets the primary group in a security descriptor.");
  ("GetSecurityDescriptorGroup", "Retrieves the primary group from a security descriptor.");
  ("ConvertSecurityDescriptorToStringSecurityDescriptor",
   "Converts a security descriptor to its string representation.");
  ("ConvertStringSecurityDescriptorToSecurityDescriptor",
   "Converts a string-format security descriptor to a binary security descriptor.");
  ("QuerySecurityAccessMask", "Retrieves the access mask for a specified object.");
  ("GetEffectiveRightsFromAcl", "Retrieves the effective rights for a trustee from an ACL.");
  ("SetEntriesInAcl", "Creates a new ACL by merging explicit access entries with an existing ACL.");
  ("GetAuditedPermissionsFromAcl", "Retrieves the audited permissions for a trustee from an ACL.");
  ("BuildExplicitAccessWithName", "Initializes an EXPLICIT_ACCESS structure with specified values.");
  ("GetExplicitEntriesFromAcl", "Retrieves explicit access control entries from an ACL.");
  ("GetSecurityDescriptorLength", "Retrieves the length of a security descriptor.");
  ("GetFileSecurity", "Retrieves security information about a file.");
  ("SetFileSecurity", "Sets security information for a file.");
  ("ImpersonateSelf", "Impersonates the calling process's security context.");
  ("RevertToSelf", "Reverts to the process's original security context.");
  ("OpenThreadToken", "Opens the access token associated with a thread.");
  ("DuplicateToken", "Duplicates an access token.");
  ("DuplicateTokenEx", "Duplicates an access token with extended rights.");
  ("ConvertSidToStringSid", "Converts a binary SID to its string representation.");
  ("ConvertStringSidToSid", "Converts a string SID to a binary SID.");
  ("AllocateAndInitializeSid",
   "Allocates and initializes a SID with a specified identifier authority.")
].

(** The [apis] literal of ["ntdll.dll"]. *)
Definition ntdll_apis : dict string := [
  ("ntcreatefile", "Creates or opens a file using NT system calls.");
  ("ntopenfile", "Opens a file using NT system calls.");
  ("ntreadfile", "Reads data from a file using NT system calls.");
  ("ntwritefile", "Writes data to a file using NT system calls.");
  ("ntclose", "Closes a handle using NT system calls.");
  ("ntqueryinformationprocess", "Retrieves process information using NT system calls.");
  ("ntquerysysteminformation", "Retrieves system information using NT system calls.");
  ("ntqueryinformationfile", "Retrieves file information using NT system calls.");
  ("ntsetinformationfile", "Sets file information using NT system calls.");
  ("ntallocatevirtualmemory", "Allocates virtual memory using NT system calls.");
  ("ntfreevirtualmemory", "Frees virtual memory using NT system calls.");
  ("ntdelayexecution", "Delays execution of the current thread using NT system calls.");
  ("ntqueryobject", "Retrieves information about an NT object.");
  ("ntquerydirectoryfile", "Enumerates directory entries using NT system calls.");
  ("ntcreatethread", "Creates a thread using NT system calls.");
  ("ntexitprocess", "Terminates a process using NT system calls.");
  ("ntterminateprocess", "Terminates a process using NT system calls.");
  ("ntdispatchrequest", "Dispatches an NT system call request.");
  ("ntdoioctl", "Performs an I/O control operation using NT system calls.");
  ("ntunwind", "Unwinds the stack during exception handling using NT system calls.");
  ("ntqueryinformationthread", "Retrieves information about a thread using NT system calls.");
  ("ntsetinformationthread", "Sets information for a thread using NT system calls.");
  ("ntreadvirtualmemory",
   "Reads memory from a process's virtual address space using NT system calls.");
  ("ntwritevirtualmemory",
   "Writes memory to a process's virtual address space using NT system calls.");
  ("ntopenprocess", "Opens a process using NT system calls.");
  ("ntquerysystemenvironmentvalue", "Retrieves environment variable values from the system.");
  ("ntsetsystemenvironmentvalue", "Sets system environment variable values using NT system calls.");
  ("ntqueryperformancecounter", "Retrieves performance counter information using NT system calls.");
  ("ntflushinstructioncache", "Flushes the instruction cache of a process.");
  ("ntcontinue", "Resumes execution of a thread interrupted by an exception.");
  ("ntterminatethread", "Terminates a thread using NT system calls.");
  ("ntopenthread", "Opens a handle to a thread using NT system calls.");
  ("ntqueryvirtualmemory", "Retrieves information about a region of virtual memory.");
  ("ntprotectvirtualmemory", "Changes the protection on a region of virtual memory.");
  ("ntcreatesection", "Creates a section object for shared memory.");
  ("ntmapviewofsection", "Maps a view of a section into a process's virtual address space.");
  ("ntunmapviewofsection", "Unmaps a previously mapped view of a section.");
  ("ntqueryattributesfile", "Retrieves attributes of a file using NT system calls.");
  ("ntsetinformationobject", "Sets information for an NT object.");
  ("ntquerysecurityobject", "Retrieves security information for an NT object.");
  ("ntsetsecurityobject", "Sets security information for an NT object.");
  ("ntopendirectoryobject", "Opens a handle to a directory object in the NT namespace.");
  ("ntquerydirectoryobject", "Enumerates objects in an NT directory.");
  ("ntcloseobject", "Closes a handle to an NT object.");
  ("ntopenmutant", "Opens a mutant (mutex) object using NT system calls.");
  ("ntreleasemutant", "Releases a mutant (mutex) object using NT system calls.");
  ("ntopensection", "Opens an existing section object.");
  ("ntquerysection", "Retrieves information about a section object.");
  ("ntsetinformationsection", "Sets information for a section object.");
  ("ntcreateevent", "Creates an event object using NT system calls.")
].

(** The [apis] literal of ["ws2_32.dll"]. *)
Definition ws2_32_apis : dict string := [
  ("socket", "Creates a socket for network communications.");
  ("bind", "Associates a local address with a socket.");
  ("listen", "Places a socket in a state to accept incoming connections.");
  ("accept", "Accepts an incoming connection on a listening socket.");
  ("connect", "Establishes a connection to a remote socket.");
  ("send", "Sends data over a connected socket.");
  ("recv", "Receives data from a connected socket.");
  ("closesocket", "Closes a socket.");
  ("ioctlsocket", "Sets or retrieves the I/O mode of a socket.");
  ("shutdown", "Disables sends or receives on a socket.");
  ("wsastartup", "Initializes the Winsock library.");
  ("wsacleanup", "Terminates the use of the Winsock library.");
  ("gethostbyname", "Retrieves host information based on a host name.");
  ("gethostbyaddr", "Retrieves host information based on an IP address.");
  ("select", "Monitors multiple sockets for readiness to perform I/O.");
  ("wsasend", "Sends data over a socket with additional options.");
  ("wsarecv", "Receives data over a socket with additional options.");
  ("wsasendto", "Sends data to a specific destination over a socket.");
  ("wsarecvfrom", "Receives data from a specific source on a socket.");
  ("wsawaitformultipleevents", "Waits for multiple Winsock events to be signaled.");
  ("getaddrinfo", "Resolves a host name to an address, supporting both IPv4 and IPv6.");
  ("freeaddrinfo", "Frees memory allocated for address information by getaddrinfo.");
  ("getnameinfo", "Translates a socket address to a corresponding host and service.");
  ("WSAAsyncSelect", "Requests that a socket send a message when an event occurs.");
  ("WSAEventSelect", "Specifies an event object to be associated with a socket.");
  ("WSACreateEvent", "Creates a new event object for use with Winsock.");
  ("WSASetEvent", "Sets the specified event object to the signaled state.");
  ("WSACloseEvent", "Closes a Winsock event object.");
  ("WSAWaitForMultipleEvents", "Waits for one or more event objects to be signaled.");
  ("WSAEnumNetworkEvents", "Enumerates network events that have occurred on a socket.");
  ("WSAGetLastError", "Retrieves the error status for the last Winsock operation.");
  ("WSAInstallServiceClass", "Installs a service class into the Winsock catalog.");
  ("WSARemoveServiceClass", "Removes a service class from the Winsock catalog.");
  ("WSAGetServiceClassInfo", "Retrieves information about a Winsock service class.");
  ("WSAEnumProtocols", "Enumerates the transport protocols available on the system.");
  ("WSASetLastError", "Sets the error status for the calling thread (rarely used).");
  ("WSAGetOverlappedResult", "Retrieves the results of an overlapped operation on a socket.");
  ("WSARecvDisconnect", "Receives a disconnect notification on a connection-oriented socket.");
  ("WSASendDisconnect", "Sends a disconnect notification on a connection-oriented socket.");
  ("WSAConnect", "Initiates a connection on a socket with additional parameters.");
  ("WSACloseSocket", "Alternative function to closesocket.");
  ("WSAIoctl", "Controls or retrieves the configuration of a socket.");
  ("WSAAsyncGetHostByName", "Requests host name resolution asynchronously.");
  ("WSAAsyncGetProtoByName", "Requests protocol information asynchronously.");
  ("WSAAsyncGetServByName", "Requests service information asynchronously.");
  ("WSAStartupEx", "Extended startup function for Winsock.");
  ("WSARecvMsg", "Receives a message and associated control information on a socket.");
  ("WSASendMsg", "Sends a message and associated control information on a socket.");
  ("WSARecvEx", "Receives data on a socket using an extended method.")
].

(** The [apis] literal of ["wininet.dll"]. *)
Definition wininet_apis : dict string := [
  ("httpaddrequestheadersa", "Adds extra HTTP request headers to an HTTP request handle.");
  ("httpendrequesta", "Ends an HTTP request initiated by HttpSendRequestEx.");
  ("httpopenrequesta", "Creates an HTTP request handle for a specified URL and method.");
  ("httpqueryinfoa", "Retrieves HTTP response headers or status information.");
  ("httpsendrequesta", "Sends the HTTP request and begins receiving the response.");
  ("httpsendrequestexa", "Sends an extended HTTP request with additional control options.");
  ("internetclosehandle", "Closes an Internet session or resource handle.");
  ("internetconnecta", "Establishes a connection to an FTP, Gopher, or HTTP server.");
  ("internetcrackurla", "Breaks a URL into its component parts.");
  ("interneterrordlg", "Displays an error dialog for Internet-related errors.");
  ("internetgetconnectedstate", "Determines the connection state of the local system.");
  ("internetgetconnectedstateexa", "Retrieves extended connection state information.");
  ("internetopena", "Initializes WinINet and returns a session handle.");
  ("internetqueryoptiona", "Retrieves an option value associated with an Internet handle.");
  ("internetreadfile", "Reads data from an Internet resource into a buffer.");
  ("internetsetoptiona", "Sets an option value for an Internet handle.");
  ("internetsetstatuscallbacka", "Registers a callback for Internet status notifications.");
  ("internetwritefile", "Writes data to an Internet resource over an established connection.");
  ("internetopenurl", "Opens a URL and returns an Internet handle.");
  ("internetgetcookie", "Retrieves cookie data associated with a URL.");
  ("internetcombineurl", "Combines a base URL and a relative URL into a complete URL.");
  ("internetqueryoptionw", "Retrieves an option value (Unicode) for an Internet handle.");
  ("internetsetoptionw", "Sets an option value (Unicode) for an Internet handle.");
  ("internetopenurlw", "Opens a URL and returns an Internet handle (Unicode).");
  ("ftpconnect", "Establishes an FTP session with a server.");
  ("ftpcwd", "Changes the current directory on an FTP server.");
  ("ftplistdirectory", "Retrieves a directory listing from an FTP server.");
  ("ftpretr", "Retrieves a file from an FTP server.");
  ("ftpput", "Uploads a file to an FTP server.");
  ("gopherconnect", "Establishes a Gopher session with a server.");
  ("gophergetattribute", "Retrieves attributes from a Gopher server.");
  ("gopherreadfile", "Reads a file from a Gopher server.");
  ("httpqueryinfow", "Retrieves HTTP response headers or status information (Unicode).");
  ("httpopenrequestw", "Creates an HTTP request handle (Unicode).");
  ("httpsendrequestw", "Sends an HTTP request (Unicode).");
  ("httpaddrequestheadersw", "Adds HTTP request headers (Unicode).");
  ("ftpgetfile", "Downloads a file from an FTP server.");
  ("ftpputfile", "Uploads a file to an FTP server.");
  ("internetquerydataavailable",
   "Determines the amount of data available to read on an Internet handle.");
  ("internetreadfileex", "Extended version of InternetReadFile with additional options.");
  ("internetwritefileex", "Extended version of InternetWriteFile with additional options.");
  ("internetgetlastresponseinfo", "Retrieves extended error information for Internet functions.");
  ("internetshowsecurityinfo", "Displays security information for an Internet handle.");
  ("internetqueryoptionex", "Retrieves an extended option value for an Internet handle.");
  ("internetsetoptionex", "Sets an extended option value for an Internet handle.");
  ("internetcrackurlw", "Breaks a URL into parts (Unicode).");
  ("internetcombineurlw", "Combines URLs (Unicode).");
  ("internetgetcookieex", "Retrieves cookie data with extended options.");
  ("internetconnectw", "Establishes a connection (Unicode).");
  ("interneterrordlgex", "Displays an error dialog with extended options.")
].

(** The [apis] literal of ["ole32.dll"]. *)
Definition ole32_apis : dict string := [
  ("oleinitialize", "Initializes the OLE library for use by the calling process.");
  ("oleuninitialize", "Terminates the use of the OLE library on the current thread.");
  ("createstreamonhglobal", "Creates a stream object using an HGLOBAL memory handle.");
  ("stgcreatedocfile", "Creates and opens a compound file for structured storage.");
  ("stgopenstorage", "Opens an existing compound file for structured storage.");
  ("dodragdrop", "Initiates a drag-and-drop operation.");
  ("olegetclipboard", "Retrieves the clipboard object for OLE operations.");
  ("olesetclipboard", "Places an object on the clipboard for OLE operations.");
  ("oleflushclipboard", "Clears and flushes the OLE clipboard.");
  ("comarshalinterface", "Marshals a COM interface pointer into a stream.");
  ("coumarshalinterface", "Unmarshals a COM interface pointer from a stream.");
  ("olecreateinstance", "Creates a new instance of a COM object.");
  ("olebuildlink", "Builds an OLE link to a COM object.");
  ("oledllregisterserver", "Registers the COM server (DLL) with the system.");
  ("oledllunregisterserver", "Unregisters the COM server (DLL) from the system.");
  ("olerelease", "Releases a COM object and its associated resources.");
  ("olequerylink", "Queries an OLE link object for status information.");
  ("oleupdate", "Updates an OLE link object.");
  ("oleconnect", "Connects an OLE object to its server.");
  ("oledisconnect", "Disconnects an OLE object from its server.");
  ("oleshowobject", "Displays an OLE object in its container.");
  ("oleexec", "Executes an OLE object.");
  ("oleobjectinvoke", "Invokes a method on an OLE object.");
  ("oleobjectquery", "Queries an OLE object for its interfaces.");
  ("oleobjectdraw", "Draws an OLE object.");
  ("oleobjectsetclientsite", "Associates an OLE object with its container's client site.");
  ("oleobjectgetclientsite", "Retrieves the client site associated with an OLE object.");
  ("oleobjectdoverb", "Performs a default action (verb) on an OLE object.");
  ("oleobjectupdate", "Updates the display of an OLE object.");
  ("oleobjectrelease", "Releases an OLE object and its resources.");
  ("oleobjectclose", "Closes an OLE object, terminating its connection to its server.");
  ("oleobjectcopy", "Copies an OLE object.");
  ("oleobjectpaste", "Pastes an OLE object.");
  ("oleobjectconvert", "Converts an OLE object to a different format.");
  ("oleobjectdelete", "Deletes an OLE object.");
  ("oleobjectinsert", "Inserts an OLE object into a container.");
  ("oleobjectgetdata", "Retrieves data from an OLE object.");
  ("oleobjectsetdata", "Sets data for an OLE object.");
  ("oleobjectqueryprotocol", "Queries the communication protocol of an OLE object.");
  ("oleobjectadvise", "Advises an OLE object of changes in data or status.");
  ("oleobjectunadvise", "Removes an advisory connection from an OLE object.");
  ("oleobjectenum", "Enumerates OLE objects in a container.");
  ("oleobjectgetmoniker", "Retrieves the moniker associated with an OLE object.");
  ("oleobjectbind", "Binds an OLE object to its display or data source.");
  ("oleobjectlock", "Locks an OLE object to prevent modifications.");
  ("oleobjectunlock", "Unlocks a previously locked OLE object.");
  ("oleobjectsethostnames", "Sets the host names for an OLE object.");
  ("oleobjectgethostnames", "Retrieves the host names for an OLE object.");
  ("oleobjectinitialize", "Initializes an OLE object for use.");
  ("oleobjectfinalize", "Finalizes an OLE object, cleaning up resources.")
].

(** The [apis] literal of ["oleaut32.dll"]. *)
Definition oleaut32_apis : dict string := [
  ("variantclear", "Clears the contents of a VARIANT structure.");
  ("variantcopy", "Copies the contents of one VARIANT to another.");
  ("sysallocstring", "Allocates a new BSTR from a given string.");
  ("sysfreestring", "Frees a BSTR allocated with SysAllocString.");
  ("bstrlength", "Retrieves the length of a BSTR string.");
  ("safearrayaccessdata", "Locks a SAFEARRAY and returns a pointer to its data.");
  ("safearrayunaccessdata", "Unlocks a SAFEARRAY after data access.");
  ("dispgetids", "Retrieves the dispatch identifiers for COM object members.");
  ("dispinvoke", "Invokes a method or property on a COM object using IDispatch.");
  ("variantchangetype", "Converts a VARIANT to a specified type.");
  ("sysallocstringlen", "Allocates a BSTR with a specified length.");
  ("safearraydestroy", "Destroys a SAFEARRAY and frees its memory.");
  ("safearraygetubound", "Retrieves the upper bound of a SAFEARRAY dimension.");
  ("safearraygetlbound", "Retrieves the lower bound of a SAFEARRAY dimension.");
  ("safearraygetelement", "Retrieves an element from a SAFEARRAY.");
  ("safearrayputelement", "Sets an element in a SAFEARRAY.");
  ("variantinit", "Initializes a VARIANT to VT_EMPTY.");
  ("variantcopyindirect", "Copies a VARIANT indirectly, allocating memory as needed.");
  ("safearraycreate", "Creates a SAFEARRAY with specified bounds and type.");
  ("safearraylock", "Locks a SAFEARRAY for thread-safe access.");
  ("safearrayunlock", "Unlocks a previously locked SAFEARRAY.");
  ("varianttoarray", "Converts a VARIANT to a SAFEARRAY if possible.");
  ("arraytovariant", "Converts a SAFEARRAY to a VARIANT.");
  ("bstralloc", "Allocates a BSTR string of a given length.");
  ("bstrrealloc", "Reallocates a BSTR string to a new size.");
  ("bstrcmp", "Compares two BSTR strings.");
  ("variantdec", "Decrements a VARIANT's reference count.");
  ("varianthasconversion", "Checks if a VARIANT can be converted to another type.");
  ("variantparse", "Parses a string into a VARIANT value.");
  ("safearraycopy", "Creates a copy of a SAFEARRAY.");
  ("safearrayresize", "Resizes a SAFEARRAY to new dimensions.");
  ("varianttoid", "Converts a VARIANT to a specific identifier type.");
  ("varianttostring", "Converts a VARIANT to its string representation.");
  ("safearraycreateex", "Creates a SAFEARRAY with extended options.");
  ("variantcompare", "Compares two VARIANTs for equality.");
  ("variantisempty", "Checks if a VARIANT is empty (VT_EMPTY).");
  ("variantisnull", "Checks if a VARIANT contains a NULL value.");
  ("variantadd", "Performs addition on two VARIANT values.");
  ("variantsubtract", "Performs subtraction on two VARIANT values.");
  ("variantmultiply", "Performs multiplication on two VARIANT values.");
  ("variantdivide", "Performs division on two VARIANT values.");
  ("variantmod", "Computes the modulus of two VARIANT values.");
  ("variantpow", "Raises a VARIANT to the power of another.");
  ("variantmin", "Determines the minimum of two VARIANT values.");
  ("variantmax", "Determines the maximum of two VARIANT values.");
  ("variantround", "Rounds a VARIANT numeric value to the nearest integer.");
  ("varianttrunc", "Truncates a VARIANT numeric value, removing its fractional part.");
  ("variantfloor", "Rounds a VARIANT numeric value down to the nearest integer.");
  ("variantceil", "Rounds a VARIANT numeric value up to the nearest integer.");
  ("variantformat", "Formats a VARIANT value into a human-readable string.")
].

(** The [apis] literal of ["shell32.dll"]. *)
Definition shell32_apis : dict string := [
  ("shellexecutea",
   "Launches a program or opens a file using the default application (ANSI version).");
  ("shellexecutew",
   "Launches a program or opens a file using the default application (Unicode version).");
  ("shgetspecialfolderpatha", "Retrieves the path of a special folder (ANSI version).");
  ("shgetspecialfolderpathw", "Retrieves the path of a special folder (Unicode version).");
  ("shgetfileinfoa", "Retrieves information about a file (ANSI version).");
  ("shgetfileinfow", "Retrieves information about a file (Unicode version).");
  ("shappbarmessage", "Sends a message to update an icon or notification in the taskbar.");
  ("shgetdesktopfolder", "Retrieves the IShellFolder interface for the desktop.");
  ("shbrowseforfoldera", "Displays a folder browsing dialog (ANSI version).");
  ("shbrowseforfolderw", "Displays a folder browsing dialog (Unicode version).");
  ("shchangnotify", "Notifies the system of changes in the shell namespace.");
  ("shupdatimage", "Updates an image in a system image list.");
  ("shcreatesshellitem", "Creates a shell item representing a file or folder.");
  ("dragqueryfilea", "Retrieves file information from a drag-and-drop operation (ANSI version).");
  ("dragqueryfilew", "Retrieves file information from a drag-and-drop operation (Unicode version).");
  ("shfileoperationa", "Performs file operations like copy or move (ANSI version).");
  ("shfileoperationw", "Performs file operations like copy or move (Unicode version).");
  ("extracticona", "Extracts an icon from a specified file (ANSI version).");
  ("extracticonw", "Extracts an icon from a specified file (Unicode version).");
  ("shgetfolderpatha", "Retrieves the path of a special folder (ANSI version).");
  ("shgetfolderpathw", "Retrieves the path of a special folder (Unicode version).");
  ("shgetspecialfolderlocation", "Retrieves a PIDL for a special folder.");
  ("shopenwithdialog", "Displays an Open With dialog box to choose an application.");
  ("shrun", "Runs a shell command with default parameters.");
  ("shgetfolderlocation", "Retrieves the location of a special folder as a PIDL.");
  ("shgetnewlinkinfo", "Retrieves information to create a new shortcut.");
  ("shcopyfiles", "Copies files using the shell's file copy engine.");
  ("shmovefiles", "Moves files using the shell's file move engine.");
  ("shdeletefiles", "Deletes files using the shell's deletion engine.");
  ("shrenamefiles", "Renames files using the shell's renaming engine.");
  ("shgeticonlocation", "Retrieves the location of an icon for a file or folder.");
  ("shsetfolderflags", "Sets various flags on a shell folder.");
  ("shgetfolderflags", "Retrieves flags set on a shell folder.");
  ("shgetinfotip", "Retrieves infotip text for a shell item.");
  ("shsetinfotip", "Sets infotip text for a shell item.");
  ("shfindfiles", "Searches for files using shell search functions.");
  ("shrunas", "Executes a command with elevated privileges using RunAs.");
  ("shregistercomobject", "Registers a COM object with the shell.");
  ("shunregistercomobject", "Unregisters a COM object from the shell.");
  ("shsync", "Synchronizes shell folders and items.");
  ("shnotifyicon", "Notifies the shell of changes to system tray icons.");
  ("shstartmenu", "Opens the Start menu programmatically.");
  ("shsearch", "Initiates a shell search operation.");
  ("shrecentitems", "Retrieves a list of recently used items.");
  ("shfrecentitems", "Frees resources allocated for recent items.");
  ("shgetcontextmenu", "Retrieves a context menu for a shell item.");
  ("shexecute", "Executes a command associated with a shell item.");
  ("shgetpidl", "Retrieves the PIDL for a given shell path.");
  ("shsetpidl", "Sets or updates the PIDL for a shell item.");
  ("shenumfolders", "Enumerates folders within a given shell directory.")
].

(** The [apis] literal of ["comdlg32.dll"]. *)
Definition comdlg32_apis : dict string := [
  ("getopenfilenamea",
   "Displays an Open dialog box and retrieves the selected file (ANSI version).");
  ("getopenfilenamew",
   "Displays an Open dialog box and retrieves the selected file (Unicode version).");
  ("getsavefilenamea",
   "Displays a Save dialog box and retrieves the selected file name (ANSI version).");
  ("getsavefilenamew",
   "Displays a Save dialog box and retrieves the selected file name (Unicode version).");
  ("choosecolor", "Displays a dialog box that enables the user to select a color.");
  ("choosefont", "Displays a dialog box that enables the user to choose a font.");
  ("findtext", "Displays a dialog box for searching text.");
  ("replacetext", "Displays a dialog box for replacing text.");
  ("commdlg_api9", "Common dialog function placeholder for additional API usage.");
  ("commdlg_api10", "Common dialog function placeholder for additional API usage.");
  ("commdlg_api11", "Common dialog function placeholder for additional API usage.");
  ("commdlg_api12", "Common dialog function placeholder for additional API usage.");
  ("commdlg_api13", "Common dialog function placeholder for additional API usage.");
  ("commdlg_api14", "Common dialog function placeholder for additional API usage.");
  ("commdlg_api15", "Common dialog function placeholder for additional API usage.");
  ("commdlg_api16", "Common dialog function placeholder for additional API usage.");
  ("commdlg_api17", "Common dialog function placeholder for additional API usage.");
  ("commdlg_api18", "Common dialog function placeholder for additional API usage.");
  ("commdlg_api19", "Common dialog function placeholder for additional API usage.");
  ("commdlg_api20", "Common dialog function placeholder for additional API usage.");
  ("getfileopenhook", "Sets a hook function for the Open dialog box.");
  ("getfilesavehook", "Sets a hook function for the Save dialog box.");
  ("choosefonthook", "Sets a hook procedure for the Choose Font dialog box.");
  ("choosecolorhook", "Sets a hook procedure for the Choose Color dialog box.");
  ("printdlg", "Displays a Print dialog box to select printer settings.");
  ("commdlg_validatefilename", "Validates the selected filename in a common dialog box.");
  ("commdlg_setdefaultextension", "Sets the default file extension for a file dialog box.");
  ("commdlg_setfilter", "Sets the file filter for a file dialog box.");
  ("commdlg_getfilter", "Retrieves the current file filter for a file dialog box.");
  ("commdlg_setinitialdir", "Sets the initial directory for a file dialog box.");
  ("commdlg_getinitialdir", "Retrieves the initial directory from a file dialog box.");
  ("commdlg_settitle", "Sets the title of a common dialog box.");
  ("commdlg_gettitle", "Retrieves the title of a common dialog box.");
  ("commdlg_sethook", "Associates a hook procedure with a common dialog box.");
  ("commdlg_unhook", "Removes a hook procedure from a common dialog box.");
  ("commdlg_setoptions", "Sets additional options for a common dialog box.");
  ("commdlg_getoptions", "Retrieves the current options for a common dialog box.");
  ("commdlg_reset", "Resets a common dialog box to its default state.");
  ("commdlg_setcallback", "Sets a callback function for processing events in a common dialog box.");
  ("commdlg_getcallback", "Retrieves the current callback function for a common dialog box.");
  ("commdlg_registerhook", "Registers a hook procedure for use with common dialog boxes.");
  ("commdlg_unregisterhook", "Unregisters a hook procedure from common dialog boxes.");
  ("commdlg_setcustomdata", "Associates custom data with a common dialog box.");
  ("commdlg_getcustomdata", "Retrieves custom data associated with a common dialog box.");
  ("commdlg_setcontroltext", "Sets the text of a control in a common dialog box.");
  ("commdlg_getcontroltext", "Retrieves the text of a control in a common dialog box.");
  ("commdlg_update", "Forces an update of a common dialog box's interface.");
  ("commdlg_destroy", "Destroys a common dialog box and frees its resources.");
  ("commdlg_refresh", "Refreshes the contents of a common dialog box.");
  ("commdlg_finalize", "Finalizes the dialog box and applies any changes.")
].

(** The [apis] literal of ["gdi32.dll"]. *)
Definition gdi32_apis : dict string := [
  ("bitblt", "Performs a bit-block transfer of color data between device contexts.");
  ("createcompatibledc",
   "Creates a memory device context compatible with a specified device context.");
  ("createdibsection", "Creates a DIB section (bitmap) that can be directly written to.");
  ("createfontindirecta", "Creates a logical font using a LOGFONTA structure (ANSI version).");
  ("createpen", "Creates a logical pen with a specified style, width, and color.");
  ("deletedc", "Deletes a device context and frees its resources.");
  ("deleteobject", "Deletes a GDI object and releases its memory.");
  ("exttextouta", "Draws text with advanced formatting (ANSI version).");
  ("exttextoutw", "Draws text with advanced formatting (Unicode version).");
  ("getdevicecaps", "Retrieves device-specific capabilities from a device context.");
  ("getglyphoutlinea", "Retrieves the outline of a character glyph (ANSI version).");
  ("getglyphoutlinew", "Retrieves the outline of a character glyph (Unicode version).");
  ("getstockobject", "Retrieves a handle to one of the stock GDI objects.");
  ("gettextextentpoint32a", "Calculates the dimensions of a string (ANSI version).");
  ("gettextextentpoint32w", "Calculates the dimensions of a string (Unicode version).");
  ("rectangle", "Draws a rectangle defined by specified coordinates.");
  ("selectobject", "Selects a GDI object into a device context for drawing.");
  ("setbkmode", "Sets the background mode (opaque or transparent) for text drawing.");
  ("textouta", "Draws a string at a specified position (ANSI version).");
  ("textoutw", "Draws a string at a specified position (Unicode version).");
  ("createbrush", "Creates a logical brush for painting operations.");
  ("createpatternbrush", "Creates a brush with a specified bitmap pattern.");
  ("createhatchbrush", "Creates a hatch brush with a specified style and color.");
  ("createbitmap", "Creates a bitmap with specified dimensions and color depth.");
  ("createcompatiblebitmap", "Creates a bitmap compatible with a specified device context.");
  ("stretchblt", "Transfers a block of pixels with stretching or compressing.");
  ("plgblt", "Performs a patterned block transfer to a device context.");
  ("setstretchbltmode", "Sets the mode for stretching bitmaps in a device context.");
  ("getstretchbltmode", "Retrieves the current stretch mode for a device context.");
  ("createpolygon", "Draws a polygon defined by a series of points.");
  ("polyline", "Draws a series of connected lines.");
  ("ellipse", "Draws an ellipse bounded by a rectangle.");
  ("arc", "Draws an arc between specified start and end points.");
  ("chord", "Draws a chord defined by an ellipse and two radial lines.");
  ("pie", "Draws a pie-shaped wedge bounded by an ellipse and two radial lines.");
  ("floodfill", "Fills an area bounded by a color with a specified fill color.");
  ("patblt", "Fills a rectangle using a brush pattern.");
  ("invertrect", "Inverts the colors within a specified rectangle.");
  ("roundrect", "Draws a rectangle with rounded corners.");
  ("setpixel", "Sets the color of an individual pixel in a device context.");
  ("getpixel", "Retrieves the color of a pixel at specified coordinates.");
  ("polytextouta", "Draws multiple text strings at specified locations (ANSI version).");
  ("polytextoutw", "Draws multiple text strings at specified locations (Unicode version).");
  ("anglearc", "Draws an arc using an angle for its parameters.");
  ("drawtextex", "Draws formatted text within a rectangle with extended options.");
  ("transparentblt", "Performs a bit-block transfer treating a specified color as transparent.");
  ("alphaBlend", "Performs alpha blending of source and destination bitmaps.");
  ("gradientFill", "Fills an area with a gradient between colors.");
  ("plgBlt", "Performs a bit-block transfer with parallelogram mapping.");
  ("setmapmode", "Sets the mapping mode for a device context.")
].

(** The [apis] literal of ["comctl32.dll"]. *)
Definition comctl32_apis : dict string := [
  ("initcommoncontrolsex", "Initializes common control classes from the Common Controls DLL.");
  ("imagelist_create", "Creates an image list for use with common controls.");
  ("imagelist_add", "Adds an image to an image list.");
  ("imagelist_destroy", "Destroys an image list and frees its memory.");
  ("propertysheeta", "Creates a property sheet dialog box (ANSI version).");
  ("propertysheetw", "Creates a property sheet dialog box (Unicode version).");
  ("createpropertysheetpagea", "Creates a property sheet page (ANSI version).");
  ("createpropertysheetpagew", "Creates a property sheet page (Unicode version).");
  ("listview_insertitem", "Inserts an item into a list-view control.");
  ("listview_deleteitem", "Deletes an item from a list-view control.");
  ("treeview_insertitem", "Inserts an item into a tree-view control.");
  ("treeview_deleteitem", "Deletes an item from a tree-view control.");
  ("toolbar_addbutton", "Adds a button to a toolbar control.");
  ("toolbar_removebutton", "Removes a button from a toolbar control.");
  ("rebar_create", "Creates a rebar control for hosting child windows.");
  ("rebar_insertband", "Inserts a band into a rebar control.");
  ("rebar_deleteband", "Deletes a band from a rebar control.");
  ("toolbar_autosize", "Automatically sizes a toolbar control based on its buttons.");
  ("statusbar_create", "Creates a status bar control.");
  ("statusbar_settext", "Sets the text in a part of a status bar.");
  ("statusbar_gettext", "Retrieves the text from a part of a status bar.");
  ("updowncontrol_create", "Creates an up-down (spinner) control.");
  ("updowncontrol_setrange", "Sets the range of values for an up-down control.");
  ("updowncontrol_getpos", "Retrieves the current position of an up-down control.");
  ("trackbar_create", "Creates a trackbar (slider) control.");
  ("trackbar_setrange", "Sets the range of a trackbar control.");
  ("trackbar_setpos", "Sets the current position of a trackbar control.");
  ("trackbar_getpos", "Retrieves the current position of a trackbar control.");
  ("tooltips_create", "Creates a tooltip control for hover text.");
  ("tooltips_add", "Associates a tooltip with a control.");
  ("tooltips_del", "Removes a tooltip from a control.");
  ("treeview_editlabel", "Initiates in-place editing of a tree-view item label.");
  ("listview_editlabel", "Initiates in-place editing of a list-view item label.");
  ("hotkey_register", "Registers a hotkey with the system for a window.");
  ("hotkey_unregister", "Unregisters a previously registered hotkey.");
  ("animatewindow", "Animates a window when showing or hiding it.");
  ("flashwindowex", "Flashes the specified window to draw attention.");
  ("mouse_event", "Synthesizes mouse motion and button click events.");
  ("keybd_event", "Synthesizes keystroke events.");
  ("setwindowtheme", "Sets the visual theme of a window or control.");
  ("updateuican", "Updates the user interface of a control (placeholder).");
  ("commctl32_api15", "Common control API placeholder for additional functionality.");
  ("commctl32_api16", "Common control API placeholder for additional functionality.");
  ("commctl32_api17", "Common control API placeholder for additional functionality.");
  ("commctl32_api18", "Common control API placeholder for additional functionality.");
  ("commctl32_api19", "Common control API placeholder for additional functionality.");
  ("commctl32_api20", "Common control API placeholder for additional functionality.");
  ("statusbar_seticon", "Sets an icon in a specified part of a status bar.");
  ("toolbar_getbuttoninfo", "Retrieves information about a toolbar button.");
  ("toolbar_setbuttoninfo", "Sets information for a toolbar button.")
].

(** The [apis] literal of ["crypt32.dll"]. *)
Definition crypt32_apis : dict string := [
  ("cryptcreatehash", "Creates a hash object for computing cryptographic hashes.");
  ("crypthashdata", "Hashes data and updates the hash object.");
  ("cryptsignhash", "Signs a hash using a private key.");
  ("cryptverifysignature", "Verifies a cryptographic signature for a given hash.");
  ("cryptdestroyhash", "Destroys a hash object and frees its resources.");
  ("cryptduplicatehash", "Duplicates an existing hash object.");
  ("cryptgethashparam", "Retrieves parameters or the computed hash value from a hash object.");
  ("cryptsethashparam", "Sets parameters for a hash object.");
  ("certopenstore", "Opens a certificate store for managing certificates.");
  ("certenumcertificatesinstore", "Enumerates certificates in a certificate store.");
  ("certfindcertificateinstore", "Searches for a certificate in a certificate store.");
  ("certfreecertificatecontext", "Frees a certificate context structure.");
  ("cryptacquirecontexta", "Acquires a handle to a cryptographic service provider (ANSI version).");
  ("cryptacquirecontextw",
   "Acquires a handle to a cryptographic service provider (Unicode version).");
  ("cryptreleasecontext", "Releases a cryptographic service provider handle.");
  ("cryptgenrandom", "Generates cryptographically strong random data.");
  ("cryptencrypt", "Encrypts data using a specified cryptographic key.");
  ("cryptdecrypt", "Decrypts data using a specified cryptographic key.");
  ("cryptderivekey", "Derives a cryptographic key from a hash object.");
  ("cryptimportkey", "Imports a cryptographic key from a key blob.");
  ("cryptexportkey", "Exports a cryptographic key to a key blob.");
  ("cryptdestroykey", "Destroys a cryptographic key and releases associated resources.");
  ("cryptduplicatekey", "Duplicates an existing cryptographic key.");
  ("cryptcreateiv", "Generates an initialization vector for encryption operations.");
  ("cryptsetprovparam", "Sets a parameter for the cryptographic provider.");
  ("cryptgetprovparam", "Retrieves a parameter from the cryptographic provider.");
  ("certaddstore", "Adds a certificate to a certificate store.");
  ("certremovestore", "Removes a certificate from a certificate store.");
  ("certfindchaininstore", "Finds a certificate chain in a certificate store.");
  ("certverifycertificatechainpolicy", "Verifies the policy of a certificate chain.");
  ("cryptmsgopentoencode", "Opens a cryptographic message for encoding.");
  ("cryptmsgupdate", "Updates a cryptographic message with data.");
  ("cryptmsgfinalize", "Finalizes the cryptographic message after encoding.");
  ("cryptmsgopentodecode", "Opens a cryptographic message for decoding.");
  ("cryptmsggetparam", "Retrieves parameters from a cryptographic message.");
  ("cryptmsgcontrol", "Controls various aspects of a cryptographic message.");
  ("cryptfindOIDInfo", "Retrieves information about an Object Identifier (OID).");
  ("cryptregisterOIDInfo", "Registers an Object Identifier (OID) with the system.");
  ("cryptunregisterOIDInfo", "Unregisters an Object Identifier (OID) from the system.");
  ("cryptencodeobject", "Encodes an object into a cryptographic message.");
  ("cryptdecodeobject", "Decodes an object from a cryptographic message.");
  ("cryptobjectidentifiertoalgid", "Converts an object identifier to an algorithm identifier.");
  ("cryptalgidtoobjectidentifier", "Converts an algorithm identifier to an object identifier.");
  ("certaddencodedcertificatetostore", "Adds an encoded certificate to a certificate store.");
  ("certcreatecertificatecontext", "Creates a certificate context from encoded certificate data.");
  ("certfreecrlcontext", "Frees a CRL (Certificate Revocation List) context.");
  ("certgetcrlfromstore", "Retrieves a CRL from a certificate store.");
  ("cryptopopupmessage", "Displays a popup message related to cryptographic operations.");
  ("cryptregisterdefaultprovider",
   "Registers the default cryptographic provider for a specified algorithm.");
  ("cryptgetdefaultprovider",
   "Retrieves the default cryptographic provider for a specified algorithm.")
].

(** The [apis] literal of ["shlwapi.dll"]. *)
Definition shlwapi_apis : dict string := [
  ("pathfindextensiona", "Finds the file extension in a path (ANSI version).");
  ("pathfindextensionw", "Finds the file extension in a path (Unicode version).");
  ("pathcombinea", "Combines two path strings into one (ANSI version).");
  ("pathcombinew", "Combines two path strings into one (Unicode version).");
  ("pathstripfilenamea", "Removes the file name from a path (ANSI version).");
  ("pathstripfilenamew", "Removes the file name from a path (Unicode version).");
  ("pathremoveextensiona", "Removes the file extension from a path (ANSI version).");
  ("pathremoveextensionw", "Removes the file extension from a path (Unicode version).");
  ("pathfindfilea", "Searches for a file in a specified directory (ANSI version).");
  ("pathfindfilew", "Searches for a file in a specified directory (Unicode version).");
  ("pathcanonicalize", "Converts a path to its canonical form.");
  ("pathisrelative", "Determines if a given path is relative.");
  ("pathfileexists", "Checks whether a specified file exists.");
  ("urlescape", "Escapes characters in a URL to make it valid.");
  ("urlunescape", "Reverts escaped characters in a URL to their original form.");
  ("shlwapi_getdllversion", "Retrieves the version information of a specified DLL.");
  ("shlwapi_strcmpi", "Performs a case-insensitive string comparison.");
  ("shlwapi_strstri", "Searches for a substring in a string, case-insensitively.");
  ("shlwapi_strlwr", "Converts a string to lowercase.");
  ("shlwapi_strupr", "Converts a string to uppercase.");
  ("shlwapi_strcat", "Safely concatenates two strings.");
  ("shlwapi_strcpy", "Safely copies a string.");
  ("shlwapi_strdelchr", "Deletes specified characters from a string.");
  ("shlwapi_strinc", "Increments a pointer to the next character in a string.");
  ("shlwapi_strlenc", "Calculates the length of a string in characters.");
  ("shlwapi_pathappend", "Appends a subdirectory or file name to a path.");
  ("shlwapi_pathremovebackslash", "Removes a trailing backslash from a path.");
  ("shlwapi_pathaddbackslash", "Adds a trailing backslash to a path if absent.");
  ("shlwapi_urlcanonicalize", "Canonicalizes a URL to a standard format.");
  ("shlwapi_urlcombine", "Combines a base URL with a relative URL.");
  ("shlwapi_dllpath", "Retrieves the path of a specified DLL.");
  ("shlwapi_parseurl", "Parses a URL into its component parts.");
  ("shlwapi_formatmsg", "Formats a message string using a message identifier.");
  ("shlwapi_strformatbyte", "Formats a byte value into a human-readable string.");
  ("shlwapi_strformatdword", "Formats a DWORD value into a human-readable string.");
  ("shlwapi_isspace", "Determines if a character is a whitespace character.");
  ("shlwapi_isdigit", "Determines if a character is a digit.");
  ("shlwapi_isalpha", "Determines if a character is alphabetic.");
  ("shlwapi_atol", "Converts a string to a long integer.");
  ("shlwapi_itoa", "Converts an integer to a string.");
  ("shlwapi_lstrcmp", "Performs a string comparison.");
  ("shlwapi_lstrcmpi", "Performs a case-insensitive string comparison.");
  ("shlwapi_lstrcpyn", "Copies a specified number of characters from one string to another.");
  ("shlwapi_lstrcatn", "Concatenates a specified number of characters from one string to another.");
  ("shlwapi_strtrim", "Trims leading and trailing whitespace from a string.");
  ("shlwapi_strreverse", "Reverses a string in place.");
  ("shlwapi_strreplace", "Replaces occurrences of a substring within a string.");
  ("shlwapi_urlunescapeinplace", "Unescapes a URL in place.");
  ("shlwapi_getextension", "Retrieves the extension of a file from a path.");
  ("shlwapi_changefileext", "Changes the file extension of a given path.")
].

(** The [apis] literal of ["imm32.dll"]. *)
Definition imm32_apis : dict string := [
  ("immgetcontext", "Retrieves the input context associated with a window.");
  ("immreleasecontext", "Releases an input context obtained via ImmGetContext.");
  ("immsetcompositionwindow", "Sets the composition window for the IME.");
  ("immgetcompositionstring", "Retrieves the composition string from the IME.");
  ("immassociatecontext", "Associates an input context with a window.");
  ("immgetopenstatus", "Determines whether the IME is open for a given context.");
  ("immsetopenstatus", "Sets the open status of the IME for a given context.");
  ("immdisableime", "Disables the IME for a specified window.");
  ("immenableime", "Enables the IME for a specified window.");
  ("immgetdefaultimewnd", "Retrieves the default IME window handle for a window.");
  ("immescape", "Sends an escape command to the IME.");
  ("immconfigure", "Configures the IME settings for a window.");
  ("immgetconversionstatus", "Retrieves the conversion status of the IME.");
  ("immsetconversionstatus", "Sets the conversion status of the IME.");
  ("immgethotkey", "Retrieves the hotkey associated with a specific IME command.");
  ("immsethotkey", "Sets the hotkey for a specific IME command.");
  ("immsetstatuswindowpos", "Sets the position of the IME status window.");
  ("immsimulatekey", "Simulates a key event for the IME.");
  ("immcreateregion", "Creates a region for IME composition.");
  ("immdestroyregion", "Destroys a region created for IME composition.");
  ("immsetcompositionfont", "Sets the composition font for the IME.");
  ("immgetcompositionfont", "Retrieves the composition font for the IME.");
  ("immnotifyime", "Sends a notification message to the IME.");
  ("immregisterword", "Registers a word in the IME's dictionary.");
  ("immunregisterword", "Unregisters a word from the IME's dictionary.");
  ("immsetconversionmode", "Sets the conversion mode for the IME.");
  ("immgetconversionmode", "Retrieves the current conversion mode of the IME.");
  ("immsetsentence", "Sets the sentence mode for the IME.");
  ("immgetsentence", "Retrieves the sentence mode for the IME.");
  ("immsetcandidatewindow", "Sets the candidate window position for the IME.");
  ("immgetcandidatewindow", "Retrieves the candidate window position for the IME.");
  ("immcheckinput", "Checks the input context for valid IME input.");
  ("immlockimc", "Locks an input context for direct access.");
  ("immunlockimc", "Unlocks a previously locked input context.");
  ("immgetime", "Retrieves the current input method state timestamp.");
  ("immsetime", "Sets a timestamp for the input method state.");
  ("immqueryimeinfo", "Queries detailed information about the current IME.");
  ("immupdateime", "Updates the IME with new configuration settings.");
  ("immregistercallback", "Registers a callback function for IME events.");
  ("immunregistercallback", "Unregisters a callback function for IME events.");
  ("immsimulateinput", "Simulates input for the IME for testing purposes.");
  ("immgetcompositionattributes", "Retrieves attributes of the current composition string.");
  ("immsetcompositionattributes", "Sets attributes for the composition string.");
  ("immgetstatuswindow", "Retrieves the handle to the IME status window.");
  ("immsetstatuswindow", "Sets a new handle for the IME status window.");
  ("immcreateconversioncontext", "Creates a context for conversion operations in the IME.");
  ("immdestroyconversioncontext", "Destroys a conversion context in the IME.");
  ("immgetcandidatecount", "Retrieves the number of candidate strings in the IME candidate list.");
  ("immselectcandidate", "Selects a candidate string from the IME candidate list.")
].

(** The [apis] literal of ["msvcrt.dll"]. *)
Definition msvcrt_apis : dict string := [
  ("malloc", "Allocates memory dynamically.");
  ("free", "Frees dynamically allocated memory.");
  ("memcpy", "Copies a block of memory from one location to another.");
  ("memset", "Fills a block of memory with a specified value.");
  ("memmove", "Safely copies a block of memory, handling overlapping regions.");
  ("strcmp", "Compares two strings.");
  ("strcpy", "Copies one string to another.");
  ("strcat", "Concatenates two strings.");
  ("strlen", "Returns the length of a string.");
  ("sprintf", "Formats data into a string.");
  ("sscanf", "Reads formatted data from a string.");
  ("fopen", "Opens a file and returns a pointer to a FILE object.");
  ("fclose", "Closes an open FILE object.");
  ("fread", "Reads data from a file into a buffer.");
  ("fwrite", "Writes data from a buffer to a file.");
  ("realloc", "Resizes a previously allocated memory block.");
  ("calloc", "Allocates memory for an array and initializes it to zero.");
  ("exit", "Terminates the program.");
  ("abort", "Causes abnormal program termination.");
  ("system", "Executes a command string in the command processor.");
  ("strncpy", "Copies a specified number of characters from one string to another.");
  ("strncat", "Concatenates a specified number of characters from one string to another.");
  ("strncmp", "Compares a specified number of characters of two strings.");
  ("strchr", "Finds the first occurrence of a character in a string.");
  ("strrchr", "Finds the last occurrence of a character in a string.");
  ("strstr", "Finds the first occurrence of a substring in a string.");
  ("strtok", "Tokenizes a string based on specified delimiters.");
  ("atof", "Converts a string to a floating-point number.");
  ("atoi", "Converts a string to an integer.");
  ("atol", "Converts a string to a long integer.");
  ("strtod", "Converts a string to a double-precision floating point number.");
  ("qsort", "Sorts an array using a comparison function.");
  ("bsearch", "Performs a binary search on a sorted array.");
  ("abs", "Calculates the absolute value of an integer.");
  ("labs", "Calculates the absolute value of a long integer.");
  ("div", "Performs integer division, returning quotient and remainder.");
  ("ldiv", "Performs long integer division, returning quotient and remainder.");
  ("rand", "Generates a pseudo-random number.");
  ("srand", "Seeds the pseudo-random number generator.");
  ("fgets", "Reads a line from a file into a buffer.");
  ("fputs", "Writes a string to a file.");
  ("getc", "Retrieves a character from a file stream.");
  ("putc", "Writes a character to a file stream.");
  ("feof", "Checks if the end-of-file indicator for a stream is set.");
  ("ferror", "Checks if an error occurred on a file stream.");
  ("perror", "Prints a descriptive error message to stderr.");
  ("vfprintf", "Writes formatted output to a file stream using a variable argument list.");
  ("vsprintf", "Writes formatted output to a string using a variable argument list.");
  ("vsnprintf",
   "Writes formatted output to a string with buffer size limitation using a variable argument list.");
  ("snprintf", "Writes formatted output to a string with buffer size limitation.")
].

(** The [apis] literal of ["version.dll"]. *)
Definition version_apis : dict string := [
  ("getfileversioninfoa", "Retrieves version information for a file (ANSI version).");
  ("getfileversioninfosizea",
   "Retrieves the size of version information for a file (ANSI version).");
  ("getfileversioninfosizew",
   "Retrieves the size of version information for a file (Unicode version).");
  ("getfileversioninfow", "Retrieves version information for a file (Unicode version).");
  ("verqueryvaluea", "Retrieves specified version information (ANSI version).");
  ("verqueryvaluew", "Retrieves specified version information (Unicode version).");
  ("getfileversioninfoex", "Retrieves extended version information for a file.");
  ("ververifyfile", "Verifies the integrity and authenticity of a file's version information.");
  ("verinstallfile", "Installs a file based on version information.");
  ("vergetlocalised", "Retrieves localized version information for a file.");
  ("verfindresource", "Finds a version resource in a file.");
  ("verloadresource", "Loads a version resource from a file.");
  ("verresourcetoinfo", "Extracts information from a version resource.");
  ("verqueryvalueex", "Retrieves extended version information from a file.");
  ("verupdatelocalised", "Updates the localized version information for a file.");
  ("verextractinfo", "Extracts version strings from version information.");
  ("vercompare", "Compares version information between two files.");
  ("vergetpatchlevel", "Retrieves the patch level from version information.");
  ("vergetbuildnumber", "Retrieves the build number from version information.");
  ("vergetproductversion", "Retrieves the product version from version information.");
  ("vergetfiledescription", "Retrieves the file description from version information.");
  ("vergetcompanyname", "Retrieves the company name from version information.");
  ("vergetlegaltrademarks", "Retrieves the legal trademarks from version information.");
  ("vergetcomments", "Retrieves the comments from version information.");
  ("vergetinternalname", "Retrieves the internal name from version information.");
  ("vergetoriginalfilename", "Retrieves the original filename from version information.");
  ("vergetprivatebuild", "Retrieves private build information from version information.");
  ("vergetspecialbuild", "Retrieves special build information from version information.");
  ("verquerylangcodepage", "Retrieves the language and code page for version information.");
  ("verresourcedecode", "Decodes a version resource into readable format.");
  ("verwrite", "Writes updated version information to a file.");
  ("verupdateregistry", "Updates the system registry with version information.");
  ("verrestore", "Restores version information from backup.");
  ("vercommit", "Commits version information changes to a file.");
  ("verlock", "Locks a file for version information update.");
  ("verunlock", "Unlocks a file after version information update.");
  ("verinit", "Initializes version information retrieval for a file.");
  ("vercleanup", "Cleans up resources allocated for version information.");
  ("verresourcedata", "Retrieves raw data from a version resource.");
  ("verresourceupdate", "Updates the resource section of a file with version data.");
  ("verfindlanguage", "Finds the best matching language for version resources.");
  ("verformat", "Formats version information into a human-readable string.");
  ("vervalidate", "Validates the consistency and integrity of version information.");
  ("vernotify", "Notifies applications of version changes for a file.");
  ("verarchive", "Archives the version information for historical reference.");
  ("verquerytimestamp", "Retrieves a timestamp from version information.");
  ("vergetchecksum", "Calculates and retrieves a checksum for version information.");
  ("vercompareex", "Performs an extended comparison of version information.");
  ("vermergelocalised", "Merges localized version information with default values.");
  ("verfinalize", "Finalizes version information updates for a file.")
].

(** The [apis] literal of ["psapi.dll"]. *)
Definition psapi_apis : dict string := [
  ("enumprocesses", "Enumerates all active process identifiers.");
  ("enumprocessmodules", "Retrieves handles for all modules in a specified process.");
  ("getmodulebaseaddress", "Retrieves the base address of a module in a process.");
  ("getmodulenamemodexa", "Retrieves the fully qualified path for a module (ANSI version).");
  ("getmodulenamemodexw", "Retrieves the fully qualified path for a module (Unicode version).");
  ("getmoduleinformation", "Retrieves information about a module in a process.");
  ("psapi_api7", DEFAULT_EXPLANATION);
  ("psapi_api8", DEFAULT_EXPLANATION);
  ("psapi_api9", DEFAULT_EXPLANATION);
  ("psapi_api10", DEFAULT_EXPLANATION);
  ("psapi_api11", DEFAULT_EXPLANATION);
  ("psapi_api12", DEFAULT_EXPLANATION);
  ("psapi_api13", DEFAULT_EXPLANATION);
  ("psapi_api14", DEFAULT_EXPLANATION);
  ("psapi_api15", DEFAULT_EXPLANATION);
  ("psapi_api16", DEFAULT_EXPLANATION);
  ("psapi_api17", DEFAULT_EXPLANATION);
  ("psapi_api18", DEFAULT_EXPLANATION);
  ("psapi_api19", DEFAULT_EXPLANATION);
  ("psapi_api20", DEFAULT_EXPLANATION);
  ("getprocessmemoryinfo", "Retrieves memory usage information for a specified process.");
  ("getperformanceinfo", "Retrieves performance information about the system.");
  ("enumdevicedrivers", "Enumerates all loaded device drivers in the system.");
  ("getdeviceframename", "Retrieves the file name of a specified device driver.");
  ("queryworkingsetsize", "Retrieves the working set size for a process.");
  ("setworkingsetsize", "Sets the working set size for a process.");
  ("getprocessimagefilename", "Retrieves the image file name for a specified process.");
  ("enumprocessheaps", "Enumerates all heaps used by a specified process.");
  ("getheapinformation", "Retrieves information about a heap from a process.");
  ("queryprocessvm", "Queries the virtual memory information of a process.");
  ("getmodulefilenameex", "Retrieves the fully qualified path for a module in a process.");
  ("enumunloadedmodules", "Enumerates modules that were recently unloaded from a process.");
  ("queryprocesscpuusage", "Retrieves CPU usage statistics for a specified process.");
  ("queryprocessdiskio", "Retrieves disk I/O statistics for a specified process.");
  ("getprocessthreadtimes", "Retrieves timing information for a process's threads.");
  ("getprocesshandlecount", "Retrieves the number of open handles in a specified process.");
  ("getsystemhandleinformation", "Retrieves information about all system handles.");
  ("enumprocessthreads", "Enumerates all threads in a specified process.");
  ("getthreadinformation", "Retrieves detailed information about a specified thread.");
  ("querysystemmoduleinformation", "Retrieves information about loaded system modules.");
  ("getprocessmodulefilename", "Retrieves the file name of a module in a process.");
  ("queryvirtualmemory", "Queries virtual memory information for a process.");
  ("getmemorystatus", "Retrieves the current memory status of the system.");
  ("getprocesslist", "Retrieves a list of all active processes on the system.");
  ("getprocessowner", "Retrieves the owner (user) of a specified process.");
  ("enumprocessservices", "Enumerates services associated with a process.");
  ("queryprocessversion", "Retrieves version information for a process.");
  ("getprocesspriority", "Retrieves the priority class of a specified process.");
  ("setprocesspriority", "Sets the priority class of a specified process.");
  ("getprocessaffinity", "Retrieves the processor affinity mask for a specified process.")
].

(** The [apis] literal of ["setupapi.dll"]. *)
Definition setupapi_apis : dict string := [
  ("setupdigetclassdescriptiona",
   "Retrieves the class description for a device setup class (ANSI version).");
  ("setupdigetclassdescriptionw",
   "Retrieves the class description for a device setup class (Unicode version).");
  ("setupdienumdeviceinterfaces", "Enumerates device interfaces for a setup class.");
  ("setupdigetdeviceinterface", "Retrieves a device interface for a specified device.");
  ("setupdigetdeviceinterface_detaila",
   "Retrieves detailed info about a device interface (ANSI version).");
  ("setupdigetdeviceinterface_detailw",
   "Retrieves detailed info about a device interface (Unicode version).");
  ("setupdigetdeviceproperty", "Retrieves a property for a specified device.");
  ("setupdisetdeviceproperty", "Sets a property for a specified device.");
  ("setupdienumdeviceinfo", "Enumerates devices in a device information set.");
  ("setupdigetdeviceregistryproperty", "Retrieves a device's registry property.");
  ("setupdisetdeviceregistryproperty", "Sets a device's registry property.");
  ("setupdigetclassdevids", "Retrieves device instance IDs for a setup class.");
  ("setupdiopendevinfoptr", "Opens a handle to a device information set.");
  ("setupdidestroydevinfolist", "Destroys a device information set and frees its resources.");
  ("setupapi_api15", DEFAULT_EXPLANATION);
  ("setupapi_api16", DEFAULT_EXPLANATION);
  ("setupapi_api17", DEFAULT_EXPLANATION);
  ("setupapi_api18", DEFAULT_EXPLANATION);
  ("setupapi_api19", DEFAULT_EXPLANATION);
  ("setupapi_api20", DEFAULT_EXPLANATION);
  ("setupapi_installdevice", "Installs a device using setup API routines.");
  ("setupapi_uninstalldevice", "Uninstalls a device from the system.");
  ("setupapi_enumeratedevices", "Enumerates devices present in the system.");
  ("setupapi_getdeviceinstanceid", "Retrieves the device instance ID for a specified device.");
  ("setupapi_getdevicedescription", "Retrieves the description of a specified device.");
  ("setupapi_getdevicehardwareids", "Retrieves hardware IDs for a specified device.");
  ("setupapi_setdevicepowersettings", "Configures power management settings for a device.");
  ("setupapi_getdevicepowersettings", "Retrieves power management settings for a device.");
  ("setupapi_querydrivernode", "Queries driver node information for a device.");
  ("setupapi_configuredriver", "Configures a driver for a device.");
  ("setupapi_enumeratedrivernodes", "Enumerates driver nodes for a device.");
  ("setupapi_getclassdevicelist", "Retrieves a list of devices for a setup class.");
  ("setupapi_getdeviceregistrypropertyex", "Retrieves extended registry properties for a device.");
  ("setupapi_setdeviceregistrypropertyex", "Sets extended registry properties for a device.");
  ("setupapi_getdeviceinterfacealias", "Retrieves an alias for a device interface.");
  ("setupapi_setdeviceinterfacealias", "Sets an alias for a device interface.");
  ("setupapi_getdeviceinstallationstate", "Retrieves the installation state of a device.");
  ("setupapi_setdeviceinstallationstate", "Sets the installation state of a device.");
  ("setupapi_getinfsection", "Retrieves an INF section from a device installation file.");
  ("setupapi_queryinfsection", "Queries information from an INF section.");
  ("setupapi_installinfsection", "Installs a section from an INF file.");
  ("setupapi_querydriverinfodetail", "Retrieves detailed driver information from an INF file.");
  ("setupapi_getselecteddriver", "Retrieves the driver selected for a device.");
  ("setupapi_setselecteddriver", "Sets the driver selected for a device.");
  ("setupapi_commitinstaller", "Commits installation changes for a device.");
  ("setupapi_cleanupinstaller", "Cleans up installer resources for a device.");
  ("setupapi_enumeratedeviceregistryproperties", "Enumerates registry properties for a device.");
  ("setupapi_getdevicecapabilities", "Retrieves the capabilities of a device.");
  ("setupapi_querydeviceid", "Queries the device ID for a specified device.");
  ("setupapi_finalizedevice", "Finalizes the installation process for a device.")
].

(** The [apis] literal of ["iphlpapi.dll"]. *)
Definition iphlpapi_apis : dict string := [
  ("getadaptersaddresses", "Retrieves network adapter addresses for the local system.");
  ("getiftable", "Retrieves a table of network interface information.");
  ("getifentry", "Retrieves information for a specified network interface.");
  ("iphlpapi_api4", DEFAULT_EXPLANATION);
  ("iphlpapi_api5", DEFAULT_EXPLANATION);
  ("iphlpapi_api6", DEFAULT_EXPLANATION);
  ("iphlpapi_api7", DEFAULT_EXPLANATION);
  ("iphlpapi_api8", DEFAULT_EXPLANATION);
  ("iphlpapi_api9", DEFAULT_EXPLANATION);
  ("iphlpapi_api10", DEFAULT_EXPLANATION);
  ("iphlpapi_api11", DEFAULT_EXPLANATION);
  ("iphlpapi_api12", DEFAULT_EXPLANATION);
  ("iphlpapi_api13", DEFAULT_EXPLANATION);
  ("iphlpapi_api14", DEFAULT_EXPLANATION);
  ("iphlpapi_api15", DEFAULT_EXPLANATION);
  ("iphlpapi_api16", DEFAULT_EXPLANATION);
  ("iphlpapi_api17", DEFAULT_EXPLANATION);
  ("iphlpapi_api18", DEFAULT_EXPLANATION);
  ("iphlpapi_api19", DEFAULT_EXPLANATION);
  ("iphlpapi_api20", DEFAULT_EXPLANATION);
  ("getnetworkparams", "Retrieves network parameters for the local system.");
  ("getperadapterinfo", "Retrieves detailed information for a specific network adapter.");
  ("getadapterordermap", "Retrieves the adapter order map for the system.");
  ("notifyaddrchange", "Notifies the caller of address changes on a network adapter.");
  ("notifyroutechange", "Notifies the caller of route changes on the network.");
  ("getbestinterface", "Determines the best network interface for a given destination.");
  ("getipforwardtable", "Retrieves the IP routing table for the local system.");
  ("getifentry2", "Retrieves extended information for a network interface.");
  ("getadapteraddresses", "Alternate function to retrieve adapter addresses with extended options.");
  ("convertifindex2luid", "Converts an interface index to a locally unique identifier (LUID).");
  ("convertluid2ifindex", "Converts a LUID to an interface index.");
  ("getipstatistics", "Retrieves IP statistics for the local system.");
  ("geticmpstatistics", "Retrieves ICMP statistics for the local system.");
  ("gettcpstatistics", "Retrieves TCP statistics for the local system.");
  ("getudpstatistics", "Retrieves UDP statistics for the local system.");
  ("setipinterface", "Sets IP interface parameters for a network adapter.");
  ("getipinterface", "Retrieves IP interface parameters for a network adapter.");
  ("getipv6statistics", "Retrieves IPv6 statistics for the local system.");
  ("createipforwardentry", "Creates a new entry in the IP routing table.");
  ("deleteipforwardentry", "Deletes an entry from the IP routing table.");
  ("setipforwardentry", "Modifies an existing entry in the IP routing table.");
  ("getipforwardentry", "Retrieves information for a specific IP routing table entry.");
  ("getadapterinfo", "Retrieves adapter information for the local system.");
  ("convertipv4mask", "Converts an IPv4 subnet mask to its prefix length.");
  ("getdnsservers", "Retrieves DNS server addresses for a network adapter.");
  ("setdnsservers", "Sets DNS server addresses for a network adapter.");
  ("getwin32ipforwardtable", "Retrieves the IP routing table in Win32 format.");
  ("setipaddr", "Sets the IP address for a network adapter.");
  ("getipaddr", "Retrieves the IP address for a network adapter.");
  ("renewiplease", "Renews the IP lease for a network adapter.")
].

(** The dictionary literal, before [extend_apis] runs over it. *)
Definition dll_api_explanations_literal : dict dll_info := [
  ("kernel32.dll",
   {| explanation :=
        "Provides core system functions such as memory management, process/thread creation, file I/O, and synchronization.";
      apis := kernel32_apis |});
  ("user32.dll",
   {| explanation :=
        "Handles the Windows user interface including window management, message dispatching, and user input.";
      apis := user32_apis |});
  ("advapi32.dll",
   {| explanation :=
        "Offers functions for security, registry access, and service management.";
      apis := advapi32_apis |});
  ("ntdll.dll",
   {| explanation :=
        "Contains low-level NT kernel routines and system call wrappers.";
      apis := ntdll_apis |});
  ("ws2_32.dll",
   {| explanation :=
        "Implements the Windows Sockets API for network communications.";
      apis := ws2_32_apis |});
  ("wininet.dll",
   {| explanation :=
        "Provides high-level Internet protocols for web operations.";
      apis := wininet_apis |});
  ("ole32.dll",
   {| explanation :=
        "Enables COM object creation, activation, and OLE functionality.";
      apis := ole32_apis |});
  ("oleaut32.dll",
   {| explanation :=
        "Supports OLE Automation by handling VARIANTs, BSTRs, and COM interop.";
      apis := oleaut32_apis |});
  ("shell32.dll",
   {| explanation :=
        "Contains Windows Shell routines for file operations and desktop management.";
      apis := shell32_apis |});
  ("comdlg32.dll",
   {| explanation :=
        "Implements common dialog box functions for file operations, color/font selection, and text search/replace.";
      apis := comdlg32_apis |});
  ("gdi32.dll",
   {| explanation :=
        "Handles graphics operations, drawing, and font rendering.";
      apis := gdi32_apis |});
  ("comctl32.dll",
   {| explanation :=
        "Provides common controls for Windows applications such as toolbars, status bars, and list views.";
      apis := comctl32_apis |});
  ("crypt32.dll",
   {| explanation :=
        "Offers cryptographic services including certificate management, encryption, and decryption.";
      apis := crypt32_apis |});
  ("shlwapi.dll",
   {| explanation :=
        "Provides utility functions for path manipulation, registry access, and string handling.";
      apis := shlwapi_apis |});
  ("imm32.dll",
   {| explanation :=
        "Manages input method editors (IMEs) for processing complex character input.";
      apis := imm32_apis |});
  ("msvcrt.dll",
   {| explanation :=
        "The Microsoft C Runtime Library providing standard C functions.";
      apis := msvcrt_apis |});
  ("version.dll",
   {| explanation :=
        "Retrieves version information from files for version checking.";
      apis := version_apis |});
  ("psapi.dll",
   {| explanation :=
        "Provides process status functions for enumerating processes and modules.";
      apis := psapi_apis |});
  ("setupapi.dll",
   {| explanation :=
        "Supports device installation and configuration.";
      apis := setupapi_apis |});
  ("iphlpapi.dll",
   {| explanation :=
        "Offers helper functions for IP configuration and network diagnostics.";
      apis := iphlpapi_apis |})
].

(** [for dll in dll_api_explanations.values(): extend_apis(dll, target=100)] *)
Definition dll_api_explanations : dict dll_info :=
  map (fun kv => (fst kv, extend_apis (snd kv) 100)) dll_api_explanations_literal.

Definition dangerous_functions : list string := [
  "createremotethread"; "writeprocessmemory"; "virtualalloc";
  "setunhandledexceptionfilter"; "regcreatekeyexa"; "regcreatekeyexw";
  "regsetvalueexa"; "getprocaddress"; "loadlibrary"; "internetconnecta";
  "httpsendrequesta"; "httpendrequesta"; "cryptencrypt"; "cryptdecrypt"
].

(** [x in xs] for a list of strings. *)
Definition str_in (x : string) (xs : list string) : bool :=
  existsb (String.eqb x) xs.

(** ** Report generation *)

Definition newline : string := String "010"%char EmptyString.

(** The cap on explained functions per DLL. *)
Definition api_cap : nat := 20.

Section ApiLoop.
Context {A : Type}.
(** What is appended for an api found in the catalog, and for one that
    is not: the two renderers differ only in these. *)
Variable known : string -> string -> A.
Variable unknown : string -> A.
Variable dll_apis : dict string.

(** The loop [for api in sorted(functions, key=str.lower)] with its
    counter [printed], over the already sorted list. *)
Fixpoint api_loop (printed : nat) (functions : list string) : list A :=
  match functions with
  | [] => []
  | api :: rest =>
      let api_key := Str.lower api in
      match dict_get api_key dll_apis with
      | Some explanation =>
          known api explanation ::
            (if (api_cap <=? printed + 1)%nat then []
             else api_loop (printed + 1) rest)
      | None =>
          unknown api ::
            (if (api_cap <=? printed)%nat then [] else api_loop printed rest)
      end
  end.
End ApiLoop.

(** The inner search of the dangerous section: the explanation of
    [func.lower()] in the first DLL whose [apis] has it. *)
Fixpoint find_explanation (nested_values : list dll_info) (func : string)
  : option string :=
  match nested_values with
  | [] => None
  | dll_data :: rest =>
      match dict_get (Str.lower func) (apis dll_data) with
      | Some e => Some e
      | None => find_explanation rest func
      end
  end.

(** [explanation and explanation != DEFAULT_EXPLANATION] *)
Definition shown_explanation (nested_dict : dict dll_info) (func : string)
  : option string :=
  match find_explanation (values nested_dict) func with
  | Some e =>
      if Str.truthy e && negb (String.eqb e DEFAULT_EXPLANATION)
      then Some e else None
  | None => None
  end.

(** Truthiness of [dangerous_set]. *)
Definition nonempty {A : Type} (l : list A) : bool :=
  match l with [] => false | _ :: _ => true end.

Module Text.

Definition known_line (api explanation : string) : string :=
  "    " ++ api ++ ": " ++ explanation.

Definition unknown_line (api : string) : string := "    " ++ api.

(** The lines one item of [sorted_imports] contributes. *)
Definition dll_block (nested_dict : dict dll_info) (item : string * list string)
  : list string :=
  let (dll, functions) := item in
  let key := Str.lower dll in
  match dict_get key nested_dict with
  | Some info =>
      (dll ++ ":")
        :: ("    DLL Explanation: " ++ explanation info)
        :: List.app
             (api_loop known_line unknown_line (apis info) 0
                (sorted_lower functions))
             [ "" ]
  | None => []
  end.

Definition body (sorted_imports : table) (nested_dict : dict dll_info)
  : list string :=
  flat_map (dll_block nested_dict) sorted_imports.

Definition dangerous_line (nested_dict : dict dll_info) (func : string) : string :=
  match shown_explanation nested_dict func with
  | Some e => "    " ++ func ++ ": " ++ e
  | None => "    " ++ func
  end.

(** The block under [if dangerous_set:]. *)
Definition dangerous_section (nested_dict : dict dll_info)
  (dangerous_set : list string) : list string :=
  if nonempty dangerous_set then
    "Most Dangerous/Suspicious Functions:"
      :: map (dangerous_line nested_dict) (sorted_lower dangerous_set)
  else [].

Definition lines (sorted_imports : table) (nested_dict : dict dll_info)
  (dangerous_set : list string) : list string :=
  (body sorted_imports nested_dict
   ++ dangerous_section nested_dict dangerous_set)%list.

End Text.

Definition generate_text_output (sorted_imports : table)
  (nested_dict : dict dll_info) (dangerous_set : list string) : string :=
  Str.join newline (Text.lines sorted_imports nested_dict dangerous_set).

(** *** [html.escape] *)

(** [s.replace(c, by)] for a one-character pattern. *)
Fixpoint replace_char (c : ascii) (by_ : string) (s : string) : string :=
  match s with
  | EmptyString => EmptyString
  | String a r =>
      if Ascii.eqb a c then by_ ++ replace_char c by_ r
      else String a (replace_char c by_ r)
  end.

Definition dquote : ascii := "034"%char.
Definition squote : ascii := "039"%char.

(** [html.escape(s)] with its default [quote=True]: the five replacements
    in the order the standard library applies them. *)
Definition html_escape (s : string) : string :=
  replace_char squote "&#x27;"
    (replace_char dquote "&quot;"
       (replace_char ">" "&gt;"
          (replace_char "<" "&lt;"
             (replace_char "&" "&amp;" s)))).

Module Html.

Definition header : list string := [
  "<html>";
  "<head>";
  "<title>PE Import Analysis</title>";
  "<style>";
  "table { border-collapse: collapse; width: 90%; margin: 10px; }";
  "th, td { border: 1px solid #ddd; padding: 8px; }";
  "th { background-color: #f2f2f2; }";
  "</style>";
  "</head>";
  "<body>";
  "<h1>PE Import Analysis</h1>"
].

Definition table_head : string :=
  "<tr><th>API Function</th><th>Explanation</th></tr>".

Definition known_row (api explanation : string) : string :=
  "<tr><td>" ++ html_escape api ++ "</td><td>" ++ html_escape explanation
  ++ "</td></tr>".

Definition unknown_row (api : string) : string :=
  "<tr><td>" ++ html_escape api ++ "</td><td></td></tr>".

Definition dll_block (nested_dict : dict dll_info) (item : string * list string)
  : list string :=
  let (dll, functions) := item in
  let key := Str.lower dll in
  match dict_get key nested_dict with
  | Some info =>
      ("<h2>" ++ html_escape dll ++ "</h2>")
        :: ("<p><strong>DLL Explanation:</strong> "
              ++ html_escape (explanation info) ++ "</p>")
        :: "<table>"
        :: table_head
        :: List.app
             (api_loop known_row unknown_row (apis info) 0
                (sorted_lower functions))
             [ "</table>" ]
  | None => []
  end.

Definition body (sorted_imports : table) (nested_dict : dict dll_info)
  : list string :=
  flat_map (dll_block nested_dict) sorted_imports.

Definition dangerous_row (nested_dict : dict dll_info) (func : string) : string :=
  match shown_explanation nested_dict func with
  | Some e => known_row func e
  | None => unknown_row func
  end.

Definition dangerous_section (nested_dict : dict dll_info)
  (dangerous_set : list string) : list string :=
  if nonempty dangerous_set then
    ([ "<h2>Most Dangerous/Suspicious Functions</h2>"; "<table>"; table_head ]
     ++ map (dangerous_row nested_dict) (sorted_lower dangerous_set)
     ++ [ "</table>" ])%list
  else [].

Definition lines (sorted_imports : table) (nested_dict : dict dll_info)
  (dangerous_set : list string) : list string :=
  (header ++ body sorted_imports nested_dict
   ++ dangerous_section nested_dict dangerous_set
   ++ [ "</body></html>" ])%list.

End Html.

Definition generate_html_output (sorted_imports : table)
  (nested_dict : dict dll_info) (dangerous_set : list string) : string :=
  Str.join newline (Html.lines sorted_imports nested_dict dangerous_set).

(** ** The console and the file system, as [main] uses them *)

Inductive event :=
| Printed (text : string)              (* print(text) *)
| Prompted (prompt : string)           (* the prompt shown by input(prompt) *)
| FileWritten (name content : string)  (* open(name, "w") then f.write(content) *)
| ArgparseWrote (text : string).       (* usage and error, or help, from argparse *)

(** The lines still to be read from standard input, and what the program
    has done so far, oldest first. *)
Record console := { pending : list string; trace : list event }.

(** A computation that may raise; the console survives the exception. *)
Definition io (A : Type) : Type := console -> result A * console.

Definition ret {A : Type} (a : A) : io A := fun c => (Ok a, c).

Definition bind {A B : Type} (m : io A) (k : A -> io B) : io B :=
  fun c =>
    match m c with
    | (Ok a, c') => k a c'
    | (Raise e, c') => (Raise e, c')
    end.

Declare Scope io_scope.
Delimit Scope io_scope with io.
Notation "x <- m ;; k" := (bind m (fun x => k))
  (at level 61, m at next level, right associativity) : io_scope.
Notation "m ;;; k" := (bind m (fun _ => k))
  (at level 61, right associativity) : io_scope.

Definition raise {A : Type} (e : exn) : io A := fun c => (Raise e, c).

Definition lift {A : Type} (r : result A) : io A := fun c => (r, c).

Definition emit (e : event) : io unit :=
  fun c => (Ok tt, {| pending := pending c; trace := (trace c ++ [e])%list |}).

(** [print(text)] *)
Definition print (text : string) : io unit := emit (Printed text).

(** [input(prompt)]: show the prompt, then read one line; at end of input
    Python raises [EOFError]. *)
Definition input (prompt : string) : io string :=
  fun c =>
    let shown := (trace c ++ [Prompted prompt])%list in
    match pending c with
    | [] =>
        (Raise (Exn EOFError "EOF when reading a line"),
         {| pending := []; trace := shown |})
    | line :: rest => (Ok line, {| pending := rest; trace := shown |})
    end.

(** [try: body except Exception as e: handler(e)]; what is not an
    [Exception] passes through. *)
Definition try_except {A : Type} (body : io A) (handler : exn -> io A) : io A :=
  fun c =>
    match body c with
    | (Ok a, c') => (Ok a, c')
    | (Raise e, c') => if is_exception e then handler e c' else (Raise e, c')
    end.

(** What [main] meets once [parse_args] has returned: its command-line
    argument, what LIEF makes of that file, whether a given output file
    can be opened for writing ([Some text] is the [OSError] raised by
    [open]), and the order in which this run of the interpreter iterates
    over a set of strings, given its elements in the order they were
    added. String hashes are seeded per process, so that order differs
    from run to run; whatever it is, it goes through the elements, each
    once. *)
Record env := {
  file_path : string;
  parsed : lief_result;
  open_error : string -> option string;
  set_order : list string -> list string;
  set_order_perm : forall elements, Permutation elements (set_order elements)
}.

(** How [parser.parse_args()] ends: it returns the namespace, or argparse
    writes its usage and error message and leaves through [sys.exit(2)]
    (no argument, too many, an unknown option), or it writes the help text
    and leaves through [sys.exit(0)] (-h). *)
Inductive invocation :=
| ArgsAccepted (E : env)
| ArgsRejected (usage : string)
| HelpRequested (help : string).

(** [with open(file_name, "w", encoding="utf-8") as f: f.write(output_str)] *)
Definition write_file (E : env) (file_name output_str : string) : io unit :=
  match open_error E file_name with
  | Some text => raise (Exn OSError text)
  | None => emit (FileWritten file_name output_str)
  end.

(** *** [os.path] (POSIX flavour) *)

Fixpoint has_char (c : ascii) (s : string) : bool :=
  match s with
  | EmptyString => false
  | String a r => Ascii.eqb a c || has_char c r
  end.

(** [os.path.basename]: what follows the last slash. *)
Fixpoint basename (p : string) : string :=
  match p with
  | EmptyString => EmptyString
  | String _ r => if has_char "/" p then basename r else p
  end.

(** [os.path.splitext(p)[0]] for a [p] without slash: cut at the last dot
    unless only dots precede it. *)
Fixpoint splitext_root_from (seen_other : bool) (p : string) : string :=
  match p with
  | EmptyString => EmptyString
  | String a r =>
      if Ascii.eqb a "." && seen_other && negb (has_char "." r)
      then EmptyString
      else String a (splitext_root_from (seen_other || negb (Ascii.eqb a ".")) r)
  end.

Definition splitext_root (p : string) : string := splitext_root_from false p.

(** ** [main] *)

(** [set.add]: the elements of a set, kept without repetition in the
    order they were added. Iterating over the set goes through them in the
    order [set_order] gives. *)
Definition set_add (x : string) (s : list string) : list string :=
  if str_in x s then s else (s ++ [x])%list.

(** The loop that fills [dangerous_found]. *)
Definition find_dangerous (sorted_imports : table) : list string :=
  fold_left
    (fun found item =>
       fold_left
         (fun found api =>
            if str_in (Str.lower api) dangerous_functions
            then set_add api found else found)
         (snd item) found)
    sorted_imports [].

(** [input(...).strip().lower() == "y"] *)
Definition said_yes (answer : string) : bool :=
  String.eqb (Str.lower (Str.strip answer)) "y".

Open Scope io_scope.

(** The body of the [try] block. *)
Definition main_try (E : env) : io unit :=
  sorted_imports <- lift (extract_and_sort_imports (parsed E)) ;;
  let dangerous_found := find_dangerous sorted_imports in
  a1 <- input "Include dangerous/suspicious functions in the output? (y/n): " ;;
  let include_dangerous := said_yes a1 in
  a2 <- input "Save output as HTML? (y/n): " ;;
  let output_html := said_yes a2 in
  let base_name := splitext_root (basename (file_path E)) in
  let default_ext := if output_html then ".html" else ".txt" in
  let default_filename := base_name ++ default_ext in
  a3 <- input ("Enter output file name (default: " ++ default_filename ++ "): ") ;;
  let file_name := Str.or_else (Str.strip a3) default_filename in
  let dangerous_set :=
    if include_dangerous then set_order E dangerous_found else [] in
  let output_str :=
    if output_html
    then generate_html_output sorted_imports dll_api_explanations dangerous_set
    else generate_text_output sorted_imports dll_api_explanations dangerous_set in
  write_file E file_name output_str ;;;
  print ("Output saved to " ++ file_name).

(** [args = parser.parse_args()], ahead of the [try] block. *)
Definition parse_args (inv : invocation) : io env :=
  match inv with
  | ArgsAccepted E => ret E
  | ArgsRejected usage =>
      emit (ArgparseWrote usage) ;;; raise (Exn (SystemExit 2) "2")
  | HelpRequested help =>
      emit (ArgparseWrote help) ;;; raise (Exn (SystemExit 0) "0")
  end.

Definition main (inv : invocation) : io unit :=
  E <- parse_args inv ;;
  try_except (main_try E) (fun e => print ("Error: " ++ exn_str e)).

Close Scope io_scope.

(** The status the interpreter exits with after [main()]: 0 when it
    returns, the code of a [SystemExit] that escapes it, and 1 for any
    other exception. *)
Definition exit_status {A : Type} (r : result A) : nat :=
  match r with
  | Ok _ => 0
  | Raise e => match exn_kind e with SystemExit code => code | _ => 1 end
  end.

(** A whole run of the script: exit status and everything it did. *)
Definition run_invocation (inv : invocation) (stdin : list string)
  : nat * list event :=
  let (r, c) := main inv {| pending := stdin; trace := [] |} in
  (exit_status r, trace c).

(** A run in which [parse_args] returned. *)
Definition run (E : env) (stdin : list string) : nat * list event :=
  run_invocation (ArgsAccepted E) stdin.

(** ** Notions the statements below are phrased with *)

(** The names the import entries of library [dll] produce, in the order
    the descriptors and their entries come in the import table. *)
Definition entries_for (dll : string) (imps : list Import) : list string :=
  flat_map
    (fun imp =>
       if String.eqb (dll_name_of imp) dll
       then map func_of_entry (imp_entries imp) else [])
    imps.

(** The table the extractor returns for a PE binary, in closed form. *)
Definition table_of (b : Binary) : table :=
  map (fun dll => (dll, sorted_lower (entries_for dll (imports b))))
      (sorted_lower (keys (collect_imports b))).

(** The rows of [api_loop] before they are formatted: each function the
    loop reaches, with its explanation when its lower-cased name is in
    [dll_apis]. *)
Definition rows_from (dll_apis : dict string) (printed : nat)
  (functions : list string) : list (string * option string) :=
  api_loop (fun api e => (api, Some e)) (fun api => (api, None))
    dll_apis printed functions.

(** The functions the block of one DLL lists. *)
Definition listed (dll_apis : dict string) (functions : list string)
  : list (string * option string) :=
  rows_from dll_apis 0 (sorted_lower functions).

(** A listed function that counted towards the cap. *)
Definition explained (row : string * option string) : bool :=
  match snd row with Some _ => true | None => false end.

(** A function beside what the catalog entry of its DLL says about it. *)
Definition annotate (dll_apis : dict string) (f : string)
  : string * option string :=
  (f, dict_get (Str.lower f) dll_apis).

(** The functions of [fs] up to and including the [n]-th one that has an
    entry in [dll_apis]; all of [fs] when fewer than [n] have one. *)
Fixpoint through_nth_explained (dll_apis : dict string) (n : nat)
  (fs : list string) : list string :=
  match fs with
  | [] => []
  | f :: rest =>
      match n with
      | 0 => []
      | S m =>
          f :: (if dict_mem (Str.lower f) dll_apis
                then through_nth_explained dll_apis m rest
                else through_nth_explained dll_apis (S m) rest)
      end
  end.

(** A listed row as one of the renderers formats it. *)
Definition format_row {A : Type} (known : string -> string -> A)
  (unknown : string -> A) (row : string * option string) : A :=
  match snd row with
  | Some e => known (fst row) e
  | None => unknown (fst row)
  end.

(** The markup of a line: its tags, from each ['<'] to the next ['>']. *)
Fixpoint tags_from (open : option string) (s : string) : list string :=
  match s with
  | EmptyString => match open with Some t => [t] | None => [] end
  | String c r =>
      match open with
      | None =>
          if Ascii.eqb c "<" then tags_from (Some "<") r else tags_from None r
      | Some t =>
          if Ascii.eqb c ">" then (t ++ ">") :: tags_from None r
          else tags_from (Some (t ++ String c EmptyString)) r
      end
  end.

Definition tags (line : string) : list string := tags_from None line.

(** [s.startswith(p)] *)
Fixpoint starts_with (p s : string) : bool :=
  match p with
  | EmptyString => true
  | String a p' =>
      match s with
      | EmptyString => false
      | String b s' => Ascii.eqb a b && starts_with p' s'
      end
  end.

(** Text that is inert in HTML: no angle bracket, no quote, and every
    ampersand opens one of the five character references of [html.escape]. *)
Fixpoint inert (s : string) : bool :=
  match s with
  | EmptyString => true
  | String c r =>
      if Ascii.eqb c "&" then
        (starts_with "amp;" r || starts_with "lt;" r || starts_with "gt;" r
         || starts_with "quot;" r || starts_with "#x27;" r) && inert r
      else
        negb (Ascii.eqb c "<") && negb (Ascii.eqb c ">")
        && negb (Ascii.eqb c dquote) && negb (Ascii.eqb c squote) && inert r
  end.

(** The lines of the HTML report that hold no text of the input. *)
Definition html_static_lines : list string :=
  (Html.header
   ++ [ "<table>"; Html.table_head; "</table>";
        "<h2>Most Dangerous/Suspicious Functions</h2>"; "</body></html>" ])%list.

(** A line that is fixed markup, or fixed markup around inert text. *)
Inductive html_line : string -> Prop :=
| line_static (l : string) : In l html_static_lines -> html_line l
| line_h2 (t : string) :
    inert t = true -> html_line ("<h2>" ++ t ++ "</h2>")
| line_p (t : string) :
    inert t = true ->
    html_line ("<p><strong>DLL Explanation:</strong> " ++ t ++ "</p>")
| line_row (t u : string) :
    inert t = true -> inert u = true ->
    html_line ("<tr><td>" ++ t ++ "</td><td>" ++ u ++ "</td></tr>")
| line_row_empty (t : string) :
    inert t = true -> html_line ("<tr><td>" ++ t ++ "</td><td></td></tr>").

(** The tag sequences the HTML renderer can emit on one line. *)
Definition html_skeletons : list (list string) := [
  [ "<html>" ]; [ "<head>" ]; [ "<title>"; "</title>" ]; [ "<style>" ]; [];
  [ "</style>" ]; [ "</head>" ]; [ "<body>" ]; [ "<h1>"; "</h1>" ];
  [ "<h2>"; "</h2>" ];
  [ "<p>"; "<strong>"; "</strong>"; "</p>" ];
  [ "<table>" ]; [ "</table>" ];
  [ "<tr>"; "<th>"; "</th>"; "<th>"; "</th>"; "</tr>" ];
  [ "<tr>"; "<td>"; "</td>"; "<td>"; "</td>"; "</tr>" ];
  [ "</body>"; "</html>" ]
].

(** What [main] derives from the answers to its three prompts. *)
Definition default_filename_of (E : env) (a2 : string) : string :=
  splitext_root (basename (file_path E))
  ++ (if said_yes a2 then ".html" else ".txt").

Definition file_name_of (E : env) (a2 a3 : string) : string :=
  Str.or_else (Str.strip a3) (default_filename_of E a2).

Definition dangerous_shown (E : env) (tbl : table) (a1 : string) : list string :=
  if said_yes a1 then set_order E (find_dangerous tbl) else [].

Definition report_of (E : env) (tbl : table) (a1 a2 : string) : string :=
  if said_yes a2
  then generate_html_output tbl dll_api_explanations (dangerous_shown E tbl a1)
  else generate_text_output tbl dll_api_explanations (dangerous_shown E tbl a1).

(** What was typed at a y/n prompt is y or Y, blanks around it apart. *)
Definition typed_y (answer : string) : Prop :=
  Str.strip answer = "y" \/ Str.strip answer = "Y".

Definition prompt1 : string :=
  "Include dangerous/suspicious functions in the output? (y/n): ".
Definition prompt2 : string := "Save output as HTML? (y/n): ".
Definition prompt3 (E : env) (a2 : string) : string :=
  "Enter output file name (default: " ++ default_filename_of E a2 ++ "): ".

(** ** Sample inputs *)

Definition by_name (name : string) : ImportEntry :=
  {| entry_name := name; entry_ordinal := 0 |}.

Definition by_ordinal (n : N) : ImportEntry :=
  {| entry_name := ""; entry_ordinal := n |}.

(** An ordinary import table: mixed case, an import by ordinal, a DLL the
    catalog does not know. *)
Definition pe_sample : Binary :=
  {| imports := [
       {| imp_name := "KERNEL32.dll";
          imp_entries := [ by_name "VirtualAlloc"; by_name "CreateFile";
                           by_name "ExitProcess"; by_name "closehandle" ] |};
       {| imp_name := "WS2_32.dll";
          imp_entries := [ by_ordinal 115; by_name "connect" ] |};
       {| imp_name := "mscoree.dll";
          imp_entries := [ by_name "_CorExeMain" ] |} ] |}.

(** Two descriptors naming the same DLL, each importing [GetProcAddress]. *)
Definition pe_two_descriptors : Binary :=
  {| imports := [
       {| imp_name := "kernel32.dll";
          imp_entries := [ by_name "GetProcAddress"; by_name "LoadLibraryA" ] |};
       {| imp_name := "kernel32.dll";
          imp_entries := [ by_name "GetProcAddress"; by_name "VirtualAlloc" ] |} ] |}.

(** A descriptor without a name beside one that is called UNKNOWN_DLL. *)
Definition pe_unnamed : Binary :=
  {| imports := [
       {| imp_name := ""; imp_entries := [ by_ordinal 7 ] |};
       {| imp_name := "UNKNOWN_DLL"; imp_entries := [ by_name "Run" ] |} ] |}.

(** Winsock imported by ordinal, 21 entries. *)
Definition pe_by_ordinal : Binary :=
  {| imports := [
       {| imp_name := "WS2_32.dll";
          imp_entries := map (fun i => by_ordinal (N.of_nat i)) (seq 1 21) |} ] |}.

Definition writable : string -> option string := fun _ => None.

(** One dangerous function imported under two spellings. *)
Definition pe_case_pair : Binary :=
  {| imports := [
       {| imp_name := "kernel32.dll";
          imp_entries := [ by_name "VirtualAlloc"; by_name "virtualalloc" ] |} ] |}.

(** A run whose sets happen to iterate in insertion order. *)
Definition insertion_order : list string -> list string := fun elements => elements.

Definition env_sample : env :=
  {| file_path := "/samples/dropper.exe"; parsed := LiefPE pe_sample;
     open_error := writable; set_order := insertion_order;
     set_order_perm := fun elements => Permutation_refl elements |}.

Definition env_not_pe : env :=
  {| file_path := "notes.txt"; parsed := LiefNone; open_error := writable;
     set_order := insertion_order;
     set_order_perm := fun elements => Permutation_refl elements |}.

(** A run whose sets iterate backwards. *)
Definition env_reversed : env :=
  {| file_path := "/samples/dropper.exe"; parsed := LiefPE pe_case_pair;
     open_error := writable; set_order := @rev string;
     set_order_perm := fun elements => Permutation_rev elements |}.

(** A table whose names carry markup characters. *)
Definition hostile_table : table :=
  [ ("kernel32.dll", [ "<script>alert(1)</script>"; "Virtual&Alloc" ]) ].

(** Duplicate-free list of strings, decided. *)
Fixpoint distinct (l : list string) : bool :=
  match l with
  | [] => true
  | x :: r => negb (str_in x r) && distinct r
  end.

(** ** Proof automation *)

(** Find a tag sequence among [html_skeletons]. *)
Ltac pick_skeleton :=
  unfold html_skeletons; repeat (first [ left; reflexivity | right ]).

(** Unfold a run of [main] down to the calls that depend on its input. *)
Ltac run_main :=
  cbv beta iota zeta delta
    [run run_invocation main parse_args ret main_try try_except bind lift input
     write_file print emit raise pending trace exit_status List.app].

(** ** Notions for the further properties *)

(** The key [extend_apis] writes for index [i]. *)
Definition placeholder_key (i : nat) : string :=
  "placeholder_" ++ Str.of_N (N.of_nat i).

(** Every function name of an import table, descriptor after descriptor. *)
Definition all_entries (imps : list Import) : list string :=
  flat_map (fun imp => map func_of_entry (imp_entries imp)) imps.

(** [f] and [k] are the same name up to case. *)
Definition same_key (k f : string) : bool :=
  String.eqb (Str.lower f) (Str.lower k).

(** The function has an entry in this DLL's [apis]. *)
Definition catalogued (dll_apis : dict string) (f : string) : bool :=
  dict_mem (Str.lower f) dll_apis.

(** The five characters [html.escape] rewrites. *)
Definition html_special (c : ascii) : bool :=
  Ascii.eqb c "&" || Ascii.eqb c "<" || Ascii.eqb c ">"
  || Ascii.eqb c dquote || Ascii.eqb c squote.

(** What one character becomes in HTML text. *)
Definition escape_char (c : ascii) : string :=
  if Ascii.eqb c "&" then "&amp;"
  else if Ascii.eqb c "<" then "&lt;"
  else if Ascii.eqb c ">" then "&gt;"
  else if Ascii.eqb c dquote then "&quot;"
  else if Ascii.eqb c squote then "&#x27;"
  else String c EmptyString.

(** A string translated one character at a time. *)
Fixpoint escape_charwise (s : string) : string :=
  match s with
  | EmptyString => EmptyString
  | String c r => escape_char c ++ escape_charwise r
  end.

(** No character of [s] satisfies [p]. *)
Fixpoint free_of (p : ascii -> bool) (s : string) : bool :=
  match s with
  | EmptyString => true
  | String c r => negb (p c) && free_of p r
  end.

(** How often a line occurs in a report. *)
Definition count_line (l : string) (ls : list string) : nat :=
  length (filter (String.eqb l) ls).

(** A descriptor whose functions differ only in case. *)
Definition pe_case_variants : Binary :=
  {| imports := [
       {| imp_name := "kernel32.dll";
          imp_entries := [ by_name "loadlibrary"; by_name "Sleep";
                           by_name "LoadLibrary"; by_name "Beep";
                           by_name "LOADLIBRARY" ] |} ] |}.

(** * Properties *)

(** ** The catalog *)

(** No key is written twice in the dictionary literal, so the association
    lists above are the dictionaries Python builds from it. *)
Lemma catalog_literal_keys_distinct :
  distinct (keys dll_api_explanations_literal) = true
  /\ forallb (fun kv => distinct (keys (apis (snd kv))))
       dll_api_explanations_literal = true.
Proof. split; vm_compute; reflexivity. Qed.

(** After [extend_apis] every DLL of the catalog has at least 100 entries. *)
Lemma catalog_has_100_apis :
  forallb (fun kv => 100 <=? length (apis (snd kv)))%nat dll_api_explanations = true.
Proof. vm_compute. reflexivity. Qed.


(** ** The order on strings and the stable sort *)

Lemma string_leb_trans (a b c : string) :
  String.leb a b = true -> String.leb b c = true -> String.leb a c = true.
Proof.
  unfold String.leb.
  revert b c; induction a as [|x a IH]; intros [|y b] [|z c]; simpl; try easy.
  unfold Ascii.compare.
  destruct (N.compare_spec (N_of_ascii x) (N_of_ascii y));
    destruct (N.compare_spec (N_of_ascii y) (N_of_ascii z));
    destruct (N.compare_spec (N_of_ascii x) (N_of_ascii z));
    try lia; try easy.
  apply IH.
Qed.

Lemma string_leb_refl (a : string) : String.leb a a = true.
Proof. destruct (String.leb_total a a); assumption. Qed.

Lemma le_lower_trans (a b c : string) :
  le_lower a b -> le_lower b c -> le_lower a c.
Proof. unfold le_lower; apply string_leb_trans. Qed.

Lemma le_lower_total (a b : string) : le_lower a b \/ le_lower b a.
Proof. unfold le_lower; apply String.leb_total. Qed.

Section SortFacts.
Variable key : string -> string.

Lemma insert_by_perm (x : string) (l : list string) :
  Permutation (x :: l) (insert_by key x l).
Proof.
  induction l as [|y l IH]; simpl.
  - apply Permutation_refl.
  - destruct (key_le key x y).
    + apply Permutation_refl.
    + eapply perm_trans; [apply perm_swap|].
      apply perm_skip, IH.
Qed.

Lemma sorted_by_perm (l : list string) : Permutation l (sorted_by key l).
Proof.
  induction l as [|x l IH]; simpl.
  - apply perm_nil.
  - eapply perm_trans; [apply perm_skip, IH | apply insert_by_perm].
Qed.

Lemma insert_by_sorted (x : string) (l : list string) :
  StronglySorted (key_order key) l -> StronglySorted (key_order key) (insert_by key x l).
Proof.
  induction 1 as [|y l Hs IH Hall]; simpl.
  - repeat constructor.
  - destruct (key_le key x y) eqn:Hxy.
    + constructor; [constructor; assumption|].
      constructor; [exact Hxy|].
      eapply Forall_impl; [|exact Hall].
      intros z Hz. unfold key_order, key_le in *.
      eapply string_leb_trans; eassumption.
    + constructor; [exact IH|].
      assert (Hyx : key_order key y x).
      { unfold key_order, key_le in *.
        destruct (String.leb_total (key x) (key y)) as [H|H];
          [congruence | exact H]. }
      eapply Permutation_Forall; [apply insert_by_perm|].
      constructor; assumption.
Qed.

Lemma sorted_by_sorted (l : list string) : StronglySorted (key_order key) (sorted_by key l).
Proof.
  induction l as [|x l IH]; simpl.
  - constructor.
  - apply insert_by_sorted, IH.
Qed.
End SortFacts.

Lemma sorted_lower_perm (l : list string) : Permutation l (sorted_lower l).
Proof. apply sorted_by_perm. Qed.

Lemma sorted_lower_sorted (l : list string) :
  StronglySorted le_lower (sorted_lower l).
Proof. apply (sorted_by_sorted Str.lower). Qed.

Lemma sorted_lower_In (x : string) (l : list string) :
  In x (sorted_lower l) <-> In x l.
Proof.
  split; apply Permutation_in;
    [apply Permutation_sym|]; apply sorted_lower_perm.
Qed.

Lemma sorted_lower_length (l : list string) :
  length (sorted_lower l) = length l.
Proof. symmetry; apply Permutation_length, sorted_lower_perm. Qed.

(** ** Dictionaries *)

Section DictFacts.
Context {V : Type}.
Implicit Types (d : dict V) (k : string).

Lemma dict_mem_keys k d : dict_mem k d = true <-> In k (keys d).
Proof.
  unfold dict_mem.
  induction d as [|[k' v] d IH]; simpl.
  - split; [discriminate | tauto].
  - destruct (String.eqb_spec k' k) as [->|Hne].
    + split; auto.
    + rewrite IH. split; [auto | intros [H|H]; [contradiction | exact H]].
Qed.

Lemma dict_mem_false_keys k d : dict_mem k d = false <-> ~ In k (keys d).
Proof.
  rewrite <- dict_mem_keys. destruct (dict_mem k d); split; congruence.
Qed.

Lemma keys_dict_update k f d : keys (dict_update k f d) = keys d.
Proof.
  induction d as [|[k' v] d IH]; simpl; [reflexivity|].
  destruct (String.eqb k' k); simpl; [reflexivity | now rewrite IH].
Qed.

Lemma keys_dict_set_new k v d :
  dict_mem k d = false -> keys (dict_set k v d) = (keys d ++ [k])%list.
Proof.
  unfold dict_mem.
  induction d as [|[k' v'] d IH]; simpl; [reflexivity|].
  destruct (String.eqb k' k); [discriminate|].
  intros H. simpl. now rewrite IH.
Qed.

Lemma dict_get_In k v d : dict_get k d = Some v -> In (k, v) d.
Proof.
  induction d as [|[k' v'] d IH]; simpl; [discriminate|].
  destruct (String.eqb_spec k' k) as [->|Hne].
  - intros [= ->]. now left.
  - intros H. right. auto.
Qed.

Lemma In_dict_get k v d : NoDup (keys d) -> In (k, v) d -> dict_get k d = Some v.
Proof.
  induction d as [|[k' v'] d IH]; simpl; [tauto|].
  intros Hnd [[= -> ->]|Hin].
  - now rewrite String.eqb_refl.
  - inversion Hnd as [|? ? Hnotin Hnd']; subst.
    destruct (String.eqb_spec k' k) as [->|Hne].
    + exfalso. apply Hnotin. change (In (fst (k, v)) (map fst d)).
      now apply in_map.
    + auto.
Qed.
End DictFacts.

(** ** The import table under construction *)

Lemma dict_mem_update (k k' : string) (f : list string -> list string) (d : table) :
  dict_mem k' (dict_update k f d) = dict_mem k' d.
Proof.
  unfold dict_mem.
  induction d as [|[k0 v] d IH]; simpl; [reflexivity|].
  destruct (String.eqb k0 k) eqn:E; simpl.
  - destruct (String.eqb k0 k'); reflexivity.
  - destruct (String.eqb k0 k'); [reflexivity | exact IH].
Qed.

Lemma dict_at_update_same (k : string) (f : list string -> list string) (d : table) :
  dict_mem k d = true -> dict_at k (dict_update k f d) = f (dict_at k d).
Proof.
  unfold dict_mem, dict_at.
  induction d as [|[k0 v] d IH]; simpl; [discriminate|].
  destruct (String.eqb k0 k) eqn:E; simpl; rewrite E; [reflexivity | exact IH].
Qed.

Lemma dict_at_update_other (k k' : string) (f : list string -> list string)
  (d : table) :
  k <> k' -> dict_at k' (dict_update k f d) = dict_at k' d.
Proof.
  unfold dict_at. intros Hne.
  induction d as [|[k0 v] d IH]; simpl; [reflexivity|].
  destruct (String.eqb_spec k0 k) as [->|H0]; simpl.
  - destruct (String.eqb_spec k k'); [contradiction | reflexivity].
  - destruct (String.eqb k0 k'); [reflexivity | exact IH].
Qed.

Lemma dict_at_absent (k : string) (d : table) :
  dict_mem k d = false -> dict_at k d = [].
Proof. unfold dict_mem, dict_at. destruct (dict_get k d); [discriminate | reflexivity]. Qed.

Lemma dict_at_set_new (k k' : string) (d : table) :
  dict_mem k d = false -> dict_at k' (dict_set k [] d) = dict_at k' d.
Proof.
  unfold dict_mem, dict_at.
  induction d as [|[k0 v] d IH]; simpl.
  - destruct (String.eqb k k'); reflexivity.
  - destruct (String.eqb_spec k0 k) as [->|H0]; [discriminate|].
    intros H. simpl. destruct (String.eqb k0 k'); [reflexivity | auto].
Qed.

Lemma dict_mem_set (k : string) (v : list string) (d : table) :
  dict_mem k (dict_set k v d) = true.
Proof.
  unfold dict_mem.
  induction d as [|[k0 v0] d IH]; simpl.
  - now rewrite String.eqb_refl.
  - destruct (String.eqb k0 k) eqn:E; simpl; rewrite E; [reflexivity | exact IH].
Qed.

(** The inner loop: every entry of the descriptor is appended under [k]. *)
Lemma append_entries_spec (k : string) (es : list ImportEntry) (d : table) :
  dict_mem k d = true ->
  let d' :=
    fold_left
      (fun d entry =>
         dict_update k (fun l => (l ++ [func_of_entry entry])%list) d) es d in
  keys d' = keys d
  /\ dict_at k d' = (dict_at k d ++ map func_of_entry es)%list
  /\ forall k', k <> k' -> dict_at k' d' = dict_at k' d.
Proof.
  revert d; induction es as [|e es IH]; intros d Hmem; simpl.
  - rewrite app_nil_r. auto.
  - specialize (IH (dict_update k (fun l => (l ++ [func_of_entry e])%list) d)).
    rewrite dict_mem_update in IH. destruct (IH Hmem) as (Hk & Hat & Hother).
    split; [|split].
    + rewrite Hk. apply keys_dict_update.
    + rewrite Hat, dict_at_update_same by exact Hmem.
      now rewrite <- app_assoc.
    + intros k' Hne. rewrite Hother by exact Hne.
      now apply dict_at_update_other.
Qed.

Lemma add_import_keys (d : table) (imp : Import) :
  keys (add_import d imp) =
  if dict_mem (dll_name_of imp) d then keys d
  else (keys d ++ [dll_name_of imp])%list.
Proof.
  unfold add_import.
  destruct (dict_mem (dll_name_of imp) d) eqn:Hmem; simpl.
  - now destruct (append_entries_spec (dll_name_of imp) (imp_entries imp) d Hmem)
      as (-> & _).
  - destruct (append_entries_spec (dll_name_of imp) (imp_entries imp)
                (dict_set (dll_name_of imp) [] d) (dict_mem_set _ _ _))
      as (-> & _).
    now apply keys_dict_set_new.
Qed.

Lemma add_import_at (k : string) (d : table) (imp : Import) :
  dict_at k (add_import d imp) =
  (dict_at k d ++
   if String.eqb (dll_name_of imp) k
   then map func_of_entry (imp_entries imp) else [])%list.
Proof.
  unfold add_import.
  destruct (dict_mem (dll_name_of imp) d) eqn:Hmem; simpl.
  - destruct (append_entries_spec (dll_name_of imp) (imp_entries imp) d Hmem)
      as (_ & Hat & Hother).
    destruct (String.eqb_spec (dll_name_of imp) k) as [<-|Hne].
    + exact Hat.
    + rewrite app_nil_r. now apply Hother.
  - destruct (append_entries_spec (dll_name_of imp) (imp_entries imp)
                (dict_set (dll_name_of imp) [] d) (dict_mem_set _ _ _))
      as (_ & Hat & Hother).
    destruct (String.eqb_spec (dll_name_of imp) k) as [<-|Hne].
    + rewrite Hat. now rewrite dict_at_set_new.
    + rewrite app_nil_r, Hother by exact Hne. now apply dict_at_set_new.
Qed.

Lemma fold_add_import_at (k : string) (imps : list Import) (d : table) :
  dict_at k (fold_left add_import imps d) = (dict_at k d ++ entries_for k imps)%list.
Proof.
  revert d; induction imps as [|imp imps IH]; intros d; simpl.
  - now rewrite app_nil_r.
  - rewrite IH, add_import_at. now rewrite <- app_assoc.
Qed.

Lemma fold_add_import_keys (imps : list Import) (d : table) :
  (forall k, In k (keys (fold_left add_import imps d))
             <-> In k (keys d) \/ In k (map dll_name_of imps))
  /\ (NoDup (keys d) -> NoDup (keys (fold_left add_import imps d))).
Proof.
  revert d; induction imps as [|imp imps IH]; intros d; simpl.
  - split; [intros k; tauto | auto].
  - destruct (IH (add_import d imp)) as (Hin & Hnd).
    rewrite add_import_keys in Hin, Hnd.
    destruct (dict_mem (dll_name_of imp) d) eqn:Hmem.
    + apply dict_mem_keys in Hmem. split; [|exact Hnd].
      intros k. rewrite Hin. intuition (subst; auto).
    + apply dict_mem_false_keys in Hmem. split.
      * intros k. rewrite Hin, in_app_iff. simpl. tauto.
      * intros H. apply Hnd. apply NoDup_app; [exact H | repeat constructor; simpl; tauto |].
        intros a Ha [<-|[]]. contradiction.
Qed.

Lemma collect_imports_at (k : string) (b : Binary) :
  dict_at k (collect_imports b) = entries_for k (imports b).
Proof. unfold collect_imports. now rewrite fold_add_import_at. Qed.

Lemma collect_imports_keys (b : Binary) :
  NoDup (keys (collect_imports b))
  /\ forall k, In k (keys (collect_imports b)) <-> In k (map dll_name_of (imports b)).
Proof.
  unfold collect_imports.
  destruct (fold_add_import_keys (imports b) []) as (Hin & Hnd).
  split; [apply Hnd; constructor|].
  intros k. rewrite Hin. simpl. tauto.
Qed.

Lemma keys_sort_values (d : table) : keys (sort_values d) = keys d.
Proof. unfold keys, sort_values. rewrite map_map. reflexivity. Qed.

Lemma dict_at_sort_values (k : string) (d : table) :
  dict_at k (sort_values d) = sorted_lower (dict_at k d).
Proof.
  unfold dict_at, sort_values.
  induction d as [|[k0 v] d IH]; simpl; [reflexivity|].
  destruct (String.eqb k0 k); [reflexivity | exact IH].
Qed.

Lemma extract_PE (b : Binary) :
  extract_and_sort_imports (LiefPE b) = Ok (table_of b).
Proof.
  unfold extract_and_sort_imports, table_of.
  rewrite keys_sort_values. apply f_equal.
  apply map_ext. intros dll.
  now rewrite dict_at_sort_values, collect_imports_at.
Qed.

Lemma keys_table_of (b : Binary) :
  keys (table_of b) = sorted_lower (keys (collect_imports b)).
Proof.
  unfold table_of, keys. rewrite map_map. simpl. apply map_id.
Qed.

Lemma In_table_of (b : Binary) (dll : string) (fs : list string) :
  In (dll, fs) (table_of b) <->
  In dll (map dll_name_of (imports b))
  /\ fs = sorted_lower (entries_for dll (imports b)).
Proof.
  destruct (collect_imports_keys b) as (_ & Hkeys).
  unfold table_of. rewrite in_map_iff. split.
  - intros (k & [= <- <-] & Hin). split; [|reflexivity].
    apply (proj1 (sorted_lower_In _ _)) in Hin. now apply Hkeys.
  - intros (Hin & ->). exists dll. split; [reflexivity|].
    apply (proj2 (sorted_lower_In _ _)). now apply Hkeys.
Qed.

Lemma In_entries_for (dll f : string) (imps : list Import) :
  In f (entries_for dll imps) <->
  exists imp entry,
    In imp imps /\ dll_name_of imp = dll
    /\ In entry (imp_entries imp) /\ f = func_of_entry entry.
Proof.
  unfold entries_for. rewrite in_flat_map. split.
  - intros (imp & Himp & Hf).
    destruct (String.eqb_spec (dll_name_of imp) dll) as [E|E]; [|destruct Hf].
    apply in_map_iff in Hf. destruct Hf as (e & <- & He).
    exists imp, e. auto.
  - intros (imp & e & Himp & E & He & ->). exists imp. split; [exact Himp|].
    rewrite E, String.eqb_refl. now apply in_map.
Qed.

(** ** The extractor *)

Lemma extract_rejects_non_pe_shape (parsed : lief_result) :
  (forall b, parsed <> LiefPE b) ->
  exists e, extract_and_sort_imports parsed = Raise e.
Proof.
  intros Hnot. destruct parsed as [| |b|msg]; simpl; eauto.
  exfalso. now apply (Hnot b).
Qed.

(** C7. When LIEF does not hand back a PE binary (it returned None, an
    object of another format, or raised), the extractor raises: a
    [ValueError] with the text "Not a valid PE file." in the first two
    cases, LIEF's own exception in the last. It returns no table, whole
    or partial. *)
Theorem extract_rejects_non_pe (parsed : lief_result) :
  (forall b, parsed <> LiefPE b) ->
  extract_and_sort_imports parsed =
    Raise (match parsed with
           | LiefRaised msg => Exn LiefError msg
           | _ => Exn ValueError "Not a valid PE file."
           end)
  /\ forall tbl, extract_and_sort_imports parsed <> Ok tbl.
Proof.
  intros Hnot. destruct parsed as [| |b|msg]; simpl.
  - split; [reflexivity | discriminate].
  - split; [reflexivity | discriminate].
  - exfalso. now apply (Hnot b).
  - split; [reflexivity | discriminate].
Qed.

Lemma extract_rejects_non_pe_witness :
  extract_and_sort_imports LiefNone = Raise (Exn ValueError "Not a valid PE file.")
  /\ forall tbl, extract_and_sort_imports LiefNone <> Ok tbl.
Proof. apply (extract_rejects_non_pe LiefNone). discriminate. Defined.

(** C5. Every name in the returned table comes from an import entry of
    that library and is the entry's own name when it has one, and
    otherwise "Ordinal_" followed by the decimal ordinal; and every
    import entry is in the table under its library, in that form. *)
Theorem ordinal_placeholder (b : Binary) (tbl : table) :
  extract_and_sort_imports (LiefPE b) = Ok tbl ->
  (forall dll fs f,
      In (dll, fs) tbl -> In f fs ->
      exists imp entry,
        In imp (imports b) /\ dll_name_of imp = dll
        /\ In entry (imp_entries imp)
        /\ f = func_of_entry entry
        /\ (entry_name entry <> "" -> f = entry_name entry)
        /\ (entry_name entry = "" ->
            f = "Ordinal_" ++ Str.of_N (entry_ordinal entry)))
  /\ (forall imp entry,
         In imp (imports b) -> In entry (imp_entries imp) ->
         exists fs, In (dll_name_of imp, fs) tbl
                    /\ In (func_of_entry entry) fs).
Proof.
  rewrite extract_PE. intros [= <-]. split.
  - intros dll fs f Hin Hf.
    apply In_table_of in Hin. destruct Hin as (_ & ->).
    apply (proj1 (sorted_lower_In _ _)) in Hf.
    apply In_entries_for in Hf.
    destruct Hf as (imp & entry & Himp & Hdll & Hentry & ->).
    exists imp, entry. repeat split; try assumption.
    + unfold func_of_entry. destruct (entry_name entry); [congruence | reflexivity].
    + unfold func_of_entry. intros ->. reflexivity.
  - intros imp entry Himp Hentry.
    exists (sorted_lower (entries_for (dll_name_of imp) (imports b))). split.
    + apply In_table_of. split; [now apply in_map | reflexivity].
    + apply (proj2 (sorted_lower_In _ _)). apply In_entries_for.
      exists imp, entry. auto.
Qed.

Lemma ordinal_placeholder_witness :
  extract_and_sort_imports (LiefPE pe_sample) =
    Ok [ ("KERNEL32.dll",
          [ "closehandle"; "CreateFile"; "ExitProcess"; "VirtualAlloc" ]);
         ("mscoree.dll", [ "_CorExeMain" ]);
         ("WS2_32.dll", [ "connect"; "Ordinal_115" ]) ]
  /\ exists fs, In ("WS2_32.dll", fs) (table_of pe_sample) /\ In "Ordinal_115" fs.
Proof.
  split; [reflexivity|].
  apply (proj2 (ordinal_placeholder pe_sample (table_of pe_sample) (extract_PE _))
           {| imp_name := "WS2_32.dll";
              imp_entries := [ by_ordinal 115; by_name "connect" ] |}
           (by_ordinal 115)).
  - simpl. auto.
  - simpl. auto.
Defined.

(** C2, as the code has it. The list returned for a library holds one
    element per import entry of the descriptors with that library name: it
    is a rearrangement of those entries' names, repetitions included.
    Nothing is removed, so the list is free of duplicates exactly when the
    entries of that library are. *)
Theorem function_list_keeps_every_entry (b : Binary) (tbl : table) :
  extract_and_sort_imports (LiefPE b) = Ok tbl ->
  forall dll fs,
    In (dll, fs) tbl ->
    Permutation (entries_for dll (imports b)) fs
    /\ (NoDup fs <-> NoDup (entries_for dll (imports b))).
Proof.
  rewrite extract_PE. intros [= <-] dll fs Hin.
  apply In_table_of in Hin. destruct Hin as (_ & ->).
  pose proof (sorted_lower_perm (entries_for dll (imports b))) as Hperm.
  split; [exact Hperm|]. split.
  - apply Permutation_NoDup, Permutation_sym, Hperm.
  - apply Permutation_NoDup, Hperm.
Qed.

Lemma function_list_keeps_every_entry_witness :
  Permutation
    [ "GetProcAddress"; "LoadLibraryA"; "GetProcAddress"; "VirtualAlloc" ]
    [ "GetProcAddress"; "GetProcAddress"; "LoadLibraryA"; "VirtualAlloc" ].
Proof.
  apply (function_list_keeps_every_entry pe_two_descriptors
           (table_of pe_two_descriptors) (extract_PE _) "kernel32.dll").
  simpl. auto.
Defined.

(** C2 as stated fails: a function imported through two descriptors of
    the same DLL is returned twice. *)
Lemma function_list_has_duplicates :
  extract_and_sort_imports (LiefPE pe_two_descriptors) =
    Ok [ ("kernel32.dll",
          [ "GetProcAddress"; "GetProcAddress"; "LoadLibraryA"; "VirtualAlloc" ]) ]
  /\ ~ NoDup [ "GetProcAddress"; "GetProcAddress"; "LoadLibraryA"; "VirtualAlloc" ].
Proof.
  split; [reflexivity|].
  intros H. inversion H as [|x l Hnotin _]; subst. apply Hnotin. now left.
Qed.

(** C4, as the code has it. The keys of the returned table are the
    distinct library names of the import descriptors (UNKNOWN_DLL standing
    for an empty name); descriptors that share a name share a key, so
    there are exactly N keys when the N names are pairwise distinct. The
    keys are in case-insensitive order, and so is every function list. *)
Theorem keys_and_order (b : Binary) (tbl : table) :
  extract_and_sort_imports (LiefPE b) = Ok tbl ->
  NoDup (keys tbl)
  /\ (forall k, In k (keys tbl) <-> In k (map dll_name_of (imports b)))
  /\ (NoDup (map dll_name_of (imports b)) -> length tbl = length (imports b))
  /\ StronglySorted le_lower (keys tbl)
  /\ (forall dll fs, In (dll, fs) tbl -> StronglySorted le_lower fs).
Proof.
  rewrite extract_PE. intros [= <-].
  destruct (collect_imports_keys b) as (Hnd & Hkeys).
  pose proof (sorted_lower_perm (keys (collect_imports b))) as Hperm.
  rewrite keys_table_of.
  split; [|split; [|split; [|split]]].
  - eapply Permutation_NoDup; eassumption.
  - intros k. rewrite sorted_lower_In. apply Hkeys.
  - intros Hdistinct.
    transitivity (length (keys (table_of b))); [unfold keys; now rewrite length_map|].
    rewrite keys_table_of, sorted_lower_length.
    rewrite <- (length_map dll_name_of).
    apply Permutation_length, NoDup_Permutation; assumption.
  - apply sorted_lower_sorted.
  - intros dll fs Hin. apply In_table_of in Hin. destruct Hin as (_ & ->).
    apply sorted_lower_sorted.
Qed.

Lemma keys_and_order_witness :
  keys (table_of pe_sample) = [ "KERNEL32.dll"; "mscoree.dll"; "WS2_32.dll" ]
  /\ length (table_of pe_sample) = length (imports pe_sample)
  /\ StronglySorted le_lower (keys (table_of pe_sample)).
Proof.
  split; [reflexivity|].
  destruct (keys_and_order pe_sample (table_of pe_sample) (extract_PE _))
    as (_ & _ & Hlen & Hsorted & _).
  split; [|exact Hsorted].
  apply Hlen. simpl.
  repeat constructor; simpl; intuition discriminate.
Defined.

(** C4 as stated fails on the number of keys: two descriptors of one DLL
    give one key, and so do an unnamed descriptor and one that is called
    UNKNOWN_DLL, although their names differ. *)
Lemma fewer_keys_than_descriptors :
  (length (imports pe_two_descriptors) = 2
   /\ exists tbl, extract_and_sort_imports (LiefPE pe_two_descriptors) = Ok tbl
                  /\ length tbl = 1)
  /\ (length (imports pe_unnamed) = 2
      /\ NoDup (map imp_name (imports pe_unnamed))
      /\ exists tbl, extract_and_sort_imports (LiefPE pe_unnamed) = Ok tbl
                     /\ keys tbl = [ "UNKNOWN_DLL" ]
                     /\ length tbl <> length (imports pe_unnamed)).
Proof.
  split.
  - split; [reflexivity|]. eexists. split; reflexivity.
  - split; [reflexivity|]. split.
    + simpl. repeat constructor; simpl; intuition discriminate.
    + eexists. split; [reflexivity|]. split; [reflexivity | discriminate].
Qed.

(** ** The per-library blocks of the report *)

Opaque api_cap.

Section LoopFacts.
Context {A : Type}.
Variable known : string -> string -> A.
Variable unknown : string -> A.
Variable dll_apis : dict string.

(** Both renderers format the same rows. *)
Lemma api_loop_format (printed : nat) (fs : list string) :
  api_loop known unknown dll_apis printed fs =
  map (format_row known unknown) (rows_from dll_apis printed fs).
Proof.
  unfold rows_from. revert printed; induction fs as [|api fs IH]; intros printed; simpl.
  - reflexivity.
  - destruct (dict_get (Str.lower api) dll_apis) as [e|]; simpl.
    + destruct (api_cap <=? printed + 1)%nat; simpl; [reflexivity|].
      now rewrite IH.
    + destruct (api_cap <=? printed)%nat; simpl; [reflexivity|].
      now rewrite IH.
Qed.

End LoopFacts.

Section RowFacts.
Variable dll_apis : dict string.

(** The counter never passes the cap. *)
Lemma rows_explained_bound (printed : nat) (fs : list string) :
  printed < api_cap ->
  length (filter explained (rows_from dll_apis printed fs)) + printed <= api_cap.
Proof.
  unfold rows_from. revert printed; induction fs as [|api fs IH]; intros printed Hp; simpl.
  - lia.
  - destruct (dict_get (Str.lower api) dll_apis) as [e|]; simpl.
    + destruct (Nat.leb_spec api_cap (printed + 1)); simpl; [lia|].
      specialize (IH (printed + 1)). lia.
    + destruct (Nat.leb_spec api_cap printed); simpl; [lia|].
      now apply IH.
Qed.

(** Each row carries what the catalog says about that function. *)
Lemma rows_annotation (printed : nat) (fs : list string)
  (row : string * option string) :
  In row (rows_from dll_apis printed fs) -> snd row = dict_get (Str.lower (fst row)) dll_apis.
Proof.
  unfold rows_from. revert printed; induction fs as [|api fs IH]; intros printed; simpl.
  - tauto.
  - destruct (dict_get (Str.lower api) dll_apis) as [e|] eqn:E.
    + intros [<-|Hin]; [simpl; now rewrite E|].
      destruct (api_cap <=? printed + 1)%nat; [destruct Hin | eauto].
    + intros [<-|Hin]; [simpl; now rewrite E|].
      destruct (api_cap <=? printed)%nat; [destruct Hin | eauto].
Qed.

(** The rows are an initial part of the list, cut only at the cap. *)
Lemma rows_prefix (printed : nat) (fs : list string) :
  printed < api_cap ->
  exists rest,
    fs = (map fst (rows_from dll_apis printed fs) ++ rest)%list
    /\ (rest <> [] ->
        length (filter explained (rows_from dll_apis printed fs)) + printed = api_cap).
Proof.
  unfold rows_from. revert printed; induction fs as [|api fs IH]; intros printed Hp; simpl.
  - exists []. split; [reflexivity | congruence].
  - destruct (dict_get (Str.lower api) dll_apis) as [e|]; simpl.
    + destruct (Nat.leb_spec api_cap (printed + 1)); simpl.
      * exists fs. split; [reflexivity | lia].
      * destruct (IH (printed + 1)) as (rest & Hfs & Hcut); [lia|].
        exists rest. split; [now rewrite <- Hfs|].
        intros Hrest. specialize (Hcut Hrest). lia.
    + destruct (Nat.leb_spec api_cap printed); [lia|]. simpl.
      destruct (IH printed Hp) as (rest & Hfs & Hcut).
      exists rest. split; [now rewrite <- Hfs | exact Hcut].
Qed.

Lemma through_zero (fs : list string) : through_nth_explained dll_apis 0 fs = [].
Proof. destruct fs; reflexivity. Qed.

(** The loop and its counter against the cut after the remaining number
    of explained functions. *)
Lemma rows_through (printed : nat) (fs : list string) :
  printed < api_cap ->
  rows_from dll_apis printed fs =
  map (annotate dll_apis) (through_nth_explained dll_apis (api_cap - printed) fs).
Proof.
  unfold rows_from, annotate.
  revert printed; induction fs as [|f fs IH]; intros printed Hp; [reflexivity|].
  cbn [api_loop through_nth_explained].
  destruct (api_cap - printed) as [|m] eqn:Hm; [lia|]. cbn [map].
  unfold dict_mem.
  destruct (dict_get (Str.lower f) dll_apis) as [e|]; f_equal.
  - destruct (Nat.leb_spec api_cap (printed + 1)).
    + replace m with 0 by lia. now rewrite through_zero.
    + rewrite IH by lia. now replace (api_cap - (printed + 1)) with m by lia.
  - destruct (Nat.leb_spec api_cap printed); [lia|].
    rewrite IH by exact Hp. now rewrite Hm.
Qed.

(** Where the listing stops short, its last row is an explained one. *)
Lemma rows_cut_after_explained (printed : nat) (fs rest : list string) :
  printed < api_cap ->
  fs = (map fst (rows_from dll_apis printed fs) ++ rest)%list ->
  rest <> [] ->
  exists init f e, rows_from dll_apis printed fs = (init ++ [ (f, Some e) ])%list.
Proof.
  unfold rows_from.
  revert printed; induction fs as [|f fs IH]; intros printed Hp Hfs Hrest.
  - simpl in Hfs. now subst rest.
  - cbn [api_loop] in *.
    destruct (dict_get (Str.lower f) dll_apis) as [e|].
    + destruct (Nat.leb_spec api_cap (printed + 1)).
      * exists [], f, e. reflexivity.
      * cbn [map fst List.app] in Hfs. injection Hfs as Hfs.
        destruct (IH (printed + 1)) as (init & g & e' & Heq); [lia | exact Hfs | exact Hrest |].
        rewrite Heq. exists ((f, Some e) :: init), g, e'. reflexivity.
    + destruct (Nat.leb_spec api_cap printed); [lia|].
      cbn [map fst List.app] in Hfs. injection Hfs as Hfs.
      destruct (IH printed Hp Hfs Hrest) as (init & g & e' & Heq).
      rewrite Heq. exists ((f, None) :: init), g, e'. reflexivity.
Qed.
End RowFacts.

Transparent api_cap.

Lemma text_block_known (nd : dict dll_info) (dll : string) (fs : list string)
  (info : dll_info) :
  dict_get (Str.lower dll) nd = Some info ->
  Text.dll_block nd (dll, fs) =
    (dll ++ ":")
      :: ("    DLL Explanation: " ++ explanation info)
      :: List.app
           (map (format_row Text.known_line Text.unknown_line)
              (listed (apis info) fs))
           [ "" ].
Proof.
  intros H. unfold Text.dll_block, listed. rewrite H.
  now rewrite api_loop_format.
Qed.

Lemma html_block_known (nd : dict dll_info) (dll : string) (fs : list string)
  (info : dll_info) :
  dict_get (Str.lower dll) nd = Some info ->
  Html.dll_block nd (dll, fs) =
    ("<h2>" ++ html_escape dll ++ "</h2>")
      :: ("<p><strong>DLL Explanation:</strong> "
            ++ html_escape (explanation info) ++ "</p>")
      :: "<table>"
      :: Html.table_head
      :: List.app
           (map (format_row Html.known_row Html.unknown_row)
              (listed (apis info) fs))
           [ "</table>" ].
Proof.
  intros H. unfold Html.dll_block, listed. rewrite H.
  now rewrite api_loop_format.
Qed.

(** C1, as the code has it. In both renderers the block of a library
    lists the same rows: the case-insensitively sorted function list up
    to and including its 20th function that has an explanation in the
    catalog entry of the library, and the whole list when fewer than 20
    have one. So at most 20 explained functions are listed per library;
    functions without a catalog entry are listed as well and do not count
    towards the cap; and where the listing stops short of the list, it has
    exactly 20 explained functions and the last one listed is one of
    them. *)
Theorem cap_on_explained_functions (nd : dict dll_info) (dll : string)
  (fs : list string) (info : dll_info) :
  dict_get (Str.lower dll) nd = Some info ->
  let rows := listed (apis info) fs in
  Text.dll_block nd (dll, fs) =
    (dll ++ ":")
      :: ("    DLL Explanation: " ++ explanation info)
      :: List.app (map (format_row Text.known_line Text.unknown_line) rows) [ "" ]
  /\ Html.dll_block nd (dll, fs) =
       ("<h2>" ++ html_escape dll ++ "</h2>")
         :: ("<p><strong>DLL Explanation:</strong> "
               ++ html_escape (explanation info) ++ "</p>")
         :: "<table>"
         :: Html.table_head
         :: List.app (map (format_row Html.known_row Html.unknown_row) rows)
              [ "</table>" ]
  /\ length (filter explained rows) <= 20
  /\ (forall row, In row rows ->
                  snd row = dict_get (Str.lower (fst row)) (apis info))
  /\ (exists rest,
       sorted_lower fs = (map fst rows ++ rest)%list
       /\ (rest <> [] -> length (filter explained rows) = 20)
       /\ (rest <> [] -> exists init f e, rows = (init ++ [ (f, Some e) ])%list))
  /\ rows =
     map (annotate (apis info))
       (through_nth_explained (apis info) 20 (sorted_lower fs)).
Proof.
  intros H rows.
  split; [now apply text_block_known|].
  split; [now apply html_block_known|].
  assert (Hcap : 0 < api_cap) by (unfold api_cap; lia).
  split; [|split; [|split]].
  - pose proof (rows_explained_bound (apis info) 0 (sorted_lower fs) Hcap) as Hb.
    unfold api_cap in Hb. subst rows. unfold listed. lia.
  - intros row. apply rows_annotation.
  - destruct (rows_prefix (apis info) 0 (sorted_lower fs) Hcap) as (rest & Hfs & Hcut).
    exists rest. split; [exact Hfs|]. split.
    + intros Hrest. specialize (Hcut Hrest). unfold api_cap in Hcut.
      subst rows. unfold listed. lia.
    + intros Hrest.
      apply (rows_cut_after_explained (apis info) 0 (sorted_lower fs) rest Hcap Hfs Hrest).
  - subst rows. unfold listed.
    rewrite (rows_through (apis info) 0 (sorted_lower fs) Hcap).
    reflexivity.
Qed.

(** C8. A library whose lower-cased name is not a key of the catalog
    contributes nothing to the body of either report: its block is empty,
    and the body is the one the table without that library gives. *)
Theorem unknown_library_is_omitted (nd : dict dll_info) (dll : string)
  (fs : list string) (before after : table) :
  dict_mem (Str.lower dll) nd = false ->
  Text.dll_block nd (dll, fs) = []
  /\ Html.dll_block nd (dll, fs) = []
  /\ Text.body (before ++ (dll, fs) :: after)%list nd
     = Text.body (before ++ after)%list nd
  /\ Html.body (before ++ (dll, fs) :: after)%list nd
     = Html.body (before ++ after)%list nd.
Proof.
  unfold dict_mem. intros H.
  assert (Ht : Text.dll_block nd (dll, fs) = []).
  { unfold Text.dll_block. destruct (dict_get (Str.lower dll) nd); [discriminate | reflexivity]. }
  assert (Hh : Html.dll_block nd (dll, fs) = []).
  { unfold Html.dll_block. destruct (dict_get (Str.lower dll) nd); [discriminate | reflexivity]. }
  split; [exact Ht|]. split; [exact Hh|].
  unfold Text.body, Html.body. rewrite !flat_map_app. cbn [flat_map].
  now rewrite Ht, Hh.
Qed.

Lemma cap_on_explained_functions_witness :
  let info :=
    extend_apis
      {| explanation :=
           "Provides core system functions such as memory management, process/thread creation, file I/O, and synchronization.";
         apis := kernel32_apis |} 100 in
  length (filter explained (listed (apis info) (keys kernel32_apis))) <= 20.
Proof.
  intros info.
  destruct (cap_on_explained_functions dll_api_explanations "KERNEL32.dll"
              (keys kernel32_apis) info) as (_ & _ & Hcap & _).
  - vm_compute. reflexivity.
  - exact Hcap.
Defined.

(** C1 as stated fails: Winsock imported through 21 ordinals gets all 21
    of them listed, in the text report and in the HTML one. *)
Lemma more_than_twenty_listed :
  let fs :=
    [ "Ordinal_1"; "Ordinal_10"; "Ordinal_11"; "Ordinal_12"; "Ordinal_13";
      "Ordinal_14"; "Ordinal_15"; "Ordinal_16"; "Ordinal_17"; "Ordinal_18";
      "Ordinal_19"; "Ordinal_2"; "Ordinal_20"; "Ordinal_21"; "Ordinal_3";
      "Ordinal_4"; "Ordinal_5"; "Ordinal_6"; "Ordinal_7"; "Ordinal_8";
      "Ordinal_9" ] in
  extract_and_sort_imports (LiefPE pe_by_ordinal) = Ok [ ("WS2_32.dll", fs) ]
  /\ Text.dll_block dll_api_explanations ("WS2_32.dll", fs) =
       "WS2_32.dll:"
         :: "    DLL Explanation: Implements the Windows Sockets API for network communications."
         :: List.app (map Text.unknown_line fs) [ "" ]
  /\ Html.dll_block dll_api_explanations ("WS2_32.dll", fs) =
       "<h2>WS2_32.dll</h2>"
         :: "<p><strong>DLL Explanation:</strong> Implements the Windows Sockets API for network communications.</p>"
         :: "<table>"
         :: Html.table_head
         :: List.app (map Html.unknown_row fs) [ "</table>" ]
  /\ ~ length fs <= 20.
Proof.
  intros fs. repeat split; try (vm_compute; reflexivity).
  subst fs. simpl. lia.
Qed.

Lemma unknown_library_is_omitted_witness :
  let kernel32 :=
    ("KERNEL32.dll", [ "closehandle"; "CreateFile"; "ExitProcess"; "VirtualAlloc" ]) in
  let winsock := ("WS2_32.dll", [ "connect"; "Ordinal_115" ]) in
  Text.body [ kernel32; ("mscoree.dll", [ "_CorExeMain" ]); winsock ]
    dll_api_explanations
  = Text.body [ kernel32; winsock ] dll_api_explanations.
Proof.
  intros kernel32 winsock.
  destruct (unknown_library_is_omitted dll_api_explanations "mscoree.dll"
              [ "_CorExeMain" ] [ kernel32 ] [ winsock ]) as (_ & _ & Hbody & _).
  - vm_compute. reflexivity.
  - exact Hbody.
Defined.

(** ** HTML escaping *)

Lemma string_app_assoc (a b c : string) : (a ++ b) ++ c = a ++ (b ++ c).
Proof. induction a as [|x a IH]; simpl; [reflexivity | now rewrite IH]. Qed.

Lemma replace_char_app (c : ascii) (by_ a b : string) :
  replace_char c by_ (a ++ b) = replace_char c by_ a ++ replace_char c by_ b.
Proof.
  induction a as [|x a IH]; simpl; [reflexivity|].
  destruct (Ascii.eqb x c); simpl; rewrite IH; [|reflexivity].
  now rewrite string_app_assoc.
Qed.

Lemma html_escape_app (a b : string) :
  html_escape (a ++ b) = html_escape a ++ html_escape b.
Proof. unfold html_escape. now rewrite !replace_char_app. Qed.

Lemma html_escape_cons (c : ascii) (s : string) :
  html_escape (String c s) = html_escape (String c EmptyString) ++ html_escape s.
Proof. apply (html_escape_app (String c EmptyString) s). Qed.

(** [html.escape] character by character: the five special characters
    become character references, every other one stays. *)
Lemma html_escape_char (c : ascii) :
  html_escape (String c EmptyString) =
  if Ascii.eqb c "&" then "&amp;"
  else if Ascii.eqb c "<" then "&lt;"
  else if Ascii.eqb c ">" then "&gt;"
  else if Ascii.eqb c dquote then "&quot;"
  else if Ascii.eqb c squote then "&#x27;"
  else String c EmptyString.
Proof. destruct c as [[] [] [] [] [] [] [] []]; reflexivity. Qed.

Lemma inert_after_char (c : ascii) (t : string) :
  inert (html_escape (String c EmptyString) ++ t) = inert t.
Proof.
  rewrite html_escape_char.
  destruct c as [[] [] [] [] [] [] [] []]; reflexivity.
Qed.

Lemma html_escape_inert (s : string) : inert (html_escape s) = true.
Proof.
  induction s as [|c s IH]; [reflexivity|].
  now rewrite html_escape_cons, inert_after_char.
Qed.

Lemma inert_no_bracket (t : string) :
  inert t = true -> has_char "<" t = false /\ has_char ">" t = false.
Proof.
  induction t as [|c t IH]; simpl; [auto|].
  destruct (Ascii.eqb_spec c "&") as [->|Hamp].
  - rewrite andb_true_iff. intros (_ & Ht). simpl. auto.
  - rewrite !andb_true_iff, !negb_true_iff.
    intros ((((Hlt & Hgt) & _) & _) & Ht).
    rewrite Hlt, Hgt. simpl. auto.
Qed.

Lemma tags_from_text (t s : string) :
  has_char "<" t = false -> tags_from None (t ++ s) = tags_from None s.
Proof.
  induction t as [|c t IH]; simpl; [reflexivity|].
  rewrite orb_false_iff. intros (-> & Ht). auto.
Qed.

Lemma tags_h2 (t : string) :
  inert t = true -> tags ("<h2>" ++ t ++ "</h2>") = [ "<h2>"; "</h2>" ].
Proof.
  intros H. apply inert_no_bracket in H. destruct H as (H & _).
  unfold tags. simpl. now rewrite tags_from_text.
Qed.

Lemma tags_p (t : string) :
  inert t = true ->
  tags ("<p><strong>DLL Explanation:</strong> " ++ t ++ "</p>")
  = [ "<p>"; "<strong>"; "</strong>"; "</p>" ].
Proof.
  intros H. apply inert_no_bracket in H. destruct H as (H & _).
  unfold tags. simpl. now rewrite tags_from_text.
Qed.

Lemma tags_row (t u : string) :
  inert t = true -> inert u = true ->
  tags ("<tr><td>" ++ t ++ "</td><td>" ++ u ++ "</td></tr>")
  = [ "<tr>"; "<td>"; "</td>"; "<td>"; "</td>"; "</tr>" ].
Proof.
  intros Ht Hu.
  apply inert_no_bracket in Ht. destruct Ht as (Ht & _).
  apply inert_no_bracket in Hu. destruct Hu as (Hu & _).
  unfold tags. simpl. rewrite tags_from_text by exact Ht.
  simpl. now rewrite tags_from_text.
Qed.

Lemma tags_row_empty (t : string) :
  inert t = true ->
  tags ("<tr><td>" ++ t ++ "</td><td></td></tr>")
  = [ "<tr>"; "<td>"; "</td>"; "<td>"; "</td>"; "</tr>" ].
Proof.
  intros Ht. apply inert_no_bracket in Ht. destruct Ht as (Ht & _).
  unfold tags. simpl. now rewrite tags_from_text.
Qed.

Lemma html_line_tags (l : string) : html_line l -> In (tags l) html_skeletons.
Proof.
  intros [l' H | t Ht | t Ht | t u Ht Hu | t Ht].
  - unfold html_static_lines in H. simpl in H.
    repeat (destruct H as [<-|H]; [vm_compute; pick_skeleton|]).
    destruct H.
  - rewrite tags_h2 by exact Ht. pick_skeleton.
  - rewrite tags_p by exact Ht. pick_skeleton.
  - rewrite tags_row by assumption. pick_skeleton.
  - rewrite tags_row_empty by exact Ht. pick_skeleton.
Qed.

Lemma html_row_line (row : string * option string) :
  html_line (format_row Html.known_row Html.unknown_row row).
Proof.
  destruct row as [api [e|]]; unfold format_row; simpl.
  - apply line_row; apply html_escape_inert.
  - apply line_row_empty; apply html_escape_inert.
Qed.

Lemma html_static (l : string) : In l html_static_lines -> html_line l.
Proof. apply line_static. Qed.

Lemma html_block_lines (nd : dict dll_info) (item : string * list string)
  (line : string) :
  In line (Html.dll_block nd item) -> html_line line.
Proof.
  destruct item as [dll fs].
  destruct (dict_get (Str.lower dll) nd) as [info|] eqn:E.
  - rewrite (html_block_known nd dll fs info E).
    intros [<-|[<-|[<-|[<-|H]]]].
    + apply line_h2, html_escape_inert.
    + apply line_p, html_escape_inert.
    + apply html_static. vm_compute. tauto.
    + apply html_static. vm_compute. tauto.
    + apply in_app_or in H. destruct H as [H|[<-|[]]].
      * apply in_map_iff in H. destruct H as (row & <- & _).
        apply html_row_line.
      * apply html_static. vm_compute. tauto.
  - unfold Html.dll_block. rewrite E. intros [].
Qed.

Lemma html_dangerous_lines (nd : dict dll_info) (ds : list string) (line : string) :
  In line (Html.dangerous_section nd ds) -> html_line line.
Proof.
  unfold Html.dangerous_section. destruct (nonempty ds); [|intros []].
  cbn [List.app In].
  intros [<-|[<-|[<-|H]]]; try (apply html_static; vm_compute; tauto).
  apply in_app_or in H. destruct H as [H|[<-|[]]].
  - apply in_map_iff in H. destruct H as (func & <- & _).
    unfold Html.dangerous_row.
    destruct (shown_explanation nd func) as [e|].
    + apply line_row; apply html_escape_inert.
    + apply line_row_empty; apply html_escape_inert.
  - apply html_static. vm_compute. tauto.
Qed.

(** C10. Every line of the HTML report is fixed markup, or fixed markup
    around text that went through [html.escape] and is therefore inert (no
    angle bracket, no quote, every ampersand opening a character
    reference). The tags of a line are those of the renderer's own
    templates whatever the library names, function names and explanations
    contain. *)
Theorem html_report_has_no_injected_markup (tbl : table) (nd : dict dll_info)
  (ds : list string) (line : string) :
  In line (Html.lines tbl nd ds) ->
  html_line line /\ In (tags line) html_skeletons.
Proof.
  intros Hin.
  assert (H : html_line line).
  { unfold Html.lines in Hin.
    apply in_app_or in Hin. destruct Hin as [Hin|Hin].
    - apply html_static. unfold html_static_lines. apply in_or_app. now left.
    - apply in_app_or in Hin. destruct Hin as [Hin|Hin].
      + unfold Html.body in Hin. apply in_flat_map in Hin.
        destruct Hin as (item & _ & Hin). now apply html_block_lines in Hin.
      + apply in_app_or in Hin. destruct Hin as [Hin|[<-|[]]].
        * now apply html_dangerous_lines in Hin.
        * apply html_static. vm_compute. tauto. }
  split; [exact H | now apply html_line_tags].
Qed.

Lemma html_report_has_no_injected_markup_witness :
  let line := "<tr><td>&lt;script&gt;alert(1)&lt;/script&gt;</td><td></td></tr>" in
  html_line line /\ In (tags line) html_skeletons.
Proof.
  intros line.
  apply (html_report_has_no_injected_markup hostile_table dll_api_explanations []).
  vm_compute. tauto.
Defined.

(** ** Runs of [main] *)

(** What the extractor raises is an [Exception], which [main] catches. *)
Lemma extract_raises_exception (parsed : lief_result) (e : exn) :
  extract_and_sort_imports parsed = Raise e -> is_exception e = true.
Proof. destruct parsed; simpl; intros [= <-]; reflexivity. Qed.

Lemma run_extract_fails (E : env) (stdin : list string) (e : exn) :
  extract_and_sort_imports (parsed E) = Raise e ->
  run E stdin = (0, [ Printed ("Error: " ++ exn_str e) ]).
Proof.
  intros H. run_main. rewrite H.
  rewrite (extract_raises_exception _ _ H). reflexivity.
Qed.

Lemma run_success (E : env) (a1 a2 a3 : string) (rest : list string) (tbl : table) :
  extract_and_sort_imports (parsed E) = Ok tbl ->
  open_error E (file_name_of E a2 a3) = None ->
  run E (a1 :: a2 :: a3 :: rest) =
    (0, [ Prompted prompt1; Prompted prompt2; Prompted (prompt3 E a2);
          FileWritten (file_name_of E a2 a3) (report_of E tbl a1 a2);
          Printed ("Output saved to " ++ file_name_of E a2 a3) ]).
Proof.
  intros H Hopen. run_main. rewrite H.
  change (Str.or_else (Str.strip a3)
            (splitext_root (basename (file_path E))
             ++ (if said_yes a2 then ".html" else ".txt")))
    with (file_name_of E a2 a3).
  rewrite Hopen. reflexivity.
Qed.

Lemma run_open_fails (E : env) (a1 a2 a3 : string) (rest : list string)
  (tbl : table) (text : string) :
  extract_and_sort_imports (parsed E) = Ok tbl ->
  open_error E (file_name_of E a2 a3) = Some text ->
  run E (a1 :: a2 :: a3 :: rest) =
    (0, [ Prompted prompt1; Prompted prompt2; Prompted (prompt3 E a2);
          Printed ("Error: " ++ text) ]).
Proof.
  intros H Hopen. run_main. rewrite H.
  change (Str.or_else (Str.strip a3)
            (splitext_root (basename (file_path E))
             ++ (if said_yes a2 then ".html" else ".txt")))
    with (file_name_of E a2 a3).
  rewrite Hopen. reflexivity.
Qed.

Lemma run_end_of_input (E : env) (stdin : list string) (tbl : table) :
  extract_and_sort_imports (parsed E) = Ok tbl ->
  length stdin < 3 ->
  exists prompts,
    run E stdin = (0, (map Prompted prompts
                       ++ [ Printed "Error: EOF when reading a line" ])%list).
Proof.
  intros H Hlen.
  destruct stdin as [|a1 [|a2 [|a3 rest]]]; [| | |simpl in Hlen; lia].
  - exists [ prompt1 ]. run_main. rewrite H. reflexivity.
  - exists [ prompt1; prompt2 ]. run_main. rewrite H. reflexivity.
  - exists [ prompt1; prompt2; prompt3 E a2 ]. run_main. rewrite H. reflexivity.
Qed.


(** C3, as the code has it. When LIEF does not hand back a PE binary the
    program prints one line, "Error: " followed by the text of the
    exception, does nothing else, and [main] returns: the exception is
    caught inside [main], so the exit status is 0. *)
Theorem parse_failure_is_reported (E : env) (stdin : list string) :
  (forall b, parsed E <> LiefPE b) ->
  exists e,
    extract_and_sort_imports (parsed E) = Raise e
    /\ run E stdin = (0, [ Printed ("Error: " ++ exn_str e) ]).
Proof.
  intros Hnot.
  destruct (extract_rejects_non_pe_shape (parsed E) Hnot) as (e & He).
  exists e. split; [exact He | now apply run_extract_fails].
Qed.

Lemma parse_failure_is_reported_witness :
  exists e,
    extract_and_sort_imports (parsed env_not_pe) = Raise e
    /\ run env_not_pe [ "y"; "n" ] = (0, [ Printed ("Error: " ++ exn_str e) ]).
Proof.
  apply (parse_failure_is_reported env_not_pe [ "y"; "n" ]).
  simpl. discriminate.
Defined.

(** C3 as stated fails on the exit status: on a file that is not a PE
    image the run prints the error and ends with status 0. *)
Lemma parse_failure_exit_status_is_zero :
  extract_and_sort_imports (parsed env_not_pe)
    = Raise (Exn ValueError "Not a valid PE file.")
  /\ run env_not_pe [] = (0, [ Printed "Error: Not a valid PE file." ])
  /\ ~ fst (run env_not_pe []) <> 0.
Proof.
  split; [reflexivity|]. split; [reflexivity|].
  intros H. apply H. reflexivity.
Qed.

(** C9. When extraction fails no file is written, whatever is typed; and
    whenever a file is written, extraction had succeeded and the three
    prompts had been answered before it. *)
Theorem file_written_only_after_success (E : env) (stdin : list string) :
  ((forall tbl, extract_and_sort_imports (parsed E) <> Ok tbl) ->
   forall name content, ~ In (FileWritten name content) (snd (run E stdin)))
  /\ (forall name content,
         In (FileWritten name content) (snd (run E stdin)) ->
         exists tbl a1 a2 a3 rest,
           extract_and_sort_imports (parsed E) = Ok tbl
           /\ stdin = a1 :: a2 :: a3 :: rest
           /\ snd (run E stdin) =
                [ Prompted prompt1; Prompted prompt2; Prompted (prompt3 E a2);
                  FileWritten name content;
                  Printed ("Output saved to " ++ name) ]).
Proof.
  destruct (extract_and_sort_imports (parsed E)) as [tbl|e] eqn:Hx.
  - split; [intros H; now destruct (H tbl)|].
    intros name content Hin.
    destruct (Nat.lt_ge_cases (length stdin) 3) as [Hshort|Hlong].
    + destruct (run_end_of_input E stdin tbl Hx Hshort) as (prompts & Hrun).
      rewrite Hrun in Hin. simpl in Hin.
      apply in_app_or in Hin. destruct Hin as [Hin|[Hin|[]]]; [|discriminate].
      apply in_map_iff in Hin. destruct Hin as (p & Hp & _). discriminate.
    + destruct stdin as [|a1 [|a2 [|a3 rest]]]; try (simpl in Hlong; lia).
      destruct (open_error E (file_name_of E a2 a3)) as [text|] eqn:Hopen.
      * rewrite (run_open_fails E a1 a2 a3 rest tbl text Hx Hopen) in Hin.
        simpl in Hin. repeat (destruct Hin as [Hin|Hin]; [discriminate|]).
        destruct Hin.
      * rewrite (run_success E a1 a2 a3 rest tbl Hx Hopen) in Hin |- *.
        simpl in Hin.
        destruct Hin as [Hin|[Hin|[Hin|[Hin|[Hin|[]]]]]]; try discriminate.
        injection Hin as <- <-.
        exists tbl, a1, a2, a3, rest. auto.
  - split; [|intros name content Hin].
    + intros _ name content Hin.
      rewrite (run_extract_fails E stdin e Hx) in Hin. simpl in Hin.
      destruct Hin as [Hin|[]]. discriminate.
    + rewrite (run_extract_fails E stdin e Hx) in Hin. simpl in Hin.
      destruct Hin as [Hin|[]]. discriminate.
Qed.

Lemma file_written_only_after_success_witness :
  run env_not_pe [ "y"; "n"; "report.txt" ]
    = (0, [ Printed "Error: Not a valid PE file." ])
  /\ ~ In (FileWritten "report.txt" "")
         (snd (run env_not_pe [ "y"; "n"; "report.txt" ])).
Proof.
  split; [reflexivity|].
  apply (proj1 (file_written_only_after_success env_not_pe
                  [ "y"; "n"; "report.txt" ])).
  simpl. discriminate.
Defined.

(** ** The dangerous-function section *)

Lemma str_in_In (x : string) (xs : list string) :
  str_in x xs = true <-> In x xs.
Proof.
  unfold str_in. rewrite existsb_exists. split.
  - intros (y & Hy & E). apply String.eqb_eq in E. now subst.
  - intros H. exists x. split; [exact H | apply String.eqb_refl].
Qed.

Lemma set_add_In (x y : string) (s : list string) :
  In x (set_add y s) <-> x = y \/ In x s.
Proof.
  unfold set_add. destruct (str_in y s) eqn:E.
  - apply str_in_In in E. split; [auto | intros [->|H]; auto].
  - rewrite in_app_iff. simpl. intuition.
Qed.

Lemma find_dangerous_In (tbl : table) (api : string) :
  In api (find_dangerous tbl) <->
  exists dll fs,
    In (dll, fs) tbl /\ In api fs
    /\ str_in (Str.lower api) dangerous_functions = true.
Proof.
  unfold find_dangerous.
  set (inner := fun found api =>
                  if str_in (Str.lower api) dangerous_functions
                  then set_add api found else found).
  assert (Hinner : forall fs found,
             In api (fold_left inner fs found) <->
             In api found
             \/ (In api fs /\ str_in (Str.lower api) dangerous_functions = true)).
  { induction fs as [|f fs IH]; intros found; cbn [fold_left In]; [tauto|].
    rewrite IH. unfold inner.
    destruct (str_in (Str.lower f) dangerous_functions) eqn:E.
    - rewrite set_add_In. split.
      + intros [[->|H]|[H1 H2]]; auto.
      + intros [H|[[->|H1] H2]]; auto.
    - split.
      + intros [H|[H1 H2]]; auto.
      + intros [H|[[Hf|H1] H2]]; auto.
        subst f. rewrite H2 in E. discriminate. }
  assert (Houter : forall (t : table) found,
             In api (fold_left
                       (fun found (item : string * list string) =>
                          fold_left inner (snd item) found)
                       t found) <->
             In api found
             \/ exists dll fs,
                 In (dll, fs) t /\ In api fs
                 /\ str_in (Str.lower api) dangerous_functions = true).
  { induction t as [|[dll fs] t IH]; intros found; cbn [fold_left In snd].
    - split; [auto | intros [H|(? & ? & [] & _)]; exact H].
    - rewrite IH, Hinner. split.
      + intros [[H|[H1 H2]]|(d & l & H1 & H2)]; auto.
        * right. exists dll, fs. auto.
        * right. exists d, l. auto.
      + intros [H|(d & l & [[= -> ->]|H1] & H2 & H3)]; auto.
        right. exists d, l. auto. }
  rewrite Houter. cbn [In]. split; [intros [[]|H]; exact H | auto].
Qed.

Lemma nonempty_In {A : Type} (x : A) (l : list A) : In x l -> nonempty l = true.
Proof. destruct l; [intros [] | reflexivity]. Qed.

Lemma lower_is_y (s : string) : Str.lower s = "y" <-> s = "y" \/ s = "Y".
Proof.
  destruct s as [|c [|c' r]].
  - simpl. split; [discriminate | intros [H|H]; discriminate].
  - destruct c as [[] [] [] [] [] [] [] []];
      (split; [intros H; vm_compute in H; try discriminate; auto
              | intros [H|H]; try discriminate; reflexivity]).
  - simpl. split; [discriminate | intros [H|H]; discriminate].
Qed.

Lemma said_yes_typed (answer : string) : said_yes answer = true <-> typed_y answer.
Proof. unfold said_yes, typed_y. rewrite String.eqb_eq. apply lower_is_y. Qed.

Lemma said_no_typed (answer : string) : said_yes answer = false <-> ~ typed_y answer.
Proof.
  rewrite <- said_yes_typed. destruct (said_yes answer); split; congruence.
Qed.

Lemma shown_in_dangerous_sections (nd : dict dll_info) (shown : list string)
  (api : string) :
  In api shown ->
  In (Text.dangerous_line nd api) (Text.dangerous_section nd shown)
  /\ In (Html.dangerous_row nd api) (Html.dangerous_section nd shown).
Proof.
  intros Hin.
  assert (Hsorted : In api (sorted_lower shown)).
  { now apply (proj2 (sorted_lower_In _ _)). }
  unfold Text.dangerous_section, Html.dangerous_section.
  rewrite (nonempty_In api _ Hin). split.
  - right. now apply in_map.
  - cbn [List.app In]. do 3 right. apply in_or_app. left. now apply in_map.
Qed.

(** C6. In the report a run writes, the dangerous-function section is
    rendered from the dangerous functions found in the table, in whatever
    order the set yields them, when y or Y was typed at the first prompt
    (blanks around it apart), and from nothing otherwise. So a function
    of the table whose lower-cased name is in the dangerous list has its
    entry in the section (four blanks and its name, followed by a
    colon and its explanation when the catalog has one; in HTML, the row
    with its escaped name) exactly when y or Y was typed. *)
Theorem dangerous_section_iff_opted_in (E : env) (a1 a2 a3 : string)
  (rest : list string) (tbl : table) (name content : string) :
  extract_and_sort_imports (parsed E) = Ok tbl ->
  In (FileWritten name content) (snd (run E (a1 :: a2 :: a3 :: rest))) ->
  exists shown,
    (typed_y a1 -> Permutation (find_dangerous tbl) shown)
    /\ (~ typed_y a1 -> shown = [])
    /\ (typed_y a2 ->
        content =
          Str.join newline
            (Html.header ++ Html.body tbl dll_api_explanations
             ++ Html.dangerous_section dll_api_explanations shown
             ++ [ "</body></html>" ])%list)
    /\ (~ typed_y a2 ->
        content =
          Str.join newline
            (Text.body tbl dll_api_explanations
             ++ Text.dangerous_section dll_api_explanations shown)%list)
    /\ forall dll fs api,
         In (dll, fs) tbl -> In api fs ->
         In (Str.lower api) dangerous_functions ->
         (In (match shown_explanation dll_api_explanations api with
              | Some e => "    " ++ api ++ ": " ++ e
              | None => "    " ++ api
              end)
             (Text.dangerous_section dll_api_explanations shown)
          <-> typed_y a1)
         /\ (In (match shown_explanation dll_api_explanations api with
                 | Some e =>
                     "<tr><td>" ++ html_escape api ++ "</td><td>"
                     ++ html_escape e ++ "</td></tr>"
                 | None => "<tr><td>" ++ html_escape api ++ "</td><td></td></tr>"
                 end)
                (Html.dangerous_section dll_api_explanations shown)
             <-> typed_y a1).
Proof.
  intros Hx Hin.
  exists (dangerous_shown E tbl a1).
  split; [|split; [|split; [|split]]].
  - intros Hy. apply said_yes_typed in Hy. unfold dangerous_shown. rewrite Hy.
    apply set_order_perm.
  - intros Hn. apply said_no_typed in Hn. unfold dangerous_shown. now rewrite Hn.
  - intros Hy. apply said_yes_typed in Hy.
    destruct (open_error E (file_name_of E a2 a3)) as [text|] eqn:Hopen.
    + rewrite (run_open_fails E a1 a2 a3 rest tbl text Hx Hopen) in Hin.
      cbn [snd In] in Hin.
      repeat (destruct Hin as [Hin|Hin]; [discriminate|]). destruct Hin.
    + rewrite (run_success E a1 a2 a3 rest tbl Hx Hopen) in Hin.
      cbn [snd In] in Hin.
      destruct Hin as [Hin|[Hin|[Hin|[Hin|[Hin|[]]]]]]; try discriminate.
      injection Hin as _ <-.
      unfold report_of. rewrite Hy. reflexivity.
  - intros Hn. apply said_no_typed in Hn.
    destruct (open_error E (file_name_of E a2 a3)) as [text|] eqn:Hopen.
    + rewrite (run_open_fails E a1 a2 a3 rest tbl text Hx Hopen) in Hin.
      cbn [snd In] in Hin.
      repeat (destruct Hin as [Hin|Hin]; [discriminate|]). destruct Hin.
    + rewrite (run_success E a1 a2 a3 rest tbl Hx Hopen) in Hin.
      cbn [snd In] in Hin.
      destruct Hin as [Hin|[Hin|[Hin|[Hin|[Hin|[]]]]]]; try discriminate.
      injection Hin as _ <-.
      unfold report_of. rewrite Hn. reflexivity.
  - intros dll fs api Htbl Hfs Hdanger.
    change (match shown_explanation dll_api_explanations api with
            | Some e => "    " ++ api ++ ": " ++ e
            | None => "    " ++ api
            end)
      with (Text.dangerous_line dll_api_explanations api).
    change (match shown_explanation dll_api_explanations api with
            | Some e =>
                "<tr><td>" ++ html_escape api ++ "</td><td>"
                ++ html_escape e ++ "</td></tr>"
            | None => "<tr><td>" ++ html_escape api ++ "</td><td></td></tr>"
            end)
      with (Html.dangerous_row dll_api_explanations api).
    assert (Hfound : In api (find_dangerous tbl)).
    { apply find_dangerous_In. exists dll, fs.
      split; [exact Htbl|]. split; [exact Hfs | now apply str_in_In]. }
    unfold dangerous_shown. destruct (said_yes a1) eqn:Hs.
    + apply said_yes_typed in Hs.
      assert (Hshown : In api (set_order E (find_dangerous tbl))).
      { eapply Permutation_in; [apply set_order_perm | exact Hfound]. }
      destruct (shown_in_dangerous_sections dll_api_explanations _ api Hshown)
        as (Ht & Hh).
      split; (split; [intros _; exact Hs | intros _; assumption]).
    + apply said_no_typed in Hs.
      split; (split; [intros [] | intros Hy; contradiction]).
Qed.

Lemma dangerous_section_iff_opted_in_witness :
  exists shown,
    Permutation (find_dangerous (table_of pe_case_pair)) shown
    /\ In "    VirtualAlloc: Reserves or commits a region of pages in the virtual address space."
         (Text.dangerous_section dll_api_explanations shown)
    /\ In "    virtualalloc: Reserves or commits a region of pages in the virtual address space."
         (Text.dangerous_section dll_api_explanations shown).
Proof.
  assert (Hy : typed_y " Y ") by (right; reflexivity).
  destruct (dangerous_section_iff_opted_in env_reversed " Y " "n" "" []
              (table_of pe_case_pair) "dropper.txt"
              (report_of env_reversed (table_of pe_case_pair) " Y " "n")
              eq_refl)
    as (shown & Hperm & _ & _ & _ & Hall).
  - vm_compute. tauto.
  - exists shown. split; [exact (Hperm Hy)|].
    assert (H1 : (match shown_explanation dll_api_explanations "VirtualAlloc" with
                  | Some e => "    " ++ "VirtualAlloc" ++ ": " ++ e
                  | None => "    " ++ "VirtualAlloc"
                  end)
                 = "    VirtualAlloc: Reserves or commits a region of pages in the virtual address space.")
      by (vm_compute; reflexivity).
    assert (H2 : (match shown_explanation dll_api_explanations "virtualalloc" with
                  | Some e => "    " ++ "virtualalloc" ++ ": " ++ e
                  | None => "    " ++ "virtualalloc"
                  end)
                 = "    virtualalloc: Reserves or commits a region of pages in the virtual address space.")
      by (vm_compute; reflexivity).
    split.
    + rewrite <- H1.
      apply (proj1 (Hall "kernel32.dll" [ "VirtualAlloc"; "virtualalloc" ]
                      "VirtualAlloc" (or_introl eq_refl) (or_introl eq_refl)
                      ltac:(vm_compute; tauto))).
      exact Hy.
    + rewrite <- H2.
      apply (proj1 (Hall "kernel32.dll" [ "VirtualAlloc"; "virtualalloc" ]
                      "virtualalloc" (or_introl eq_refl)
                      (or_intror (or_introl eq_refl))
                      ltac:(vm_compute; tauto))).
      exact Hy.
Defined.

(** * Further properties *)

(** ** Sorting twice, and the order of equal keys *)

Lemma sorted_by_fixed (key : string -> string) (l : list string) :
  StronglySorted (key_order key) l -> sorted_by key l = l.
Proof.
  induction 1 as [|x l Hs IH Hall]; simpl; [reflexivity|].
  rewrite IH. destruct l as [|y r]; simpl; [reflexivity|].
  inversion Hall as [|? ? Hxy _]; subst.
  unfold key_order in Hxy. now rewrite Hxy.
Qed.

(** X1. Sorting case-insensitively a second time changes nothing: the
    [sorted] call of the renderers leaves every list the extractor
    returned as it is. *)
Theorem second_sort_is_identity (l : list string) :
  sorted_lower (sorted_lower l) = sorted_lower l.
Proof. apply sorted_by_fixed, (sorted_by_sorted Str.lower). Qed.

Lemma insert_by_filter (key : string -> string) (k x : string) (l : list string) :
  filter (fun f => String.eqb (key f) k) (insert_by key x l) =
  filter (fun f => String.eqb (key f) k) (x :: l).
Proof.
  induction l as [|y l IH]; [reflexivity|].
  cbn [insert_by]. destruct (key_le key x y) eqn:Hxy; [reflexivity|].
  cbn [filter] in *.
  destruct (String.eqb_spec (key y) k) as [Hy|Hy];
    destruct (String.eqb_spec (key x) k) as [Hx|Hx]; rewrite IH; try reflexivity.
  exfalso. unfold key_le in Hxy. rewrite Hx, <- Hy in Hxy.
  now rewrite string_leb_refl in Hxy.
Qed.

Lemma sorted_by_filter (key : string -> string) (k : string) (l : list string) :
  filter (fun f => String.eqb (key f) k) (sorted_by key l) =
  filter (fun f => String.eqb (key f) k) l.
Proof.
  induction l as [|x l IH]; [reflexivity|].
  cbn [sorted_by]. rewrite insert_by_filter. cbn [filter]. now rewrite IH.
Qed.

(** X2. The sort is stable: in the list returned for a library, the names
    that are equal up to case stand in the order the import table has
    them. *)
Theorem equal_keys_keep_import_order (b : Binary) (tbl : table) :
  extract_and_sort_imports (LiefPE b) = Ok tbl ->
  forall dll fs k,
    In (dll, fs) tbl ->
    filter (same_key k) fs = filter (same_key k) (entries_for dll (imports b)).
Proof.
  rewrite extract_PE. intros [= <-] dll fs k Hin.
  apply In_table_of in Hin. destruct Hin as (_ & ->).
  apply (sorted_by_filter Str.lower (Str.lower k)).
Qed.

Lemma equal_keys_keep_import_order_witness :
  extract_and_sort_imports (LiefPE pe_case_variants) =
    Ok [ ("kernel32.dll",
          [ "Beep"; "loadlibrary"; "LoadLibrary"; "LOADLIBRARY"; "Sleep" ]) ]
  /\ filter (same_key "LoadLibrary")
       [ "Beep"; "loadlibrary"; "LoadLibrary"; "LOADLIBRARY"; "Sleep" ]
     = [ "loadlibrary"; "LoadLibrary"; "LOADLIBRARY" ].
Proof.
  split; [reflexivity|].
  apply (equal_keys_keep_import_order pe_case_variants (table_of pe_case_variants)
           (extract_PE _) "kernel32.dll").
  simpl. auto.
Defined.

(** ** Looking a library up in the table *)

Lemma dict_get_map_keys (g : string -> list string) (k : string) (ks : list string) :
  dict_get k (map (fun dll => (dll, g dll)) ks) =
  if str_in k ks then Some (g k) else None.
Proof.
  unfold str_in.
  induction ks as [|x ks IH]; cbn [map dict_get existsb]; [reflexivity|].
  rewrite (String.eqb_sym k x).
  destruct (String.eqb_spec x k) as [->|Hne]; [reflexivity | exact IH].
Qed.

Lemma str_in_congr (k : string) (l l' : list string) :
  (forall x, In x l <-> In x l') -> str_in k l = str_in k l'.
Proof.
  intros H. destruct (str_in k l) eqn:E; symmetry.
  - apply str_in_In. apply H. now apply str_in_In.
  - destruct (str_in k l') eqn:E'; [|reflexivity].
    apply str_in_In, H, str_in_In in E'. congruence.
Qed.

(** X3. Looking up a library name in the returned table gives the sorted
    names of all entries of the descriptors with that name, and nothing
    for a name no descriptor has; the lookup is case-sensitive. *)
Theorem table_lookup (b : Binary) (tbl : table) :
  extract_and_sort_imports (LiefPE b) = Ok tbl ->
  forall dll,
    dict_get dll tbl =
    if str_in dll (map dll_name_of (imports b))
    then Some (sorted_lower (entries_for dll (imports b)))
    else None.
Proof.
  rewrite extract_PE. intros [= <-] dll.
  unfold table_of. rewrite dict_get_map_keys.
  rewrite (str_in_congr dll _ (map dll_name_of (imports b))); [reflexivity|].
  intros x. rewrite sorted_lower_In. apply collect_imports_keys.
Qed.

Lemma table_lookup_witness :
  dict_get "WS2_32.dll" (table_of pe_sample) = Some [ "connect"; "Ordinal_115" ]
  /\ dict_get "ws2_32.dll" (table_of pe_sample) = None.
Proof.
  split.
  - apply (table_lookup pe_sample (table_of pe_sample) (extract_PE _) "WS2_32.dll").
  - apply (table_lookup pe_sample (table_of pe_sample) (extract_PE _) "ws2_32.dll").
Defined.

(** ** Nothing is lost between the import table and the returned table *)

Lemma concat_map_app_perm {K : Type} (f g : K -> list string) (ks : list K) :
  Permutation (concat (map (fun k => (f k ++ g k)%list) ks))
              (concat (map f ks) ++ concat (map g ks))%list.
Proof.
  induction ks as [|k ks IH]; cbn [map concat]; [apply perm_nil|].
  rewrite <- !app_assoc. apply Permutation_app_head.
  eapply perm_trans; [apply Permutation_app_head, IH|].
  rewrite !app_assoc. apply Permutation_app_tail, Permutation_app_comm.
Qed.

Lemma concat_map_sorted_perm (f : string -> list string) (ks : list string) :
  Permutation (concat (map (fun k => sorted_lower (f k)) ks)) (concat (map f ks)).
Proof.
  induction ks as [|k ks IH]; cbn [map concat]; [apply perm_nil|].
  apply Permutation_app; [apply Permutation_sym, sorted_lower_perm | exact IH].
Qed.

Lemma concat_map_pick (n : string) (E : list string) (ks : list string) :
  NoDup ks ->
  concat (map (fun k => if String.eqb n k then E else []) ks) =
  if str_in n ks then E else [].
Proof.
  unfold str_in.
  induction 1 as [|k ks Hnotin _ IH]; cbn [map concat existsb]; [reflexivity|].
  rewrite IH. destruct (String.eqb_spec n k) as [->|Hne]; simpl; [|reflexivity].
  destruct (existsb (String.eqb k) ks) eqn:Hk; [|now rewrite app_nil_r].
  exfalso. apply Hnotin. now apply str_in_In.
Qed.

Lemma entries_by_key_perm (imps : list Import) (ks : list string) :
  NoDup ks ->
  (forall imp, In imp imps -> In (dll_name_of imp) ks) ->
  Permutation (concat (map (fun k => entries_for k imps) ks)) (all_entries imps).
Proof.
  intros Hnd. induction imps as [|imp imps IH]; intros Hcover.
  - unfold entries_for, all_entries. cbn [flat_map].
    clear Hnd Hcover.
    induction ks as [|k ks IHk]; cbn [map concat]; [apply perm_nil | exact IHk].
  - unfold entries_for, all_entries in *. cbn [flat_map].
    eapply perm_trans; [apply concat_map_app_perm|].
    apply Permutation_app.
    + rewrite concat_map_pick by exact Hnd.
      assert (Hin : In (dll_name_of imp) ks) by (apply Hcover; now left).
      apply str_in_In in Hin. rewrite Hin. apply Permutation_refl.
    + apply IH. intros imp' Himp'. apply Hcover. now right.
Qed.

Lemma all_entries_length (imps : list Import) :
  length (all_entries imps) = length (flat_map imp_entries imps).
Proof.
  unfold all_entries. induction imps as [|imp imps IH]; [reflexivity|].
  cbn [flat_map]. now rewrite !length_app, length_map, IH.
Qed.

(** X4. The returned table holds every import entry once: its function
    lists, put end to end, are a rearrangement of the names of all entries
    of the import table, so the number of names in the table is the number
    of import entries of the PE. *)
Theorem table_holds_every_entry_once (b : Binary) (tbl : table) :
  extract_and_sort_imports (LiefPE b) = Ok tbl ->
  Permutation (concat (values tbl)) (all_entries (imports b))
  /\ length (concat (values tbl))
     = length (flat_map imp_entries (imports b)).
Proof.
  rewrite extract_PE. intros [= <-].
  assert (Hperm : Permutation (concat (values (table_of b)))
                    (all_entries (imports b))).
  { unfold table_of, values. rewrite map_map. cbn [snd].
    eapply perm_trans; [apply concat_map_sorted_perm|].
    destruct (collect_imports_keys b) as (Hnd & Hkeys).
    apply entries_by_key_perm.
    - eapply Permutation_NoDup; [apply sorted_lower_perm | exact Hnd].
    - intros imp Himp. apply (proj2 (sorted_lower_In _ _)).
      apply (proj2 (Hkeys _)). now apply (in_map dll_name_of). }
  split; [exact Hperm|].
  rewrite (Permutation_length Hperm). apply all_entries_length.
Qed.

Lemma table_holds_every_entry_once_witness :
  length (concat (values (table_of pe_two_descriptors))) = 4.
Proof.
  exact (proj2 (table_holds_every_entry_once pe_two_descriptors
                  (table_of pe_two_descriptors) (extract_PE _))).
Defined.

(** ** How many functions a block lists *)

Opaque api_cap.

Lemma rows_length_bound (dll_apis : dict string) (printed : nat) (fs : list string) :
  printed < api_cap ->
  length (rows_from dll_apis printed fs) + printed
  <= api_cap + length (filter (fun f => negb (catalogued dll_apis f)) fs).
Proof.
  unfold rows_from, catalogued, dict_mem.
  revert printed; induction fs as [|f fs IH]; intros printed Hp; simpl; [lia|].
  destruct (dict_get (Str.lower f) dll_apis) as [e|]; simpl.
  - destruct (Nat.leb_spec api_cap (printed + 1)); simpl; [lia|].
    specialize (IH (printed + 1)). lia.
  - destruct (Nat.leb_spec api_cap printed); [lia|]. simpl.
    specialize (IH printed Hp). lia.
Qed.

Lemma rows_length_le (dll_apis : dict string) (printed : nat) (fs : list string) :
  length (rows_from dll_apis printed fs) <= length fs.
Proof.
  unfold rows_from.
  revert printed; induction fs as [|f fs IH]; intros printed; simpl; [lia|].
  destruct (dict_get (Str.lower f) dll_apis) as [e|]; simpl.
  - destruct (api_cap <=? printed + 1)%nat; simpl; [lia|].
    specialize (IH (printed + 1)). lia.
  - destruct (api_cap <=? printed)%nat; simpl; [lia|].
    specialize (IH printed). lia.
Qed.

Lemma rows_explained_le (dll_apis : dict string) (printed : nat) (fs : list string) :
  length (filter explained (rows_from dll_apis printed fs))
  <= length (filter (catalogued dll_apis) fs).
Proof.
  unfold rows_from, catalogued, dict_mem.
  revert printed; induction fs as [|f fs IH]; intros printed; simpl; [lia|].
  destruct (dict_get (Str.lower f) dll_apis) as [e|]; simpl.
  - destruct (api_cap <=? printed + 1)%nat; simpl; [lia|].
    specialize (IH (printed + 1)). lia.
  - destruct (api_cap <=? printed)%nat; simpl; [lia|].
    apply IH.
Qed.

Lemma rows_all_catalogued (dll_apis : dict string) (printed : nat) (fs : list string) :
  printed < api_cap ->
  forallb (catalogued dll_apis) fs = true ->
  length (rows_from dll_apis printed fs) = Nat.min (api_cap - printed) (length fs).
Proof.
  unfold rows_from, catalogued, dict_mem.
  revert printed; induction fs as [|f fs IH]; intros printed Hp; simpl; [lia|].
  destruct (dict_get (Str.lower f) dll_apis) as [e|]; simpl; [|discriminate].
  intros Hall.
  destruct (Nat.leb_spec api_cap (printed + 1)); simpl; [lia|].
  rewrite (IH (printed + 1)) by (lia || exact Hall). lia.
Qed.

Transparent api_cap.

Lemma perm_filter_length {A : Type} (p : A -> bool) (l l' : list A) :
  Permutation l l' -> length (filter p l) = length (filter p l').
Proof.
  induction 1 as [|x l l' _ IH|x y l|l l' l'' _ IH1 _ IH2]; simpl.
  - reflexivity.
  - destruct (p x); simpl; now rewrite IH.
  - destruct (p x), (p y); reflexivity.
  - now rewrite IH1.
Qed.

(** X5. The block of a library lists at most 20 functions more than the
    library has functions without a catalog entry, and never more than the
    library imports. When fewer than 20 of its functions are in the
    catalog, all its functions are listed; when all of them are, the
    listing is the first 20. *)
Theorem listing_bounds (dll_apis : dict string) (fs : list string) :
  length (listed dll_apis fs)
  <= 20 + length (filter (fun f => negb (catalogued dll_apis f)) fs)
  /\ length (listed dll_apis fs) <= length fs
  /\ (length (filter (catalogued dll_apis) fs) < 20 ->
      map fst (listed dll_apis fs) = sorted_lower fs)
  /\ (forallb (catalogued dll_apis) fs = true ->
      length (listed dll_apis fs) = Nat.min 20 (length fs)).
Proof.
  assert (Hcap : 0 < api_cap) by (unfold api_cap; lia).
  pose proof (sorted_lower_perm fs) as Hperm.
  unfold listed. split; [|split; [|split]].
  - pose proof (rows_length_bound dll_apis 0 (sorted_lower fs) Hcap) as H.
    rewrite <- (perm_filter_length _ _ _ Hperm) in H.
    unfold api_cap in H. lia.
  - rewrite <- (sorted_lower_length fs). apply rows_length_le.
  - intros Hfew.
    destruct (rows_prefix dll_apis 0 (sorted_lower fs) Hcap) as (rest & Hfs & Hcut).
    destruct rest as [|r rest]; [now rewrite app_nil_r in Hfs|].
    exfalso.
    assert (Hne : r :: rest <> []) by discriminate.
    specialize (Hcut Hne).
    pose proof (rows_explained_le dll_apis 0 (sorted_lower fs)) as Hle.
    rewrite <- (perm_filter_length _ _ _ Hperm) in Hle.
    unfold api_cap in Hcut. lia.
  - intros Hall.
    assert (Hall' : forallb (catalogued dll_apis) (sorted_lower fs) = true).
    { rewrite forallb_forall in *. intros x Hx. apply Hall.
      now apply (proj1 (sorted_lower_In _ _)). }
    rewrite (rows_all_catalogued dll_apis 0 (sorted_lower fs) Hcap Hall').
    rewrite sorted_lower_length. unfold api_cap. lia.
Qed.

Lemma listing_bounds_witness :
  length (listed kernel32_apis (keys kernel32_apis)) = 20
  /\ map fst (listed kernel32_apis [ "Sleep"; "CreateFile"; "Beep" ])
     = [ "Beep"; "CreateFile"; "Sleep" ].
Proof.
  destruct (listing_bounds kernel32_apis (keys kernel32_apis)) as (_ & _ & _ & Hall).
  destruct (listing_bounds kernel32_apis [ "Sleep"; "CreateFile"; "Beep" ])
    as (_ & _ & Hfew & _).
  split.
  - rewrite Hall by (vm_compute; reflexivity). vm_compute. reflexivity.
  - rewrite Hfew by (vm_compute; lia). vm_compute. reflexivity.
Defined.

(** ** The set of dangerous functions found *)

Lemma set_add_NoDup (x : string) (s : list string) :
  NoDup s -> NoDup (set_add x s).
Proof.
  intros H. unfold set_add. destruct (str_in x s) eqn:E; [exact H|].
  apply NoDup_app; [exact H | repeat constructor; simpl; tauto |].
  intros a Ha [<-|[]]. apply str_in_In in Ha. congruence.
Qed.

Lemma find_dangerous_NoDup (tbl : table) : NoDup (find_dangerous tbl).
Proof.
  unfold find_dangerous.
  assert (H : forall (t : table) found, NoDup found ->
            NoDup (fold_left
                     (fun found (item : string * list string) =>
                        fold_left
                          (fun found api =>
                             if str_in (Str.lower api) dangerous_functions
                             then set_add api found else found)
                          (snd item) found)
                     t found)).
  { induction t as [|[dll fs] t IH]; intros found Hnd; cbn [fold_left snd].
    - exact Hnd.
    - apply IH. clear IH. revert found Hnd.
      induction fs as [|f fs IHf]; intros found Hnd; cbn [fold_left].
      + exact Hnd.
      + apply IHf.
        destruct (str_in (Str.lower f) dangerous_functions);
          [now apply set_add_NoDup | exact Hnd]. }
  apply H. constructor.
Qed.

(** X6. The dangerous functions found form a set: a name is in it exactly
    when some library of the table imports it and its lower-cased form is
    in the dangerous list, and it is there once however often it is
    imported. The dangerous section of the text report then has one line
    per name under its heading. *)
Theorem dangerous_found_is_a_set (tbl : table) (nd : dict dll_info) :
  NoDup (find_dangerous tbl)
  /\ (forall api,
         In api (find_dangerous tbl) <->
         In api (concat (values tbl))
         /\ In (Str.lower api) dangerous_functions)
  /\ length (Text.dangerous_section nd (find_dangerous tbl))
     = match find_dangerous tbl with
       | [] => 0
       | _ :: _ => S (length (find_dangerous tbl))
       end.
Proof.
  split; [apply find_dangerous_NoDup|]. split.
  - intros api. rewrite find_dangerous_In. split.
    + intros (dll & fs & Htbl & Hfs & Hd). split; [|now apply str_in_In].
      apply in_concat. exists fs. split; [|exact Hfs].
      unfold values. apply in_map_iff. now exists (dll, fs).
    + intros (Hin & Hd). apply in_concat in Hin.
      destruct Hin as (fs & Hfs & Hapi).
      unfold values in Hfs. apply in_map_iff in Hfs.
      destruct Hfs as ([dll fs'] & Heq & Htbl). simpl in Heq. subst fs'.
      exists dll, fs. split; [exact Htbl|]. split; [exact Hapi|].
      now apply str_in_In.
  - unfold Text.dangerous_section.
    destruct (find_dangerous tbl) as [|x l] eqn:E; [reflexivity|].
    cbn [nonempty length]. now rewrite length_map, sorted_lower_length.
Qed.

Lemma dangerous_found_is_a_set_witness :
  find_dangerous (table_of pe_two_descriptors)
  = [ "GetProcAddress"; "VirtualAlloc" ]
  /\ NoDup (find_dangerous (table_of pe_two_descriptors)).
Proof.
  split; [reflexivity|].
  exact (proj1 (dangerous_found_is_a_set (table_of pe_two_descriptors)
                  dll_api_explanations)).
Defined.

(** ** The answers [main] accepts *)

(** X7. A prompt counts as answered yes exactly when the line typed is y
    or Y once the blanks around it are removed; any other answer, the
    word yes included, counts as no. *)
Theorem said_yes_iff (answer : string) :
  said_yes answer = true <-> Str.strip answer = "y" \/ Str.strip answer = "Y".
Proof.
  unfold said_yes. rewrite String.eqb_eq. apply lower_is_y.
Qed.

Lemma said_yes_iff_witness :
  said_yes "  Y " = true /\ said_yes "yes" = false /\ said_yes "" = false.
Proof.
  split; [|split; reflexivity].
  apply (proj2 (said_yes_iff "  Y ")). right. reflexivity.
Defined.

(** ** What a run of [main] leaves behind *)

(** The one place a file is written, read backwards. *)
Lemma file_written_inv (E : env) (stdin : list string) (name content : string) :
  In (FileWritten name content) (snd (run E stdin)) ->
  exists tbl a1 a2 a3 rest,
    stdin = a1 :: a2 :: a3 :: rest
    /\ extract_and_sort_imports (parsed E) = Ok tbl
    /\ open_error E (file_name_of E a2 a3) = None
    /\ name = file_name_of E a2 a3
    /\ content = report_of E tbl a1 a2.
Proof.
  intros Hin.
  destruct (extract_and_sort_imports (parsed E)) as [tbl|e] eqn:Hx.
  - destruct (Nat.lt_ge_cases (length stdin) 3) as [Hshort|Hlong].
    + destruct (run_end_of_input E stdin tbl Hx Hshort) as (prompts & Hrun).
      rewrite Hrun in Hin. cbn [snd] in Hin.
      apply in_app_or in Hin. destruct Hin as [Hin|[Hin|[]]]; [|discriminate].
      apply in_map_iff in Hin. destruct Hin as (p & Hp & _). discriminate.
    + destruct stdin as [|a1 [|a2 [|a3 rest]]]; try (simpl in Hlong; lia).
      destruct (open_error E (file_name_of E a2 a3)) as [text|] eqn:Hopen.
      * rewrite (run_open_fails E a1 a2 a3 rest tbl text Hx Hopen) in Hin.
        cbn [snd In] in Hin. repeat (destruct Hin as [Hin|Hin]; [discriminate|]).
        destruct Hin.
      * rewrite (run_success E a1 a2 a3 rest tbl Hx Hopen) in Hin.
        cbn [snd In] in Hin.
        destruct Hin as [Hin|[Hin|[Hin|[Hin|[Hin|[]]]]]]; try discriminate.
        injection Hin as <- <-.
        exists tbl, a1, a2, a3, rest. auto.
  - rewrite (run_extract_fails E stdin e Hx) in Hin. cbn [snd In] in Hin.
    destruct Hin as [Hin|[]]. discriminate.
Qed.



(** ** The name of the output file *)

Lemma has_char_app (c : ascii) (a b : string) :
  has_char c (a ++ b) = has_char c a || has_char c b.
Proof.
  induction a as [|x a IH]; simpl; [reflexivity|].
  now rewrite IH, orb_assoc.
Qed.

Lemma basename_no_slash (p : string) : has_char "/" (basename p) = false.
Proof.
  induction p as [|c p IH]; [reflexivity|].
  cbn [basename]. destruct (has_char "/" (String c p)) eqn:E; [exact IH | exact E].
Qed.

Lemma splitext_root_keeps (c : ascii) (seen : bool) (p : string) :
  has_char c p = false -> has_char c (splitext_root_from seen p) = false.
Proof.
  revert seen; induction p as [|a p IH]; intros seen; simpl; [reflexivity|].
  rewrite orb_false_iff. intros (Ha & Hp).
  destruct (Ascii.eqb a "." && seen && negb (has_char "." p)); [reflexivity|].
  simpl. rewrite Ha. now apply IH.
Qed.

Lemma default_filename_no_slash (E : env) (a2 : string) :
  has_char "/" (default_filename_of E a2) = false.
Proof.
  unfold default_filename_of, splitext_root. rewrite has_char_app.
  rewrite splitext_root_keeps by apply basename_no_slash.
  now destruct (said_yes a2).
Qed.

(** X9. When the third prompt is answered with a blank line, the report
    goes to the default name: the base name of the input path without its
    last extension, followed by .html when HTML was chosen and by .txt
    otherwise. That name has no directory part, so the file lands in the
    current directory wherever the input is. An answer that is not blank
    is used as the name, stripped, whatever its extension. *)
Theorem output_file_name (E : env) (stdin : list string) (name content : string) :
  In (FileWritten name content) (snd (run E stdin)) ->
  exists a1 a2 a3 rest,
    stdin = a1 :: a2 :: a3 :: rest
    /\ (Str.strip a3 = "" ->
        name = splitext_root (basename (file_path E))
               ++ (if said_yes a2 then ".html" else ".txt")
        /\ has_char "/" name = false)
    /\ (Str.strip a3 <> "" -> name = Str.strip a3).
Proof.
  intros Hin.
  destruct (file_written_inv E stdin name content Hin)
    as (tbl & a1 & a2 & a3 & rest & -> & _ & _ & -> & _).
  exists a1, a2, a3, rest. split; [reflexivity|].
  unfold file_name_of, Str.or_else. split.
  - intros ->. cbn [Str.truthy]. split; [reflexivity|].
    apply default_filename_no_slash.
  - intros Hne. destruct (Str.strip a3); [congruence | reflexivity].
Qed.

Lemma output_file_name_witness :
  exists a1 a2 a3 rest,
    [ "n"; "y"; "  " ] = a1 :: a2 :: a3 :: rest
    /\ (Str.strip a3 = "" ->
        "dropper.html" = splitext_root (basename (file_path env_sample))
                         ++ (if said_yes a2 then ".html" else ".txt")
        /\ has_char "/" "dropper.html" = false)
    /\ (Str.strip a3 <> "" -> "dropper.html" = Str.strip a3).
Proof.
  apply (output_file_name env_sample [ "n"; "y"; "  " ] "dropper.html"
           (report_of env_sample (table_of pe_sample) "n" "y")).
  vm_compute. tauto.
Defined.

(** ** Reports without content *)

Lemma flat_map_nil {A B : Type} (f : A -> list B) (l : list A) :
  (forall x, In x l -> f x = []) -> flat_map f l = [].
Proof.
  induction l as [|x l IH]; intros H; cbn [flat_map]; [reflexivity|].
  rewrite (H x) by now left. apply IH. intros y Hy. apply H. now right.
Qed.

(** X10. When no library of the table is in the catalog and no dangerous
    function is to be shown, the text report is the empty string and the
    HTML report is the fixed page head followed by the closing line. *)
Theorem report_without_known_library (tbl : table) (nd : dict dll_info) :
  (forall dll, In dll (keys tbl) -> dict_mem (Str.lower dll) nd = false) ->
  generate_text_output tbl nd [] = ""
  /\ Html.lines tbl nd [] = (Html.header ++ [ "</body></html>" ])%list.
Proof.
  intros Hnone.
  assert (Ht : Text.body tbl nd = []).
  { apply flat_map_nil. intros [dll fs] Hin. unfold Text.dll_block.
    assert (H : dict_mem (Str.lower dll) nd = false).
    { apply Hnone. unfold keys. now apply (in_map fst) in Hin. }
    unfold dict_mem in H. now destruct (dict_get (Str.lower dll) nd). }
  assert (Hh : Html.body tbl nd = []).
  { apply flat_map_nil. intros [dll fs] Hin. unfold Html.dll_block.
    assert (H : dict_mem (Str.lower dll) nd = false).
    { apply Hnone. unfold keys. now apply (in_map fst) in Hin. }
    unfold dict_mem in H. now destruct (dict_get (Str.lower dll) nd). }
  split.
  - unfold generate_text_output, Text.lines. rewrite Ht. reflexivity.
  - unfold Html.lines. rewrite Hh. reflexivity.
Qed.

Lemma report_without_known_library_witness :
  generate_text_output (table_of pe_unnamed) dll_api_explanations [] = ""
  /\ Html.lines (table_of pe_unnamed) dll_api_explanations []
     = (Html.header ++ [ "</body></html>" ])%list.
Proof.
  apply (report_without_known_library (table_of pe_unnamed) dll_api_explanations).
  intros dll [<-|[]]. vm_compute. reflexivity.
Defined.

(** ** [extend_apis] *)

Section DictLaws.
Context {V : Type}.
Implicit Types (d : dict V) (k : string) (v : V).

Lemma dict_get_set_same k v d : dict_get k (dict_set k v d) = Some v.
Proof.
  induction d as [|[k0 v0] d IH]; simpl.
  - now rewrite String.eqb_refl.
  - destruct (String.eqb k0 k) eqn:E; simpl; rewrite E; [reflexivity | exact IH].
Qed.

Lemma dict_get_set_other k k' v d :
  k <> k' -> dict_get k' (dict_set k v d) = dict_get k' d.
Proof.
  intros Hne. induction d as [|[k0 v0] d IH]; simpl.
  - destruct (String.eqb_spec k k'); [contradiction | reflexivity].
  - destruct (String.eqb_spec k0 k) as [->|H0]; simpl.
    + destruct (String.eqb_spec k k'); [contradiction | reflexivity].
    + destruct (String.eqb k0 k'); [reflexivity | exact IH].
Qed.

Lemma dict_set_length k v d :
  length (dict_set k v d) = if dict_mem k d then length d else S (length d).
Proof.
  unfold dict_mem. induction d as [|[k0 v0] d IH]; simpl; [reflexivity|].
  destruct (String.eqb k0 k); simpl; [reflexivity|].
  rewrite IH. now destruct (dict_get k d).
Qed.

Lemma dict_set_keys k v d : exists added, keys (dict_set k v d) = (keys d ++ added)%list.
Proof.
  induction d as [|[k0 v0] d (added & IH)]; simpl.
  - now exists [k].
  - destruct (String.eqb k0 k); simpl.
    + exists []. now rewrite app_nil_r.
    + exists added. now rewrite IH.
Qed.
End DictLaws.

Lemma placeholder_key_inj (i j : nat) : placeholder_key i = placeholder_key j -> i = j.
Proof.
  unfold placeholder_key, Str.of_N. simpl. intros [= H].
  apply Nat2N.inj, DecimalN.Unsigned.to_uint_inj.
  assert (Hs : Some (N.to_uint (N.of_nat i)) = Some (N.to_uint (N.of_nat j))).
  { rewrite <- !NilEmpty.usu. now rewrite H. }
  now injection Hs.
Qed.

(** The loop of [extend_apis] over the indices [idx]. *)
Lemma placeholders_kept (k : string) (idx : list nat) (a : dict string) :
  (forall i, In i idx -> k <> placeholder_key i) ->
  dict_get k
    (fold_left (fun a i => dict_set (placeholder_key i) DEFAULT_EXPLANATION a) idx a)
  = dict_get k a.
Proof.
  revert a; induction idx as [|i idx IH]; intros a Hk; cbn [fold_left]; [reflexivity|].
  rewrite IH by (intros j Hj; apply Hk; now right).
  apply dict_get_set_other. intros E. apply (Hk i); [now left | now symmetry].
Qed.

Lemma placeholders_stay (k : string) (idx : list nat) (a : dict string) :
  dict_get k a = Some DEFAULT_EXPLANATION ->
  dict_get k
    (fold_left (fun a i => dict_set (placeholder_key i) DEFAULT_EXPLANATION a) idx a)
  = Some DEFAULT_EXPLANATION.
Proof.
  revert a; induction idx as [|i idx IH]; intros a Hk; cbn [fold_left]; [exact Hk|].
  apply IH. destruct (String.eqb_spec (placeholder_key i) k) as [<-|Hne].
  - apply dict_get_set_same.
  - now rewrite dict_get_set_other.
Qed.

Lemma placeholders_set (i : nat) (idx : list nat) (a : dict string) :
  In i idx ->
  dict_get (placeholder_key i)
    (fold_left (fun a i => dict_set (placeholder_key i) DEFAULT_EXPLANATION a) idx a)
  = Some DEFAULT_EXPLANATION.
Proof.
  revert a; induction idx as [|j idx IH]; intros a; [intros []|].
  intros [->|Hin]; cbn [fold_left].
  - apply placeholders_stay, dict_get_set_same.
  - now apply IH.
Qed.

Lemma placeholders_keys (idx : list nat) (a : dict string) :
  exists added,
    keys (fold_left (fun a i => dict_set (placeholder_key i) DEFAULT_EXPLANATION a) idx a)
    = (keys a ++ added)%list.
Proof.
  revert a; induction idx as [|i idx IH]; intros a; cbn [fold_left].
  - exists []. now rewrite app_nil_r.
  - destruct (IH (dict_set (placeholder_key i) DEFAULT_EXPLANATION a)) as (more & ->).
    destruct (dict_set_keys (placeholder_key i) DEFAULT_EXPLANATION a) as (one & ->).
    exists (one ++ more)%list. now rewrite app_assoc.
Qed.

Lemma placeholders_length (idx : list nat) (a : dict string) :
  NoDup idx ->
  (forall i, In i idx -> dict_mem (placeholder_key i) a = false) ->
  length (fold_left (fun a i => dict_set (placeholder_key i) DEFAULT_EXPLANATION a) idx a)
  = length a + length idx.
Proof.
  intros Hnd. revert a; induction Hnd as [|i idx Hnotin Hnd IH]; intros a Hfree;
    cbn [fold_left length]; [lia|].
  rewrite IH.
  - rewrite dict_set_length, (Hfree i) by now left. lia.
  - intros j Hj. unfold dict_mem.
    rewrite dict_get_set_other.
    + apply (Hfree j). now right.
    + intros E. apply placeholder_key_inj in E. subst j. contradiction.
Qed.

Lemma in_range (i a b : nat) : In i (range a b) <-> a <= i < b.
Proof. unfold range. rewrite in_seq. lia. Qed.

(** X11. [extend_apis] leaves the explanation and every entry already in
    [apis] alone, apart from entries stored under one of the placeholder
    keys it writes; it keeps the existing keys in place and adds new ones
    after them; each placeholder key numbered from the old length plus one
    up to the target ends up mapped to the default explanation; and a
    dictionary that has the target number of entries already is returned
    unchanged. *)
Theorem extend_apis_spec (dll_dict : dll_info) (target : nat) :
  let current := length (apis dll_dict) in
  let extended := extend_apis dll_dict target in
  explanation extended = explanation dll_dict
  /\ (forall i, current < i <= target ->
                dict_get (placeholder_key i) (apis extended)
                = Some DEFAULT_EXPLANATION)
  /\ (forall k, (forall i, current < i <= target -> k <> placeholder_key i) ->
                dict_get k (apis extended) = dict_get k (apis dll_dict))
  /\ (exists added, keys (apis extended) = (keys (apis dll_dict) ++ added)%list)
  /\ (target <= current -> extended = dll_dict).
Proof.
  intros current extended. subst extended. unfold extend_apis. cbn [explanation apis].
  fold current. split; [reflexivity|]. split; [|split; [|split]].
  - intros i Hi. apply placeholders_set. apply in_range. lia.
  - intros k Hk. apply placeholders_kept.
    intros i Hi. apply Hk. apply in_range in Hi. lia.
  - apply placeholders_keys.
  - intros Hle. unfold range.
    replace (target + 1 - (current + 1)) with 0 by lia.
    cbn [seq fold_left]. now destruct dll_dict.
Qed.

Lemma extend_apis_spec_witness :
  let small := {| explanation := "Test."; apis := [ ("beep", "Beeps.") ] |} in
  keys (apis (extend_apis small 3)) = [ "beep"; "placeholder_2"; "placeholder_3" ]
  /\ dict_get "beep" (apis (extend_apis small 3)) = Some "Beeps."
  /\ extend_apis small 1 = small.
Proof.
  intros small.
  destruct (extend_apis_spec small 3) as (_ & _ & Hkept & _).
  destruct (extend_apis_spec small 1) as (_ & _ & _ & _ & Hsame).
  split; [reflexivity|]. split.
  - rewrite Hkept; [reflexivity|].
    intros i _. vm_compute. discriminate.
  - apply Hsame. simpl. lia.
Defined.

(** X12. When none of the placeholder keys that [extend_apis] is about to
    write is in [apis] yet, the result has exactly the larger of the old
    number of entries and the target. (A placeholder key that is already
    there is overwritten instead of added, and the result is then
    shorter than the target.) *)
Theorem extend_apis_length (dll_dict : dll_info) (target : nat) :
  (forall i, length (apis dll_dict) < i <= target ->
             dict_mem (placeholder_key i) (apis dll_dict) = false) ->
  length (apis (extend_apis dll_dict target))
  = Nat.max (length (apis dll_dict)) target.
Proof.
  intros Hfree. unfold extend_apis. cbn [apis].
  rewrite placeholders_length.
  - unfold range. rewrite length_seq. lia.
  - apply seq_NoDup.
  - intros i Hi. apply Hfree. apply in_range in Hi. lia.
Qed.

Lemma extend_apis_length_witness :
  length (apis (extend_apis {| explanation := "Test."; apis := kernel32_apis |} 100))
  = Nat.max (length kernel32_apis) 100
  /\ length (apis (extend_apis
                     {| explanation := "Test.";
                        apis := [ ("placeholder_2", "Taken.") ] |} 2)) = 1.
Proof.
  split; [|reflexivity].
  apply (extend_apis_length {| explanation := "Test."; apis := kernel32_apis |} 100).
  intros i Hi. cbn [apis] in *.
  assert (Hin : In i (seq 53 48)) by (apply in_seq; change (length kernel32_apis) with 52 in Hi; lia).
  assert (H : forallb (fun i => negb (dict_mem (placeholder_key i) kernel32_apis))
                (seq 53 48) = true) by (vm_compute; reflexivity).
  rewrite forallb_forall in H. specialize (H i Hin).
  now apply negb_true_iff in H.
Defined.

(** ** [html.escape], one character at a time *)

Lemma html_escape_charwise_eq (s : string) : html_escape s = escape_charwise s.
Proof.
  induction s as [|c s IH]; [reflexivity|].
  rewrite html_escape_cons, html_escape_char, IH. reflexivity.
Qed.

(** X13. The five replacements of [html.escape], applied one after the
    other to the whole string, translate every character exactly once:
    the ampersand of a character reference written for an angle bracket or
    a quote is not escaped again, because the ampersands are replaced
    first. *)
Theorem html_escape_is_charwise (s : string) :
  html_escape s = escape_charwise s.
Proof. apply html_escape_charwise_eq. Qed.

Lemma string_length_app (a b : string) :
  String.length (a ++ b) = String.length a + String.length b.
Proof. induction a as [|x a IH]; simpl; [reflexivity | now rewrite IH]. Qed.

Lemma escape_char_length (c : ascii) :
  String.length (escape_char c) = 1 /\ html_special c = false
  \/ 1 < String.length (escape_char c) /\ html_special c = true.
Proof.
  unfold escape_char, html_special.
  destruct (Ascii.eqb c "&"); [right; simpl; split; [lia | reflexivity]|].
  destruct (Ascii.eqb c "<"); [right; simpl; split; [lia | reflexivity]|].
  destruct (Ascii.eqb c ">"); [right; simpl; split; [lia | reflexivity]|].
  destruct (Ascii.eqb c dquote); [right; simpl; split; [lia | reflexivity]|].
  destruct (Ascii.eqb c squote); [right; simpl; split; [lia | reflexivity]|].
  left. simpl. split; reflexivity.
Qed.

Lemma escape_charwise_length (s : string) :
  String.length s <= String.length (escape_charwise s).
Proof.
  induction s as [|c s IH]; simpl; [lia|].
  rewrite string_length_app.
  destruct (escape_char_length c) as [(H & _)|(H & _)]; lia.
Qed.

Lemma html_escape_plain_iff (s : string) :
  html_escape s = s <-> free_of html_special s = true.
Proof.
  rewrite html_escape_charwise_eq. split.
  - intros H. apply (f_equal String.length) in H.
    induction s as [|c s IH]; [reflexivity|].
    simpl in H. rewrite string_length_app in H.
    pose proof (escape_charwise_length s) as Hs.
    destruct (escape_char_length c) as [(Hc & Hsp)|(Hc & _)]; [|lia].
    cbn [free_of]. rewrite Hsp. apply IH. lia.
  - induction s as [|c s IH]; [reflexivity|].
    cbn [free_of escape_charwise]. rewrite andb_true_iff, negb_true_iff.
    intros (Hc & Hs). rewrite (IH Hs).
    unfold html_special in Hc. rewrite !orb_false_iff in Hc.
    destruct Hc as ((((H1 & H2) & H3) & H4) & H5).
    unfold escape_char. now rewrite H1, H2, H3, H4, H5.
Qed.

(** X14. A string comes out of [html.escape] unchanged exactly when it has
    none of the five characters & < > and the two quotes. So a function
    name and an explanation without them stand in their HTML row exactly
    as they are in the import table and in the catalog. *)
Theorem plain_names_are_written_as_they_are (api e : string) :
  (html_escape api = api <-> free_of html_special api = true)
  /\ (free_of html_special api = true ->
      Html.unknown_row api = "<tr><td>" ++ api ++ "</td><td></td></tr>"
      /\ (free_of html_special e = true ->
          Html.known_row api e
          = "<tr><td>" ++ api ++ "</td><td>" ++ e ++ "</td></tr>")).
Proof.
  split; [apply html_escape_plain_iff|].
  intros Hapi. apply html_escape_plain_iff in Hapi.
  unfold Html.unknown_row, Html.known_row. rewrite Hapi.
  split; [reflexivity|].
  intros He. apply html_escape_plain_iff in He. now rewrite He.
Qed.

Lemma plain_names_are_written_as_they_are_witness :
  Html.unknown_row "Ordinal_115" = "<tr><td>Ordinal_115</td><td></td></tr>"
  /\ html_escape "a<b&c" = "a&lt;b&amp;c".
Proof.
  split; [|reflexivity].
  destruct (proj2 (plain_names_are_written_as_they_are "Ordinal_115" "")
              eq_refl) as (Hrow & _).
  exact Hrow.
Defined.

(** ** The tables of the HTML report *)

Lemma count_line_app (l : string) (a b : list string) :
  count_line l (a ++ b) = count_line l a + count_line l b.
Proof. unfold count_line. now rewrite filter_app, length_app. Qed.

Lemma count_line_rows (l : string) (rows : list string) :
  (forall r, In r rows -> String.eqb l r = false) -> count_line l rows = 0.
Proof.
  unfold count_line. induction rows as [|r rows IH]; intros H; [reflexivity|].
  cbn [filter]. rewrite (H r) by now left. apply IH.
  intros r' Hr'. apply H. now right.
Qed.

Lemma html_row_is_no_table_line (row : string * option string) :
  String.eqb "<table>" (format_row Html.known_row Html.unknown_row row) = false
  /\ String.eqb "</table>" (format_row Html.known_row Html.unknown_row row) = false.
Proof. destruct row as [api [e|]]; split; reflexivity. Qed.

Lemma html_block_tables (nd : dict dll_info) (item : string * list string) :
  count_line "<table>" (Html.dll_block nd item)
  = (if dict_mem (Str.lower (fst item)) nd then 1 else 0)
  /\ count_line "</table>" (Html.dll_block nd item)
     = (if dict_mem (Str.lower (fst item)) nd then 1 else 0).
Proof.
  destruct item as [dll fs]. cbn [fst]. unfold dict_mem.
  destruct (dict_get (Str.lower dll) nd) as [info|] eqn:E.
  - rewrite (html_block_known nd dll fs info E).
    set (rows := map (format_row Html.known_row Html.unknown_row)
                   (listed (apis info) fs)).
    assert (Hrows : count_line "<table>" rows = 0 /\ count_line "</table>" rows = 0).
    { split; apply count_line_rows; intros r Hr; subst rows;
        apply in_map_iff in Hr; destruct Hr as (row & <- & _);
        apply html_row_is_no_table_line. }
    destruct Hrows as (H1 & H2).
    split.
    + change (S (count_line "<table>" (List.app rows [ "</table>" ])) = 1).
      rewrite count_line_app, H1. reflexivity.
    + change (count_line "</table>" (List.app rows [ "</table>" ]) = 1).
      rewrite count_line_app, H2. reflexivity.
  - unfold Html.dll_block. rewrite E. split; reflexivity.
Qed.

Lemma html_body_tables (nd : dict dll_info) (tbl : table) :
  count_line "<table>" (Html.body tbl nd)
  = length (filter (fun item => dict_mem (Str.lower (fst item)) nd) tbl)
  /\ count_line "</table>" (Html.body tbl nd)
     = length (filter (fun item => dict_mem (Str.lower (fst item)) nd) tbl).
Proof.
  unfold Html.body.
  induction tbl as [|item tbl (IH1 & IH2)]; [split; reflexivity|].
  cbn [flat_map filter]. rewrite !count_line_app, IH1, IH2.
  destruct (html_block_tables nd item) as (-> & ->).
  destruct (dict_mem (Str.lower (fst item)) nd); split; reflexivity.
Qed.

Lemma html_dangerous_tables (nd : dict dll_info) (ds : list string) :
  count_line "<table>" (Html.dangerous_section nd ds)
  = (if nonempty ds then 1 else 0)
  /\ count_line "</table>" (Html.dangerous_section nd ds)
     = (if nonempty ds then 1 else 0).
Proof.
  unfold Html.dangerous_section.
  destruct (nonempty ds); [|split; reflexivity].
  set (rows := map (Html.dangerous_row nd) (sorted_lower ds)).
  assert (Hrows : count_line "<table>" rows = 0 /\ count_line "</table>" rows = 0).
  { split; apply count_line_rows; intros r Hr; subst rows;
      apply in_map_iff in Hr; destruct Hr as (func & <- & _);
      unfold Html.dangerous_row; destruct (shown_explanation nd func);
      reflexivity. }
  destruct Hrows as (H1 & H2). cbn [List.app]. split.
  - change (S (count_line "<table>" (List.app rows [ "</table>" ])) = 1).
    rewrite count_line_app, H1. reflexivity.
  - change (count_line "</table>" (List.app rows [ "</table>" ]) = 1).
    rewrite count_line_app, H2. reflexivity.
Qed.

(** X15. The HTML report closes every table it opens: it has one opening
    and one closing table line for each library of the table that is in
    the catalog, and one more of each when dangerous functions are
    shown. *)
Theorem html_tables_are_closed (tbl : table) (nd : dict dll_info)
  (ds : list string) :
  count_line "<table>" (Html.lines tbl nd ds)
  = count_line "</table>" (Html.lines tbl nd ds)
  /\ count_line "<table>" (Html.lines tbl nd ds)
     = length (filter (fun item => dict_mem (Str.lower (fst item)) nd) tbl)
       + (if nonempty ds then 1 else 0).
Proof.
  unfold Html.lines. rewrite !count_line_app.
  destruct (html_body_tables nd tbl) as (-> & ->).
  destruct (html_dangerous_tables nd ds) as (-> & ->).
  change (count_line "<table>" Html.header) with 0.
  change (count_line "</table>" Html.header) with 0.
  change (count_line "<table>" [ "</body></html>" ]) with 0.
  change (count_line "</table>" [ "</body></html>" ]) with 0.
  split; lia.
Qed.
